(** * Bus layout builder: seat numbering, display labels, assignment ledger

    A shallow embedding of the seat-map editor.  The components are plain
    functions of the configuration record they receive:

    - [Layout]        src/components/BusLayout.tsx (numbering, rendering,
                      display label, the [Seat] component's handlers);
    - [Configurator]  BusConfigurator.tsx (drop handler, assignment
                      callback, auto-assign, empty-space toggle);
    - [People]        PeopleManager.tsx (roster edits, tabular import);
    - [App]           the user-facing transition system on top of them;
    - [Spec]          the numbering and the name resolution in the words
                      of the specification, and the worked examples;
    - [LegacyLayout]  the numbering loop of the older layout variant;
    - [ConfiguratorAux], [TourGuide]  the seat total, the export file
                      names and the tour-guide panel's label;
    - [Notions]       vocabulary for the further properties.

    JavaScript strings are [string], [Map<string,string>] is
    [gmap string string], [Set<string>] is [gset string], arrays are lists.
    Insertion order inside a [Map] is never observed by the code below
    (the only iteration deletes by value), so a finite map is enough.
    A state update [setConfig(prev => ...)] runs on the state the handler
    was rendered with: events are handled one at a time. *)

From Stdlib Require Import Ascii String ZArith Lia.
From stdpp Require Import base strings gmap list pretty sorting.

Local Open Scope string_scope.
Local Open Scope list_scope.

(** ** JavaScript helpers *)

Module JS.

(** [!!s] for a string: only the empty string is falsy. *)
Definition truthyS (s : string) : bool := bool_decide (s ≠ "").

(** [!!v] for [string | undefined | null]. *)
Definition truthy (v : option string) : bool :=
  match v with
  | Some s => truthyS s
  | None => false
  end.

(** [a || b] on possibly-undefined strings. *)
Definition or (a b : option string) : option string :=
  if truthy a then a else b.

(** [String.fromCharCode(n)] for code units below 256. *)
Definition fromCharCode (n : nat) : ascii := ascii_of_nat n.

(** [String(n)] for a non-negative integer. *)
Definition String_ (n : nat) : string := pretty n.

(** The same for a large one such as [Date.now()]. *)
Definition String_N (n : N) : string := pretty n.

Definition isDigit (c : ascii) : bool :=
  let n := nat_of_ascii c in (48 <=? n)%nat && (n <=? 57)%nat.

Fixpoint allDigits (s : string) : bool :=
  match s with
  | EmptyString => true
  | String c s' => isDigit c && allDigits s'
  end.

(** [/^\d+$/.test(s)]: one or more ASCII digits and nothing else. *)
Definition test_digits (s : string) : bool :=
  match s with
  | EmptyString => false
  | String _ _ => allDigits s
  end.

(** White space as [String.prototype.trim] sees it, on ASCII text:
    TAB, LF, VT, FF, CR and SPACE. *)
Definition isSpace (c : ascii) : bool :=
  let n := nat_of_ascii c in
  ((9 <=? n)%nat && (n <=? 13)%nat) || (n =? 32)%nat.

Fixpoint trimStart (s : string) : string :=
  match s with
  | EmptyString => EmptyString
  | String c s' => if isSpace c then trimStart s' else s
  end.

(** Drop trailing white space: a character is kept when it is not a
    space or when something is kept after it. *)
Fixpoint trimEnd (s : string) : string :=
  match s with
  | EmptyString => EmptyString
  | String c s' =>
      match trimEnd s' with
      | EmptyString => if isSpace c then EmptyString else String c EmptyString
      | r => String c r
      end
  end.

Definition trim (s : string) : string := trimEnd (trimStart s).

End JS.

(** ** The configuration record *)

(** [Person] as the layout and the import read it. *)
Record Person := mkPerson {
  id : string;
  name : string;
  birthDate : option string;
  notes : option string;
}.

(** The literal type [4 | 5] of [lastRowSeats]. *)
Inductive LastRowSeats := Seats4 | Seats5.

Definition lastRowSeats_nat (w : LastRowSeats) : nat :=
  match w with Seats4 => 4 | Seats5 => 5 end.

(** [BusConfig]: the fields read by the components under study.  The
    optional arrays ([entranceRows?], [tableRows?],
    [upperDeckEntranceRows?]) are lists; an absent array behaves as the
    empty one under [?.includes]. *)
Record BusConfig := mkBusConfig {
  mainDeckRows : nat;
  upperDeckRows : nat;
  hasUpperDeck : bool;
  lastRowSeats : LastRowSeats;
  entranceRows : list nat;
  tableRows : list nat;
  upperDeckEntranceRows : list nat;
  tourGuideSeats : list string;
  driverSeats : list string;
  emptySpaces : gset string;
  seatNumbers : gmap string string;
  people : list Person;
  seatAssignments : gmap string string;
}.

Definition set_emptySpaces (c : BusConfig) (e : gset string) : BusConfig :=
  mkBusConfig (mainDeckRows c) (upperDeckRows c) (hasUpperDeck c)
    (lastRowSeats c) (entranceRows c) (tableRows c)
    (upperDeckEntranceRows c) (tourGuideSeats c) (driverSeats c)
    e (seatNumbers c) (people c) (seatAssignments c).

Definition set_seatNumbers (c : BusConfig) (m : gmap string string)
  : BusConfig :=
  mkBusConfig (mainDeckRows c) (upperDeckRows c) (hasUpperDeck c)
    (lastRowSeats c) (entranceRows c) (tableRows c)
    (upperDeckEntranceRows c) (tourGuideSeats c) (driverSeats c)
    (emptySpaces c) m (people c) (seatAssignments c).

Definition set_tourGuideSeats (c : BusConfig) (l : list string) : BusConfig :=
  mkBusConfig (mainDeckRows c) (upperDeckRows c) (hasUpperDeck c)
    (lastRowSeats c) (entranceRows c) (tableRows c)
    (upperDeckEntranceRows c) l (driverSeats c)
    (emptySpaces c) (seatNumbers c) (people c) (seatAssignments c).

Definition set_people (c : BusConfig) (l : list Person) : BusConfig :=
  mkBusConfig (mainDeckRows c) (upperDeckRows c) (hasUpperDeck c)
    (lastRowSeats c) (entranceRows c) (tableRows c)
    (upperDeckEntranceRows c) (tourGuideSeats c) (driverSeats c)
    (emptySpaces c) (seatNumbers c) l (seatAssignments c).

Definition set_seatAssignments (c : BusConfig) (m : gmap string string)
  : BusConfig :=
  mkBusConfig (mainDeckRows c) (upperDeckRows c) (hasUpperDeck c)
    (lastRowSeats c) (entranceRows c) (tableRows c)
    (upperDeckEntranceRows c) (tourGuideSeats c) (driverSeats c)
    (emptySpaces c) (seatNumbers c) (people c) m.

Definition set_mainDeckRows (c : BusConfig) (n : nat) : BusConfig :=
  mkBusConfig n (upperDeckRows c) (hasUpperDeck c)
    (lastRowSeats c) (entranceRows c) (tableRows c)
    (upperDeckEntranceRows c) (tourGuideSeats c) (driverSeats c)
    (emptySpaces c) (seatNumbers c) (people c) (seatAssignments c).

Definition set_upperDeckRows (c : BusConfig) (n : nat) : BusConfig :=
  mkBusConfig (mainDeckRows c) n (hasUpperDeck c)
    (lastRowSeats c) (entranceRows c) (tableRows c)
    (upperDeckEntranceRows c) (tourGuideSeats c) (driverSeats c)
    (emptySpaces c) (seatNumbers c) (people c) (seatAssignments c).

Definition set_hasUpperDeck (c : BusConfig) (b : bool) : BusConfig :=
  mkBusConfig (mainDeckRows c) (upperDeckRows c) b
    (lastRowSeats c) (entranceRows c) (tableRows c)
    (upperDeckEntranceRows c) (tourGuideSeats c) (driverSeats c)
    (emptySpaces c) (seatNumbers c) (people c) (seatAssignments c).

Definition set_lastRowSeats (c : BusConfig) (w : LastRowSeats) : BusConfig :=
  mkBusConfig (mainDeckRows c) (upperDeckRows c) (hasUpperDeck c)
    w (entranceRows c) (tableRows c)
    (upperDeckEntranceRows c) (tourGuideSeats c) (driverSeats c)
    (emptySpaces c) (seatNumbers c) (people c) (seatAssignments c).

(** ** BusLayout.tsx *)

Module Layout.

(** [String.fromCharCode(65 + seatIndex)] *)
Definition seatLetter (seatIndex : nat) : ascii :=
  JS.fromCharCode (65 + seatIndex).

(** [`${row}${seatLetter}`] *)
Definition mainSeatId (row seatIndex : nat) : string :=
  JS.String_ row +:+ String (seatLetter seatIndex) "".

(** [`U${row}${seatLetter}`] *)
Definition upperSeatId (row seatIndex : nat) : string :=
  "U" +:+ JS.String_ row +:+ String (seatLetter seatIndex) "".

(** [seatLetter === 'C' || seatLetter === 'D'] *)
Definition isCorD (letter : ascii) : bool :=
  bool_decide (letter = "C"%char) || bool_decide (letter = "D"%char).

(** The running [counter] and the [map] under construction. *)
Definition NumState : Type := nat * gmap string string.

(** [if (!config.emptySpaces.has(sid)) { counter += 1;
     map.set(sid, String(counter)); }] *)
Definition numberSeat (config : BusConfig) (sid : string) (st : NumState)
  : NumState :=
  if bool_decide (sid ∈ emptySpaces config) then st
  else (S st.1, <[sid := JS.String_ (S st.1)]> st.2).

(** Body of the main-deck loop for one [row]. *)
Definition numberMainRow (config : BusConfig) (st : NumState) (row : nat)
  : NumState :=
  let isLastRow := bool_decide (row = mainDeckRows config) in
  let isEntranceRow := bool_decide (row ∈ entranceRows config) in
  let isTableRow := bool_decide (row ∈ tableRows config) in
  let seatsInRow :=
    if isLastRow then lastRowSeats_nat (lastRowSeats config) else 4 in
  if isTableRow then st
  else
    foldl (λ st seatIndex,
             let letter := seatLetter seatIndex in
             let sid := mainSeatId row seatIndex in
             if isEntranceRow && isCorD letter then st
             else numberSeat config sid st)
          st (seq 0 seatsInRow).

(** Body of the upper-deck loop for one [row]. *)
Definition numberUpperRow (config : BusConfig) (st : NumState) (row : nat)
  : NumState :=
  let isUpperEntranceRow :=
    bool_decide (row ∈ upperDeckEntranceRows config) in
  foldl (λ st seatIndex,
           let letter := seatLetter seatIndex in
           let sid := upperSeatId row seatIndex in
           if isUpperEntranceRow && isCorD letter then st
           else numberSeat config sid st)
        st (seq 0 4).

(** The two loops of [seatNumberMap], with the counter kept. *)
Definition seatNumberState (config : BusConfig) : NumState :=
  let st := foldl (numberMainRow config) (0, ∅)
                  (seq 1 (mainDeckRows config)) in
  if hasUpperDeck config
  then foldl (numberUpperRow config) st (seq 1 (upperDeckRows config))
  else st.

Definition seatNumberMap (config : BusConfig) : gmap string string :=
  (seatNumberState config).2.

(** *** Rendering *)

(** What a row of the deck renders, child by child. *)
Inductive Element :=
  | SeatEl (seatId displayLabel : string)   (* <Seat seatId displayLabel/> *)
  | EntranceEl                              (* the ENTRANCE block *)
  | TableEl                                 (* a TABLE block *)
  | NullEl.                                 (* null *)

(** One iteration of the loop of [renderMainDeck]. *)
Definition renderMainRow (config : BusConfig) (row : nat) : list Element :=
  let isLastRow := bool_decide (row = mainDeckRows config) in
  let seatsInRow :=
    if isLastRow then lastRowSeats_nat (lastRowSeats config) else 4 in
  let isEntranceRow := bool_decide (row ∈ entranceRows config) in
  let isTableRow := bool_decide (row ∈ tableRows config) in
  if isTableRow then [TableEl; TableEl]
  else
    map (λ seatIndex,
           let seatId := mainSeatId row seatIndex in
           let seatNumber := default "" (seatNumberMap config !! seatId) in
           if isEntranceRow && bool_decide (seatIndex = 2) then EntranceEl
           else if isEntranceRow && bool_decide (seatIndex = 3) then NullEl
           else SeatEl seatId seatNumber)
        (seq 0 seatsInRow).

Definition renderMainDeck (config : BusConfig) : list (list Element) :=
  map (renderMainRow config) (seq 1 (mainDeckRows config)).

(** One iteration of the loop of [renderUpperDeck]. *)
Definition renderUpperRow (config : BusConfig) (row : nat) : list Element :=
  let isUpperEntranceRow :=
    bool_decide (row ∈ upperDeckEntranceRows config) in
  map (λ seatIndex,
         let seatId := upperSeatId row seatIndex in
         let seatNumber := default "" (seatNumberMap config !! seatId) in
         if isUpperEntranceRow && bool_decide (seatIndex = 2) then EntranceEl
         else if isUpperEntranceRow && bool_decide (seatIndex = 3) then NullEl
         else SeatEl seatId seatNumber)
      (seq 0 4).

(** [renderUpperDeck]: [null] without an upper deck. *)
Definition renderUpperDeck (config : BusConfig)
  : option (list (list Element)) :=
  if negb (hasUpperDeck config) then None
  else Some (map (renderUpperRow config) (seq 1 (upperDeckRows config))).

(** Every child the layout renders, main deck first, upper-deck tab
    included. *)
Definition renderedElements (config : BusConfig) : list Element :=
  concat (renderMainDeck config) ++
  concat (default [] (renderUpperDeck config)).

Definition seatIdOf (e : Element) : option string :=
  match e with SeatEl sid _ => Some sid | _ => None end.

(** The seat ids for which a [Seat] component is mounted. *)
Definition renderedSeats (config : BusConfig) : list string :=
  omap seatIdOf (renderedElements config).

(** *** The [Seat] component *)

(** [isNumeric = (val?: string) => !!val && /^\d+$/.test(val)] *)
Definition isNumeric (val : option string) : bool :=
  match val with
  | Some s => JS.truthyS s && JS.test_digits s
  | None => false
  end.

(** [displayResolved = isNumeric(customNumber) ? customNumber! : displayLabel] *)
Definition displayResolved (config : BusConfig) (seatId displayLabel : string)
  : string :=
  let customNumber := seatNumbers config !! seatId in
  if isNumeric customNumber then default displayLabel customNumber
  else displayLabel.

(** The label of a mounted seat: [displayLabel] is
    [seatNumberMap.get(seatId) ?? ""]. *)
Definition seatLabel (config : BusConfig) (seatId : string) : string :=
  displayResolved config seatId
    (default "" (seatNumberMap config !! seatId)).

(** [assignedPerson = assignedPersonId
      ? config.people.find(p => p.id === assignedPersonId) : null] *)
Definition assignedPerson (config : BusConfig) (seatId : string)
  : option Person :=
  match seatAssignments config !! seatId with
  | Some assignedPersonId =>
      if JS.truthyS assignedPersonId
      then List.find (λ p, bool_decide (id p = assignedPersonId))
                     (people config)
      else None
  | None => None
  end.

(** The [data] a draggable carries. *)
Record DragData := mkDragData {
  dtype : string;
  personId : string;
  fromSeatId : option string;
}.

(** [useDraggable] of a seat: disabled without a person, otherwise
    [{ type: "person", personId: assignedPerson.id, fromSeatId: seatId }]. *)
Definition seatDragData (config : BusConfig) (seatId : string)
  : option DragData :=
  match assignedPerson config seatId with
  | Some p => Some (mkDragData "person" (id p) (Some seatId))
  | None => None
  end.

(** Modifier keys of a click. *)
Inductive ClickKeys := Plain | Ctrl | CtrlShift.

(** What [handleClick] asks of its parent (no drag in progress). *)
Inductive ClickRequest :=
  | NoRequest
  | ToggleEmptySpace (seatId : string)
  | ToggleTourGuideSeat (seatId : string)
  | ToggleDriverSeat (seatId : string).

Definition handleClick (config : BusConfig) (seatId : string) (e : ClickKeys)
  : ClickRequest :=
  match assignedPerson config seatId with
  | Some _ => NoRequest
  | None =>
      match e with
      | CtrlShift => ToggleDriverSeat seatId
      | Ctrl => ToggleTourGuideSeat seatId
      | Plain => ToggleEmptySpace seatId
      end
  end.

End Layout.

(** ** Host functions used by the roster code *)

(** [new Date(s).getTime()]: a function of the string, fixed by the host;
    [None] stands for [NaN]. *)
Class DateParser := getTime : string → option Z.

Module JSArray.

(** [Array.prototype.sort(comparefn)] as a stable insertion sort: each
    item is moved left past the items [y] with [comparefn(y, item) > 0]
    and stops at the first one with [comparefn(y, item) <= 0].  The sorted
    prefix is kept in reverse, nearest item first.  Every stable sort
    returns this list when [comparefn] orders the items consistently;
    when it does not, the order is the host's choice and the host's
    merge sort may return another one. *)
Fixpoint insertItem {A} (comparefn : A → A → Z) (item : A)
    (revPrefix : list A) : list A :=
  match revPrefix with
  | [] => [item]
  | y :: rest =>
      if (comparefn y item <=? 0)%Z then item :: y :: rest
      else y :: insertItem comparefn item rest
  end.

Definition sort {A} (comparefn : A → A → Z) (l : list A) : list A :=
  rev (foldl (λ revPrefix item, insertItem comparefn item revPrefix) [] l).

End JSArray.

(** The comparator written three times in the sources
    (autoAssignPeople, handleFileUpload, sortPeopleByBirth):
    [if (!a.birthDate || !b.birthDate) return 0;
     return new Date(a.birthDate).getTime() - new Date(b.birthDate).getTime();]
    A [NaN] difference counts as [0] for [sort]. *)
Definition byBirthDate `{DateParser} (a b : Person) : Z :=
  if negb (JS.truthy (birthDate a)) || negb (JS.truthy (birthDate b))
  then 0%Z
  else
    match birthDate a, birthDate b with
    | Some da, Some db =>
        match getTime da, getTime db with
        | Some ta, Some tb => (ta - tb)%Z
        | _, _ => 0%Z
        end
    | _, _ => 0%Z
    end.

(** ** BusConfigurator.tsx *)

Module Configurator.

Import Layout.

(** A [DragEndEvent]: [active.data.current] and [over?.id]. *)
Record DragEndEvent := mkDragEndEvent {
  active_data : option DragData;
  over : option string;
}.

(** The state a session starts from. *)
Definition initialConfig : BusConfig :=
  mkBusConfig 12 3 false Seats5 [] [] [] [] [] ∅ ∅ [] ∅.

(** [Math.max(1, Math.min(hi, rows + increment))] *)
Definition clampRows (hi : Z) (value : Z) : nat :=
  Z.to_nat (Z.max 1 (Z.min hi value)).

Definition updateMainDeckRows (config : BusConfig) (increment : Z)
  : BusConfig :=
  set_mainDeckRows config
    (clampRows 25 (Z.of_nat (mainDeckRows config) + increment)).

Definition updateUpperDeckRows (config : BusConfig) (increment : Z)
  : BusConfig :=
  set_upperDeckRows config
    (clampRows 15 (Z.of_nat (upperDeckRows config) + increment)).

(** [parseInt(e.target.value) || 1]; [None] is [NaN]. *)
Definition parsedOr1 (parsed : option Z) : Z :=
  match parsed with
  | Some v => if (v =? 0)%Z then 1%Z else v
  | None => 1%Z
  end.

Definition inputMainDeckRows (config : BusConfig) (parsed : option Z)
  : BusConfig :=
  set_mainDeckRows config (clampRows 25 (parsedOr1 parsed)).

Definition inputUpperDeckRows (config : BusConfig) (parsed : option Z)
  : BusConfig :=
  set_upperDeckRows config (clampRows 15 (parsedOr1 parsed)).

Definition toggleUpperDeck (config : BusConfig) : BusConfig :=
  set_hasUpperDeck config (negb (hasUpperDeck config)).

Definition toggleLastRowSeats (config : BusConfig) : BusConfig :=
  set_lastRowSeats config
    (match lastRowSeats config with Seats4 => Seats5 | Seats5 => Seats4 end).

Definition toggleEmptySpace (config : BusConfig) (seatId : string)
  : BusConfig :=
  let newEmptySpaces := emptySpaces config in
  set_emptySpaces config
    (if bool_decide (seatId ∈ newEmptySpaces)
     then newEmptySpaces ∖ {[seatId]}
     else newEmptySpaces ∪ {[seatId]}).

Definition updateSeatNumber (config : BusConfig) (seatId number : string)
  : BusConfig :=
  let newSeatNumbers := seatNumbers config in
  set_seatNumbers config
    (if JS.truthyS (JS.trim number)
     then <[seatId := JS.trim number]> newSeatNumbers
     else delete seatId newSeatNumbers).

(** The inline [onToggleTourGuideSeat] handler. *)
Definition onToggleTourGuideSeat (config : BusConfig) (seatId : string)
  : BusConfig :=
  set_tourGuideSeats config
    (if bool_decide (seatId ∈ tourGuideSeats config)
     then filter (λ seat, seat ≠ seatId) (tourGuideSeats config)
     else (tourGuideSeats config ++ [seatId])%list).

Definition getAvailableSeats (config : BusConfig) : list string :=
  let keep seatId :=
    negb (bool_decide (seatId ∈ emptySpaces config)) &&
    negb (bool_decide (seatId ∈ tourGuideSeats config)) in
  let mainSeats :=
    foldl (λ allSeats row,
             let seatsInRow :=
               if bool_decide (row = mainDeckRows config)
               then lastRowSeats_nat (lastRowSeats config) else 4 in
             foldl (λ allSeats seatIndex,
                      let seatId := mainSeatId row seatIndex in
                      if keep seatId then (allSeats ++ [seatId])%list
                      else allSeats)
                   allSeats (seq 0 seatsInRow))
          [] (seq 1 (mainDeckRows config)) in
  if hasUpperDeck config
  then
    foldl (λ allSeats row,
             foldl (λ allSeats seatIndex,
                      let seatId := upperSeatId row seatIndex in
                      if keep seatId then (allSeats ++ [seatId])%list
                      else allSeats)
                   allSeats (seq 0 4))
          mainSeats (seq 1 (upperDeckRows config))
  else mainSeats.

(** [for (let i = 0; i < assignCount; i++)
      newAssignments.set(freeSeats[i], sortedPeople[i].id);] *)
Definition assignPairs (freeSeats : list string) (sortedPeople : list Person)
    (assignCount : nat) (newAssignments : gmap string string)
  : gmap string string :=
  foldl (λ m i,
           match freeSeats !! i, sortedPeople !! i with
           | Some seat, Some p => <[seat := id p]> m
           | _, _ => m
           end)
        newAssignments (seq 0 assignCount).

(** The pieces of [autoAssignPeople], named as in the source. *)
Definition freeSeatsOf (config : BusConfig) : list string :=
  filter (λ seat, seatAssignments config !! seat = None)
         (getAvailableSeats config).

Definition unassignedPeopleOf (config : BusConfig) : list Person :=
  let assignedIds := map snd (map_to_list (seatAssignments config)) in
  filter (λ p, id p ∉ assignedIds) (people config).

Definition sortedPeopleOf `{DateParser} (config : BusConfig) : list Person :=
  JSArray.sort byBirthDate (unassignedPeopleOf config).

Definition autoAssignPeople `{DateParser} (config : BusConfig) : BusConfig :=
  let freeSeats := freeSeatsOf config in
  let sortedPeople := sortedPeopleOf config in
  let assignCount := Nat.min (length sortedPeople) (length freeSeats) in
  set_seatAssignments config
    (assignPairs freeSeats sortedPeople assignCount (seatAssignments config)).

Definition handleUnassignToPeople (config : BusConfig)
    (personId seatId : string) : BusConfig :=
  set_seatAssignments config (delete seatId (seatAssignments config)).

(** The seat-to-seat branch, the same statements in [handleDragEnd] and in
    [onSeatAssignment]:
    [const targetOccupant = newAssignments.get(target);
     newAssignments.set(target, personId);
     newAssignments.delete(fromSeatId);
     if (targetOccupant && targetOccupant !== personId)
       newAssignments.set(fromSeatId, targetOccupant);] *)
Definition moveOrSwap (newAssignments : gmap string string)
    (fromSeatId targetSeatId personId : string) : gmap string string :=
  let targetOccupant := newAssignments !! targetSeatId in
  let m := delete fromSeatId (<[targetSeatId := personId]> newAssignments) in
  match targetOccupant with
  | Some occ =>
      if JS.truthyS occ && bool_decide (occ ≠ personId)
      then <[fromSeatId := occ]> m
      else m
  | None => m
  end.

(** The from-the-list branch, again the same in both handlers:
    [for (const [s, p] of newAssignments.entries())
       if (p === personId) newAssignments.delete(s);
     newAssignments.set(target, personId);] *)
Definition assignFromList (newAssignments : gmap string string)
    (targetSeatId personId : string) : gmap string string :=
  <[targetSeatId := personId]>
    (filter (λ sp, sp.2 ≠ personId) newAssignments).

Definition handleDragEnd (config : BusConfig) (event : DragEndEvent)
  : BusConfig :=
  match over event with
  | None => config
  | Some overId =>
      match active_data event with
      | None => config
      | Some data =>
          if bool_decide (dtype data ≠ "person") then config
          else if bool_decide (overId = "people-drop") then
            match fromSeatId data with
            | Some from =>
                if JS.truthyS from
                then handleUnassignToPeople config (personId data) from
                else config
            | None => config
            end
          else
            let targetSeatId := overId in
            if bool_decide (targetSeatId ∈ emptySpaces config)
               || bool_decide (targetSeatId ∈ tourGuideSeats config)
            then config
            else
              set_seatAssignments config
                (match fromSeatId data with
                 | Some from =>
                     if JS.truthyS from
                     then moveOrSwap (seatAssignments config) from
                            targetSeatId (personId data)
                     else assignFromList (seatAssignments config)
                            targetSeatId (personId data)
                 | None =>
                     assignFromList (seatAssignments config)
                       targetSeatId (personId data)
                 end)
      end
  end.

(** The inline [onSeatAssignment] handler:
    [(seatId, personId: string | null, fromSeatId?: string)]. *)
Definition onSeatAssignment (config : BusConfig) (seatId : string)
    (personId : option string) (fromSeatId : option string) : BusConfig :=
  set_seatAssignments config
    (match personId with
     | Some pid =>
         if JS.truthyS pid then
           match fromSeatId with
           | Some from =>
               if JS.truthyS from
               then moveOrSwap (seatAssignments config) from seatId pid
               else assignFromList (seatAssignments config) seatId pid
           | None => assignFromList (seatAssignments config) seatId pid
           end
         else delete seatId (seatAssignments config)
     | None => delete seatId (seatAssignments config)
     end).

End Configurator.

(** ** PeopleManager.tsx *)

Module People.

(** A parsed record ([header: true]): header name to cell text. *)
Abbreviation Row := (gmap string string).

(** What the host returns while one record is imported:
    [Date.now()] and the text of [Math.random()]. *)
Record Reading := mkReading {
  now : N;
  random : string;
}.

Definition addPerson (people : list Person) (dateNow : N)
    (newPersonName : string) : list Person :=
  if JS.truthyS (JS.trim newPersonName)
  then (people ++
        [mkPerson (JS.String_N dateNow) (JS.trim newPersonName) None None])%list
  else people.

Definition removePerson (people : list Person) (id0 : string) : list Person :=
  filter (λ p, id p ≠ id0) people.

(** [row.name || row.Name || row["Name and Lastname"] || row["Full Name"]
     || row["Full name"]] *)
Definition rawName (row : Row) : option string :=
  JS.or (JS.or (JS.or (JS.or (row !! "name") (row !! "Name"))
                      (row !! "Name and Lastname"))
               (row !! "Full Name"))
        (row !! "Full name").

(** [row.birth || row.Birth || row["Date of Birth"] || row["DOB"]
     || row["Birthdate"] || row["Birth Date"]] *)
Definition rawBirth (row : Row) : option string :=
  JS.or (JS.or (JS.or (JS.or (JS.or (row !! "birth") (row !! "Birth"))
                             (row !! "Date of Birth"))
                      (row !! "DOB"))
               (row !! "Birthdate"))
        (row !! "Birth Date").

(** [if (rawName && String(rawName).trim())] *)
Definition hasUsableName (row : Row) : bool :=
  match rawName row with
  | Some n => JS.truthyS n && JS.truthyS (JS.trim n)
  | None => false
  end.

(** The body of [results.data.forEach]: the person pushed for a record,
    if any. *)
Definition importRow (row : Row) (r : Reading) : option Person :=
  if hasUsableName row then
    Some (mkPerson (JS.String_N (now r) +:+ random r)
            (JS.trim (default "" (rawName row)))
            (if JS.truthy (rawBirth row)
             then JS.trim <$> rawBirth row else None)
            None)
  else None.

Definition importedPeopleOf (data : list (Row * Reading)) : list Person :=
  omap (λ rr, importRow rr.1 rr.2) data.

(** The [complete] callback of [handleFileUpload]: the new roster. *)
Definition handleFileUpload `{DateParser} (people : list Person)
    (data : list (Row * Reading)) : list Person :=
  (people ++ JSArray.sort byBirthDate (importedPeopleOf data))%list.

Definition sortPeopleByBirth `{DateParser} (people : list Person)
  : list Person :=
  JSArray.sort byBirthDate people.

End People.

(** ** The editor as a transition system *)

Module App.

Import Layout Configurator.

(** What a user can do to the editor. *)
Inductive Action :=
  | ClickSeat (seatId : string) (keys : ClickKeys)
  | DragListPerson (index : nat) (overId : option string)
  | DragSeatPerson (seatId : string) (overId : option string)
  | AutoAssign
  | AddPerson (dateNow : N) (newPersonName : string)
  | RemovePerson (id0 : string)
  | ImportFile (data : list (People.Row * People.Reading))
  | SortPeopleByBirth
  | SaveSeatNumber (seatId editValue : string)
  | TourGuideSeatsChange (seats : list string)
  | MainDeckRowsButton (increment : Z)
  | UpperDeckRowsButton (increment : Z)
  | MainDeckRowsInput (parsed : option Z)
  | UpperDeckRowsInput (parsed : option Z)
  | ToggleUpperDeck
  | ToggleLastRowSeats.

(** The draggable of entry [index] of the people list:
    [{ type: 'person', personId: person.id }]. *)
Definition listDragData (config : BusConfig) (index : nat)
  : option DragData :=
  match people config !! index with
  | Some person => Some (mkDragData "person" (id person) None)
  | None => None
  end.

Definition step `{DateParser} (config : BusConfig) (a : Action) : BusConfig :=
  match a with
  | ClickSeat seatId keys =>
      match handleClick config seatId keys with
      | NoRequest => config
      | ToggleEmptySpace s => toggleEmptySpace config s
      | ToggleTourGuideSeat s => onToggleTourGuideSeat config s
      | ToggleDriverSeat _ => config   (* no handler is passed down *)
      end
  | DragListPerson index overId =>
      match listDragData config index with
      | Some data => handleDragEnd config (mkDragEndEvent (Some data) overId)
      | None => config
      end
  | DragSeatPerson seatId overId =>
      match seatDragData config seatId with
      | Some data => handleDragEnd config (mkDragEndEvent (Some data) overId)
      | None => config
      end
  | AutoAssign => autoAssignPeople config
  | AddPerson dateNow newPersonName =>
      set_people config (People.addPerson (people config) dateNow newPersonName)
  | RemovePerson id0 =>
      set_people config (People.removePerson (people config) id0)
  | ImportFile data =>
      set_people config (People.handleFileUpload (people config) data)
  | SortPeopleByBirth =>
      set_people config (People.sortPeopleByBirth (people config))
  | SaveSeatNumber seatId editValue => updateSeatNumber config seatId editValue
  | TourGuideSeatsChange seats => set_tourGuideSeats config seats
  | MainDeckRowsButton increment => updateMainDeckRows config increment
  | UpperDeckRowsButton increment => updateUpperDeckRows config increment
  | MainDeckRowsInput parsed => inputMainDeckRows config parsed
  | UpperDeckRowsInput parsed => inputUpperDeckRows config parsed
  | ToggleUpperDeck => toggleUpperDeck config
  | ToggleLastRowSeats => toggleLastRowSeats config
  end.

Definition run `{DateParser} (config : BusConfig) (actions : list Action)
  : BusConfig :=
  foldl step config actions.

(** The operations on the ledger alone: a drop from the people list, a
    drop of a seat's occupant on another seat, a drop on the people panel,
    and the three uses of the [onSeatAssignment] callback.  A seat-to-seat
    operation carries what the source seat's draggable carries. *)
Inductive LedgerOp :=
  | DropFromList (personId targetSeatId : string)
  | DropFromSeat (fromSeatId targetSeatId : string)
  | DropOnPeoplePanel (fromSeatId : string)
  | CallAssign (seatId personId : string)
  | CallMove (fromSeatId seatId : string)
  | CallUnassign (seatId : string).

Definition ledgerStep (config : BusConfig) (op : LedgerOp) : BusConfig :=
  match op with
  | DropFromList pid target =>
      handleDragEnd config
        (mkDragEndEvent (Some (mkDragData "person" pid None)) (Some target))
  | DropFromSeat from target =>
      match seatDragData config from with
      | Some data =>
          handleDragEnd config (mkDragEndEvent (Some data) (Some target))
      | None => config
      end
  | DropOnPeoplePanel from =>
      match seatDragData config from with
      | Some data =>
          handleDragEnd config
            (mkDragEndEvent (Some data) (Some "people-drop"))
      | None => config
      end
  | CallAssign seatId pid => onSeatAssignment config seatId (Some pid) None
  | CallMove from seatId =>
      match seatDragData config from with
      | Some data =>
          onSeatAssignment config seatId (Some (personId data))
            (fromSeatId data)
      | None => config
      end
  | CallUnassign seatId => onSeatAssignment config seatId None None
  end.

(** The uniqueness invariant of the ledger. *)
Definition unique (ledger : gmap string string) : Prop :=
  ∀ s1 s2 p, ledger !! s1 = Some p → ledger !! s2 = Some p → s1 = s2.

(** Every seated person is on the roster under a non-empty id, roster
    ids are non-empty, and no empty space holds anybody. *)
Definition consistent (config : BusConfig) : Prop :=
  (∀ s, s ∈ emptySpaces config → seatAssignments config !! s = None) ∧
  (∀ s p, seatAssignments config !! s = Some p →
          p ≠ "" ∧ ∃ person, person ∈ people config ∧ id person = p) ∧
  (∀ person, person ∈ people config → id person ≠ "").

(** What a draggable may carry for the invariant to survive a drop. *)
Definition payloadFromState (config : BusConfig) (data : DragData) : Prop :=
  personId data ≠ "" ∧
  (∃ p, p ∈ people config ∧ id p = personId data) ∧
  ∀ from, fromSeatId data = Some from →
          seatAssignments config !! from = Some (personId data).

Definition removesPerson (a : Action) : bool :=
  match a with RemovePerson _ => true | _ => false end.

(** An action that takes nobody off the roster who holds a seat: a
    removal names an id that the ledger does not hold. *)
Definition keepsSeatedPeople (config : BusConfig) (a : Action) : Prop :=
  match a with
  | RemovePerson id0 => id0 ∉ map snd (map_to_list (seatAssignments config))
  | _ => True
  end.

(** A sequence of actions in which nobody is removed from the roster
    while seated. *)
Fixpoint noSeatedRemoval `{DateParser} (config : BusConfig)
    (actions : list Action) : Prop :=
  match actions with
  | [] => True
  | a :: rest =>
      keepsSeatedPeople config a ∧ noSeatedRemoval (step config a) rest
  end.

(** Add a person, seat her on 1A, remove her from the roster, click 1A. *)
Definition ghostOccupantActions : list Action :=
  [AddPerson 1758828000000 "Ann";
   DragListPerson 0 (Some "1A");
   RemovePerson "1758828000000";
   ClickSeat "1A" Plain].

End App.

(** ** A date parser for the examples *)

Module IsoDate.

Definition digitVal (c : ascii) : option Z :=
  if JS.isDigit c then Some (Z.of_nat (nat_of_ascii c) - 48)%Z else None.

Fixpoint number (acc : Z) (cs : list ascii) : option Z :=
  match cs with
  | [] => Some acc
  | c :: cs' =>
      match digitVal c with
      | Some d => number (10 * acc + d)%Z cs'
      | None => None
      end
  end.

(** Days from 1970-01-01 to the civil date [y-m-d] (proleptic Gregorian). *)
Definition daysFromCivil (y m d : Z) : Z :=
  let y' := (if m <=? 2 then y - 1 else y)%Z in
  let era := (y' / 400)%Z in
  let yoe := (y' - era * 400)%Z in
  let mp := ((m + 9) mod 12)%Z in
  let doy := ((153 * mp + 2) / 5 + d - 1)%Z in
  let doe := (yoe * 365 + yoe / 4 - yoe / 100 + doy)%Z in
  (era * 146097 + doe - 719468)%Z.

(** [new Date("YYYY-MM-DD").getTime()]: UTC midnight in milliseconds;
    any other text is taken as unparseable. *)
Definition parse (s : string) : option Z :=
  match list_ascii_of_string s with
  | [y1; y2; y3; y4; dash1; m1; m2; dash2; d1; d2] =>
      if bool_decide (dash1 = "-"%char) && bool_decide (dash2 = "-"%char)
      then
        match number 0 [y1; y2; y3; y4], number 0 [m1; m2],
              number 0 [d1; d2] with
        | Some y, Some m, Some d =>
            if ((1 <=? m) && (m <=? 12) && (1 <=? d) && (d <=? 31))%Z
            then Some (daysFromCivil y m d * 86400000)%Z
            else None
        | _, _, _ => None
        end
      else None
  | _ => None
  end.

Definition parser : DateParser := parse.

End IsoDate.

(** ** The algorithm in the words of the specification *)

Module Spec.

Import Layout.

(** A slot of a row (4.1); an empty space is a [Seat] slot whose id is in
    EmptySpaces. *)
Inductive Slot :=
  | Seat (seatId : string)
  | EntranceGap
  | TableGap.

Inductive Deck := Main | Upper.

(** Columns of a row that keep their seat when the row is an entrance
    row: all but C and D. *)
Definition keptColumns (width : nat) : list nat :=
  filter (λ i, i ≠ 2 ∧ i ≠ 3) (seq 0 width).

(** [resolveRow(deck, rowNumber)]. *)
Definition resolveRow (config : BusConfig) (deck : Deck) (row : nat)
  : list Slot :=
  match deck with
  | Main =>
      let width :=
        if bool_decide (row = mainDeckRows config)
        then lastRowSeats_nat (lastRowSeats config) else 4 in
      if bool_decide (row ∈ tableRows config) then [TableGap; TableGap]
      else if bool_decide (row ∈ entranceRows config)
      then ((λ i, Seat (mainSeatId row i)) <$> keptColumns width)
           ++ [EntranceGap]
      else (λ i, Seat (mainSeatId row i)) <$> seq 0 width
  | Upper =>
      if bool_decide (row ∈ upperDeckEntranceRows config)
      then ((λ i, Seat (upperSeatId row i)) <$> keptColumns 4)
           ++ [EntranceGap]
      else (λ i, Seat (upperSeatId row i)) <$> seq 0 4
  end.

(** Main deck first, rows ascending, then the upper deck if present. *)
Definition slotSequence (config : BusConfig) : list Slot :=
  (seq 1 (mainDeckRows config) ≫= resolveRow config Main) ++
  (if hasUpperDeck config
   then seq 1 (upperDeckRows config) ≫= resolveRow config Upper
   else []).

Definition slotSeat (s : Slot) : option string :=
  match s with Seat sid => Some sid | _ => None end.

(** The seat slots of a row and of the whole sequence, in order. *)
Definition rowSeats (config : BusConfig) (deck : Deck) (row : nat)
  : list string :=
  omap slotSeat (resolveRow config deck row).

Definition seatSequence (config : BusConfig) : list string :=
  omap slotSeat (slotSequence config).

(** The columns of a row that hold a seat slot, and the id of a column. *)
Definition rowColumns (config : BusConfig) (deck : Deck) (row : nat)
  : list nat :=
  match deck with
  | Main =>
      let width :=
        if bool_decide (row = mainDeckRows config)
        then lastRowSeats_nat (lastRowSeats config) else 4 in
      if bool_decide (row ∈ tableRows config) then []
      else if bool_decide (row ∈ entranceRows config)
      then keptColumns width
      else seq 0 width
  | Upper =>
      if bool_decide (row ∈ upperDeckEntranceRows config)
      then keptColumns 4
      else seq 0 4
  end.

Definition seatIdAt (deck : Deck) (row i : nat) : string :=
  match deck with
  | Main => mainSeatId row i
  | Upper => upperSeatId row i
  end.

(** One slot of [computeNumbers]: a seat in EmptySpaces is skipped, any
    other seat increments the counter and records it; gaps do nothing. *)
Definition numberSlot (empty : gset string) (st : nat * gmap string string)
    (s : Slot) : nat * gmap string string :=
  match s with
  | Seat sid =>
      if bool_decide (sid ∈ empty) then st
      else (S st.1, <[sid := JS.String_ (S st.1)]> st.2)
  | _ => st
  end.

(** [computeNumbers(DeckConfig, EmptySpaces)], counter starting at 0. *)
Definition computeNumbers (config : BusConfig) : nat * gmap string string :=
  foldl (numberSlot (emptySpaces config)) (0, ∅) (slotSequence config).

(** The number of seats among [seats] that are not empty spaces. *)
Definition realSeats (empty : gset string) (seats : list string) : nat :=
  length (filter (λ sid, sid ∉ empty) seats).

(** A text that starts with a decimal digit. *)
Definition digitHead (s : string) : Prop :=
  match s with
  | EmptyString => False
  | String c _ => JS.isDigit c = true
  end.

(** Tour-guide and driver seats. *)
Definition reserved (config : BusConfig) (seatId : string) : Prop :=
  seatId ∈ tourGuideSeats config ∨ seatId ∈ driverSeats config.

(** An id that names a seat for the drop handler: not the empty string
    (which reads as no source seat) and not the id of the people panel. *)
Definition seatKey (s : string) : Prop := s ≠ "" ∧ s ≠ "people-drop".

(** The configurations of the worked examples. *)
Definition exampleEmpty1C : BusConfig :=
  mkBusConfig 2 3 false Seats4 [] [] [] [] [] {["1C"]} ∅ [] ∅.

Definition exampleEntrance1 : BusConfig :=
  mkBusConfig 2 3 false Seats4 [1] [] [] [] [] ∅ ∅ [] ∅.

(** A free-text override on seat 1A. *)
Definition exampleOverrideText : BusConfig :=
  mkBusConfig 2 3 false Seats4 [] [] [] [] [] ∅ {["1A" := "VIP"]} [] ∅.

(** Two people seated side by side. *)
Definition exampleTwoSeated : BusConfig :=
  mkBusConfig 12 3 false Seats5 [] [] [] ["3A"] [] {["2A"]} ∅
    [mkPerson "p1" "Ann" None None; mkPerson "p2" "Bob" None None]
    {["1A" := "p1"; "1B" := "p2"]}.

(** The recognised header spellings of the name, in the order in which
    the import looks at them. *)
Definition nameAliases : list string :=
  ["name"; "Name"; "Name and Lastname"; "Full Name"; "Full name"].

(** Name resolution in the words of the specification: a record resolves
    a name when the cell under one of the recognised spellings has
    something left after trimming. *)
Definition resolvesName (row : gmap string string) : bool :=
  existsb (λ a, match row !! a with
                | Some v => JS.truthyS (JS.trim v)
                | None => false
                end)
          nameAliases.

(** Name resolution as the import does it: the first spelling whose cell
    is present and not empty is the only one looked at, and it yields a
    name when something is left of that cell after trimming. *)
Fixpoint firstNonEmpty (aliases : list string) (row : gmap string string)
  : option string :=
  match aliases with
  | [] => None
  | a :: rest =>
      match row !! a with
      | Some v => if JS.truthyS v then Some v else firstNonEmpty rest row
      | None => firstNonEmpty rest row
      end
  end.

Definition usableName (row : gmap string string) : option string :=
  match firstNonEmpty nameAliases row with
  | Some n => if JS.truthyS (JS.trim n) then Some (JS.trim n) else None
  | None => None
  end.

(** No cell under a recognised spelling is blank, that is, white space
    only and yet not empty. *)
Definition noBlankCell (row : gmap string string) : Prop :=
  ∀ a v, a ∈ nameAliases → row !! a = Some v → v ≠ "" → JS.trim v ≠ "".

(** A record with a blank cell under the first spelling and a name under
    the second. *)
Definition exampleBlankThenName : gmap string string :=
  {["name" := "  "; "Name" := "Bob"]}.

(** A value of an [||] chain when it is truthy. *)
Definition pick (v : option string) : option string :=
  if JS.truthy v then v else None.

(** The roster of the auto-assign examples and a deck with exactly two
    free seats, 1A and 1B. *)
Definition born2000 : Person :=
  mkPerson "p2000" "Ann" (Some "2000-01-01") None.

Definition born1990 : Person :=
  mkPerson "p1990" "Bob" (Some "1990-01-01") None.

Definition noBirth : Person := mkPerson "pnone" "Cy" None None.

Definition noBirth2 : Person := mkPerson "pnone2" "Di" None None.

(** The time a person's birth date stands for, when there is one that
    the host can read. *)
Definition birthTime `{DateParser} (p : Person) : option Z :=
  match birthDate p with
  | Some d => if JS.truthyS d then getTime d else None
  | None => None
  end.

Definition twoFreeSeats (roster : list Person) : BusConfig :=
  mkBusConfig 1 3 false Seats4 [] [] [] [] [] {["1C"; "1D"]} ∅ roster ∅.

(** Three records: a plain one, one without a name, one whose name sits
    under another spelling. *)
Definition exampleRecords : list (gmap string string) :=
  [ {["name" := "Ann"; "birth" := "2000-01-01"]};
    {["name" := "  "; "birth" := "1990-01-01"]};
    {["Full Name" := " Bob "]} ].

End Spec.

(** ** BusConfigurator.tsx: totals and export names *)

Module ConfiguratorAux.

(** [getTotalSeats]: JavaScript numbers, so the difference can go below
    zero. *)
Definition getTotalSeats (config : BusConfig) : Z :=
  let regularRows := (Z.of_nat (mainDeckRows config) - 1)%Z in
  let regularSeats := (regularRows * 4)%Z in
  let lastRowSeats := Z.of_nat (lastRowSeats_nat (lastRowSeats config)) in
  let upperDeckSeats :=
    if hasUpperDeck config
    then (Z.of_nat (upperDeckRows config) * 4)%Z else 0%Z in
  (regularSeats + lastRowSeats + upperDeckSeats
   - Z.of_nat (size (emptySpaces config)))%Z.

Definition isLower (c : ascii) : bool :=
  let n := nat_of_ascii c in (97 <=? n)%nat && (n <=? 122)%nat.

Definition isUpper (c : ascii) : bool :=
  let n := nat_of_ascii c in (65 <=? n)%nat && (n <=? 90)%nat.

(** [toLowerCase] on one ASCII character. *)
Definition toLowerChar (c : ascii) : ascii :=
  if isUpper c then ascii_of_nat (nat_of_ascii c + 32) else c.

(** One character under [.replace(/[^a-z0-9]/gi, '_').toLowerCase()]. *)
Definition sanitizeChar (c : ascii) : ascii :=
  if isLower c || isUpper c || JS.isDigit c then toLowerChar c
  else "_"%char.

Fixpoint sanitize (s : string) : string :=
  match s with
  | EmptyString => EmptyString
  | String c s' => String (sanitizeChar c) (sanitize s')
  end.

(** [exportFileDefaultName] of [downloadConfiguration], on ASCII text. *)
Definition exportFileDefaultName (busName : string) : string :=
  if JS.truthyS busName then sanitize busName +:+ "_bus_config.json"
  else "bus_config.json".

(** [fileName] of [printConfiguration]. *)
Definition pdfFileName (busName : string) : string :=
  if JS.truthyS busName then sanitize busName +:+ "_layout.pdf"
  else "bus_layout.pdf".

End ConfiguratorAux.

(** ** TourGuideConfig.tsx *)

Module TourGuide.

(** A text split into what precedes its last character and that
    character. *)
Fixpoint unsnoc (s : string) : option (string * ascii) :=
  match s with
  | EmptyString => None
  | String c s' =>
      match unsnoc s' with
      | None => Some (EmptyString, c)
      | Some (init, last) => Some (String c init, last)
      end
  end.

(** [seatId.match(/^(\d+)([A-Z])$/)]: the two groups. *)
Definition matchSeatId (seatId : string) : option (string * ascii) :=
  match unsnoc seatId with
  | Some (digits, letter) =>
      if JS.test_digits digits && ConfiguratorAux.isUpper letter
      then Some (digits, letter) else None
  | None => None
  end.

(** [parseInt] on a text of decimal digits.  The value is the exact
    integer: this is what the host computes up to 2^53, beyond which the
    host rounds to the nearest number it has. *)
Fixpoint parseDigits (acc : Z) (s : string) : Z :=
  match s with
  | EmptyString => acc
  | String c s' =>
      parseDigits (10 * acc + (Z.of_nat (nat_of_ascii c) - 48))%Z s'
  end.

(** [getSeatDisplayLabel], with exact integer arithmetic: the host's
    result as long as the row and the computed number stay within
    2^53. *)
Definition getSeatDisplayLabel (seatId : string) : string :=
  match matchSeatId seatId with
  | None => seatId
  | Some (digits, letter) =>
      let row := parseDigits 0 digits in
      let seatIndex := (Z.of_nat (nat_of_ascii letter) - 65)%Z in
      let numericSeat := ((row - 1) * 4 + seatIndex + 1)%Z in
      pretty numericSeat
  end.

(** [addPresetSeats]: the list handed to [onTourGuideSeatsChange]. *)
Definition addPresetSeats (preset : string) : list string :=
  if bool_decide (preset = "front-4") then ["1A"; "1B"; "1C"; "1D"]
  else if bool_decide (preset = "seats-1-2") then ["1A"; "1B"]
  else if bool_decide (preset = "seats-3-4") then ["1C"; "1D"]
  else [].

Definition removeTourGuideSeat (tourGuideSeats : list string)
    (seatId : string) : list string :=
  filter (λ seat, seat ≠ seatId) tourGuideSeats.

End TourGuide.

(** ** Notions used to state further properties *)

Module Notions.

Import Layout.

(** A deck laid out without entrance rows and without table rows. *)
Definition plainGeometry (config : BusConfig) : Prop :=
  entranceRows config = [] ∧ tableRows config = [] ∧
  upperDeckEntranceRows config = [].

(** The number of seats of a main-deck row. *)
Definition rowWidth (config : BusConfig) (row : nat) : nat :=
  if bool_decide (row = mainDeckRows config)
  then lastRowSeats_nat (lastRowSeats config) else 4.

(** Every seat id of the decks, entrance and table rows not looked at:
    main deck first, rows ascending, columns left to right. *)
Definition allSeatIds (config : BusConfig) : list string :=
  (seq 1 (mainDeckRows config) ≫=
     (λ row, mainSeatId row <$> seq 0 (rowWidth config row))) ++
  (if hasUpperDeck config
   then seq 1 (upperDeckRows config) ≫=
          (λ row, upperSeatId row <$> seq 0 4)
   else []).

(** The configuration with its entrance and table rows forgotten. *)
Definition withoutGaps (c : BusConfig) : BusConfig :=
  mkBusConfig (mainDeckRows c) (upperDeckRows c) (hasUpperDeck c)
    (lastRowSeats c) [] [] [] (tourGuideSeats c) (driverSeats c)
    (emptySpaces c) (seatNumbers c) (people c) (seatAssignments c).

(** The person ids the ledger holds. *)
Definition assignedIds (ledger : gmap string string) : list string :=
  map snd (map_to_list ledger).

(** A character of an export file name. *)
Definition fileNameChar (c : ascii) : bool :=
  ConfiguratorAux.isLower c || JS.isDigit c || bool_decide (c = "_"%char).

Fixpoint allChars (P : ascii → bool) (s : string) : bool :=
  match s with
  | EmptyString => true
  | String c s' => P c && allChars P s'
  end.

(** A roster on which every person has a birth date the host reads. *)
Definition allDated `{DateParser} (people : list Person) : Prop :=
  ∀ p, p ∈ people → is_Some (Spec.birthTime p).

(** The time used as sorting key. *)
Definition birthKey `{DateParser} (p : Person) : Z :=
  default 0%Z (Spec.birthTime p).

(** Two configurations with the same main deck and the same empty
    spaces. *)
Definition sameMainDeck (c c' : BusConfig) : Prop :=
  mainDeckRows c = mainDeckRows c' ∧ lastRowSeats c = lastRowSeats c' ∧
  entranceRows c = entranceRows c' ∧ tableRows c = tableRows c' ∧
  emptySpaces c = emptySpaces c'.

(** The actions that put new people on the roster. *)
Definition addsPeople (a : App.Action) : bool :=
  match a with
  | App.AddPerson _ _ | App.ImportFile _ => true
  | _ => false
  end.

(** Examples. *)
Definition examplePlain : BusConfig :=
  mkBusConfig 3 2 true Seats5 [] [] [] ["1A"] [] {["2B"]} ∅
    [mkPerson "p1" "Ann" (Some "2001-05-05") None;
     mkPerson "p2" "Bob" (Some "1999-03-03") None;
     mkPerson "p3" "Cy" (Some "2001-05-05") None]
    {["1B" := "p1"]}.

Definition exampleNoEmpty : BusConfig :=
  mkBusConfig 3 2 false Seats5 [] [] [] [] [] ∅ ∅ [] ∅.

End Notions.

(** ** The older variant of the layout's numbering *)

Module LegacyLayout.

Import Layout.

(** [seatLetter === 'B' || seatLetter === 'C'] *)
Definition isBorC (letter : ascii) : bool :=
  bool_decide (letter = "B"%char) || bool_decide (letter = "C"%char).

(** The main-deck loop body of the older [seatNumberMap]: an entrance
    row first adds 2 to the counter, then skips B and C. *)
Definition numberMainRow (config : BusConfig) (st : NumState) (row : nat)
  : NumState :=
  let isLastRow := bool_decide (row = mainDeckRows config) in
  let isEntranceRow := bool_decide (row ∈ entranceRows config) in
  let seatsInRow :=
    if isLastRow then lastRowSeats_nat (lastRowSeats config) else 4 in
  let st := if isEntranceRow then (st.1 + 2, st.2) else st in
  foldl (λ st seatIndex,
           let letter := seatLetter seatIndex in
           let sid := mainSeatId row seatIndex in
           if isEntranceRow && isBorC letter then st
           else numberSeat config sid st)
        st (seq 0 seatsInRow).

Definition numberUpperRow (config : BusConfig) (st : NumState) (row : nat)
  : NumState :=
  foldl (λ st seatIndex, numberSeat config (upperSeatId row seatIndex) st)
        st (seq 0 4).

Definition seatNumberMap (config : BusConfig) : gmap string string :=
  let st := foldl (numberMainRow config) (0, ∅)
                  (seq 1 (mainDeckRows config)) in
  (if hasUpperDeck config
   then foldl (numberUpperRow config) st (seq 1 (upperDeckRows config))
   else st).2.

End LegacyLayout.

(** * Properties *)

(** Membership of a literal in a literal list that does not have it. *)
Ltac list_absurd H :=
  apply list_elem_of_In in H; vm_compute in H;
  repeat (destruct H as [H|H]; [discriminate H|]); exact H.

(** ** Seat identifiers *)

Section seat_ids.

Import Layout.

Lemma append_last_inj (s1 s2 : string) (c1 c2 : ascii) :
  s1 +:+ String c1 "" = s2 +:+ String c2 "" → s1 = s2 ∧ c1 = c2.
Proof.
  revert s2. induction s1 as [|a s1 IH]; intros [|b s2]; simpl; intros H.
  - by injection H as ->.
  - injection H as -> H. by destruct s2.
  - injection H as -> H. by destruct s1.
  - injection H as -> H. destruct (IH _ H) as [-> ->]. done.
Qed.

Lemma pretty_N_char_digit (x : N) : JS.isDigit (pretty_N_char x) = true.
Proof. unfold pretty_N_char. by repeat case_match. Qed.

Lemma pretty_N_go_digitHead (x : N) (s : string) :
  (0 < x)%N ∨ Spec.digitHead s → Spec.digitHead (pretty_N_go x s).
Proof.
  revert s. induction (N.lt_wf_0 x) as [x _ IH]; intros s Hs.
  assert (x = 0 ∨ 0 < x)%N as [->|Hx] by lia.
  - rewrite pretty_N_go_0. destruct Hs as [?|?]; [lia|done].
  - rewrite pretty_N_go_step by done. apply IH.
    + by apply N.div_lt.
    + right. simpl. apply pretty_N_char_digit.
Qed.

Lemma pretty_N_digitHead (x : N) : Spec.digitHead (pretty x).
Proof.
  unfold pretty, pretty_N. case_decide as Hx; [done|].
  apply pretty_N_go_digitHead. left. lia.
Qed.

Lemma String_digitHead (n : nat) : Spec.digitHead (JS.String_ n).
Proof. apply pretty_N_digitHead. Qed.

Lemma String_N_nonempty (n : N) : JS.String_N n ≠ "".
Proof.
  pose proof (pretty_N_digitHead n) as H. unfold JS.String_N.
  by destruct (pretty n).
Qed.

Lemma String_inj (n m : nat) : JS.String_ n = JS.String_ m → n = m.
Proof. apply pretty_nat_inj. Qed.

Lemma seatLetter_inj (i j : nat) :
  i < 5 → j < 5 → seatLetter i = seatLetter j → i = j.
Proof.
  intros Hi Hj.
  assert (Hc : ∀ k, k < 5 → k = 0 ∨ k = 1 ∨ k = 2 ∨ k = 3 ∨ k = 4) by lia.
  destruct (Hc i Hi) as [->|[->|[->|[->| ->]]]];
    destruct (Hc j Hj) as [->|[->|[->|[->| ->]]]];
    (done || (intros H; by vm_compute in H)).
Qed.

Lemma mainSeatId_inj (r1 r2 i j : nat) :
  i < 5 → j < 5 → mainSeatId r1 i = mainSeatId r2 j → r1 = r2 ∧ i = j.
Proof.
  intros Hi Hj H. apply append_last_inj in H as [Hr Hl].
  split; [by apply String_inj | by apply seatLetter_inj].
Qed.

Lemma upperSeatId_inj (r1 r2 i j : nat) :
  i < 5 → j < 5 → upperSeatId r1 i = upperSeatId r2 j → r1 = r2 ∧ i = j.
Proof.
  unfold upperSeatId. simpl. intros Hi Hj [= H].
  by apply (mainSeatId_inj r1 r2 i j).
Qed.

Lemma mainSeatId_head (r i : nat) : Spec.digitHead (mainSeatId r i).
Proof.
  unfold mainSeatId. pose proof (String_digitHead r) as H.
  by destruct (JS.String_ r).
Qed.

Lemma main_upper_disjoint (r1 r2 i j : nat) :
  mainSeatId r1 i ≠ upperSeatId r2 j.
Proof.
  intros H. pose proof (mainSeatId_head r1 i) as Hd. rewrite H in Hd.
  by vm_compute in Hd.
Qed.

Lemma seatLetter_last (s : string) (i : nat) :
  i < 5 → s +:+ String (seatLetter i) "" ≠ "people-drop".
Proof.
  intros Hi H.
  change "people-drop" with ("people-dro" +:+ String "p"%char "") in H.
  apply append_last_inj in H as [_ H].
  assert (i = 0 ∨ i = 1 ∨ i = 2 ∨ i = 3 ∨ i = 4) as [->|[->|[->|[->| ->]]]]
    by lia; by vm_compute in H.
Qed.

Lemma mainSeatId_seatKey (r i : nat) : i < 5 → Spec.seatKey (mainSeatId r i).
Proof.
  intros Hi. split.
  - pose proof (mainSeatId_head r i) as H. by destruct (mainSeatId r i).
  - by apply seatLetter_last.
Qed.

Lemma upperSeatId_seatKey (r i : nat) : i < 5 → Spec.seatKey (upperSeatId r i).
Proof.
  intros Hi. split; [done|].
  unfold upperSeatId.
  change ("U" +:+ JS.String_ r +:+ String (seatLetter i) "")
    with (("U" +:+ JS.String_ r) +:+ String (seatLetter i) "").
  by apply seatLetter_last.
Qed.

End seat_ids.

(** ** Numbering: the loops against the slot sequence *)

Section numbering.

Import Layout Spec.

Lemma foldl_bind {A B C} (f : A → B → A) (g : C → list B) (l : list C) a :
  foldl f a (l ≫= g) = foldl (λ a x, foldl f a (g x)) a l.
Proof.
  revert a. induction l as [|x l IH]; intros a; [done|].
  change ((x :: l) ≫= g) with (g x ++ (l ≫= g)).
  by rewrite foldl_app, IH.
Qed.

Lemma foldl_ext_in {A B} (f g : A → B → A) (l : list B) a :
  (∀ a x, x ∈ l → f a x = g a x) → foldl f a l = foldl g a l.
Proof.
  revert a. induction l as [|x l IH]; intros a H; [done|]. simpl.
  rewrite H by left. apply IH. intros; apply H. by right.
Qed.

Lemma keptColumns_4 : keptColumns 4 = [0; 1].
Proof. reflexivity. Qed.

Lemma keptColumns_5 : keptColumns 5 = [0; 1; 4].
Proof. reflexivity. Qed.

Lemma isCorD_seatLetter (i : nat) :
  i < 5 → isCorD (seatLetter i) = bool_decide (i = 2 ∨ i = 3).
Proof.
  intros Hi.
  assert (i = 0 ∨ i = 1 ∨ i = 2 ∨ i = 3 ∨ i = 4) as [->|[->|[->|[->| ->]]]]
    by lia; by vm_compute.
Qed.

Lemma numberSeat_numberSlot (config : BusConfig) sid st :
  numberSeat config sid st = numberSlot (emptySpaces config) st (Seat sid).
Proof. done. Qed.

(** One row of the main-deck loop is a pass over the row's slots. *)
Lemma numberMainRow_resolveRow (config : BusConfig) st row :
  numberMainRow config st row =
  foldl (numberSlot (emptySpaces config)) st (resolveRow config Main row).
Proof.
  unfold numberMainRow, resolveRow.
  destruct (bool_decide (row ∈ tableRows config)); [done|].
  destruct (bool_decide (row ∈ entranceRows config));
    destruct (bool_decide (row = mainDeckRows config));
    destruct (lastRowSeats config); done.
Qed.

Lemma numberUpperRow_resolveRow (config : BusConfig) st row :
  numberUpperRow config st row =
  foldl (numberSlot (emptySpaces config)) st (resolveRow config Upper row).
Proof.
  unfold numberUpperRow, resolveRow.
  destruct (bool_decide (row ∈ upperDeckEntranceRows config)); done.
Qed.

(** The loops compute what the specification's single pass computes. *)
Lemma seatNumberState_computeNumbers (config : BusConfig) :
  seatNumberState config = computeNumbers config.
Proof.
  unfold seatNumberState, computeNumbers, slotSequence.
  rewrite foldl_app, foldl_bind.
  rewrite (foldl_ext_in (numberMainRow config) _ _ _
             (λ a x _, numberMainRow_resolveRow config a x)).
  destruct (hasUpperDeck config); [|done].
  rewrite foldl_bind.
  apply foldl_ext_in. intros. apply numberUpperRow_resolveRow.
Qed.

(** Gaps do nothing: only the seat slots matter. *)
Lemma numberSlot_seats (E : gset string) st (slots : list Slot) :
  foldl (numberSlot E) st slots =
  foldl (numberSlot E) st (Seat <$> omap slotSeat slots).
Proof.
  revert st. induction slots as [|[sid| |] slots IH]; intros st; simpl; auto.
Qed.

Lemma realSeats_cons_in (E : gset string) sid seats :
  sid ∈ E → realSeats E (sid :: seats) = realSeats E seats.
Proof. intros H. unfold realSeats. by rewrite filter_cons_False by auto. Qed.

Lemma realSeats_cons_notin (E : gset string) sid seats :
  sid ∉ E → realSeats E (sid :: seats) = S (realSeats E seats).
Proof. intros H. unfold realSeats. by rewrite filter_cons_True. Qed.

(** The counter ends at the number of real seats passed. *)
Lemma numberSeats_counter (E : gset string) seats c m :
  (foldl (numberSlot E) (c, m) (Seat <$> seats)).1 = c + realSeats E seats.
Proof.
  revert c m. induction seats as [|sid seats IH]; intros c m; simpl.
  - unfold realSeats. simpl. lia.
  - case_bool_decide as HE.
    + rewrite IH, realSeats_cons_in by done. done.
    + rewrite IH, realSeats_cons_notin by done. simpl. lia.
Qed.

(** A seat that is skipped or not passed keeps what the map had. *)
Lemma numberSeats_lookup_other (E : gset string) seats c m sid :
  sid ∈ E ∨ sid ∉ seats →
  (foldl (numberSlot E) (c, m) (Seat <$> seats)).2 !! sid = m !! sid.
Proof.
  revert c m. induction seats as [|x seats IH]; intros c m H; simpl; [done|].
  case_bool_decide as HE.
  - apply IH. destruct H as [?|H]; [by left|right].
    intros ?. apply H. by right.
  - rewrite IH.
    + simpl. apply lookup_insert_ne. intros ->.
      destruct H as [?|H]; [done|]. apply H. by left.
    + destruct H as [?|H]; [by left|right]. intros ?. apply H. by right.
Qed.

(** The seat at position [i] receives one more than the number of real
    seats before it. *)
Lemma numberSeats_lookup (E : gset string) seats c m i sid :
  NoDup seats → seats !! i = Some sid → sid ∉ E →
  (foldl (numberSlot E) (c, m) (Seat <$> seats)).2 !! sid =
  Some (JS.String_ (c + realSeats E (take i seats) + 1)).
Proof.
  revert c m i. induction seats as [|x seats IH]; intros c m i Hnd Hi HE;
    [done|].
  apply NoDup_cons in Hnd as [Hx Hnd].
  destruct i as [|i]; simpl in Hi.
  - injection Hi as ->. simpl. rewrite bool_decide_eq_false_2 by done.
    rewrite numberSeats_lookup_other by (by right). simpl.
    rewrite lookup_insert_eq. unfold realSeats. simpl. do 2 f_equal. lia.
  - simpl. case_bool_decide as HxE.
    + rewrite (IH _ _ i) by done. by rewrite realSeats_cons_in.
    + rewrite (IH _ _ i) by done. rewrite realSeats_cons_notin by done.
      simpl. do 2 f_equal. lia.
Qed.

End numbering.

(** ** The seat sequence has no repeated id *)

Section seat_sequence.

Import Layout Spec.

Lemma omap_bind_list {A B C} (f : B → option C) (g : A → list B)
    (l : list A) :
  omap f (l ≫= g) = l ≫= (λ x, omap f (g x)).
Proof.
  induction l as [|x l IH]; [done|].
  change ((x :: l) ≫= g) with (g x ++ (l ≫= g)).
  rewrite omap_app, IH. done.
Qed.

Lemma concat_map_bind {A B} (g : A → list B) (l : list A) :
  concat (map g l) = l ≫= g.
Proof. induction l as [|x l IH]; [done|]. simpl. by rewrite IH. Qed.

Lemma rowSeats_columns (config : BusConfig) deck row :
  rowSeats config deck row = seatIdAt deck row <$> rowColumns config deck row.
Proof.
  unfold rowSeats, resolveRow, rowColumns.
  destruct deck.
  - destruct (bool_decide (row ∈ tableRows config)); [done|].
    destruct (bool_decide (row ∈ entranceRows config));
      destruct (bool_decide (row = mainDeckRows config));
      destruct (lastRowSeats config); done.
  - destruct (bool_decide (row ∈ upperDeckEntranceRows config)); done.
Qed.

Lemma keptColumns_elem (w i : nat) :
  i ∈ keptColumns w ↔ i < w ∧ i ≠ 2 ∧ i ≠ 3.
Proof.
  unfold keptColumns. rewrite list_elem_of_filter, elem_of_seq. lia.
Qed.

Lemma rowColumns_lt (config : BusConfig) deck row i :
  i ∈ rowColumns config deck row → i < 5.
Proof.
  unfold rowColumns. destruct deck.
  - destruct (bool_decide (row ∈ tableRows config)); [by intros ?%elem_of_nil|].
    destruct (bool_decide (row ∈ entranceRows config));
      destruct (bool_decide (row = mainDeckRows config));
      destruct (lastRowSeats config); cbv beta zeta iota delta [lastRowSeats_nat];
      rewrite ?keptColumns_elem, ?elem_of_seq; lia.
  - destruct (bool_decide (row ∈ upperDeckEntranceRows config));
      rewrite ?keptColumns_elem, ?elem_of_seq; lia.
Qed.

Lemma rowColumns_NoDup (config : BusConfig) deck row :
  NoDup (rowColumns config deck row).
Proof.
  unfold rowColumns, keptColumns. destruct deck.
  - destruct (bool_decide (row ∈ tableRows config)); [constructor|].
    destruct (bool_decide (row ∈ entranceRows config));
      try apply NoDup_filter; apply NoDup_seq.
  - destruct (bool_decide (row ∈ upperDeckEntranceRows config));
      try apply NoDup_filter; apply NoDup_seq.
Qed.

(** In an entrance row of the main deck, columns C and D hold no seat. *)
Lemma rowColumns_entrance (config : BusConfig) row i :
  row ∈ entranceRows config → i ∈ rowColumns config Main row →
  i ≠ 2 ∧ i ≠ 3.
Proof.
  intros Hr. unfold rowColumns.
  destruct (bool_decide (row ∈ tableRows config)); [by intros ?%elem_of_nil|].
  rewrite bool_decide_eq_true_2 by done. rewrite keptColumns_elem. tauto.
Qed.

Lemma seatIdAt_inj d1 d2 r1 r2 i j :
  i < 5 → j < 5 → seatIdAt d1 r1 i = seatIdAt d2 r2 j →
  d1 = d2 ∧ r1 = r2 ∧ i = j.
Proof.
  intros Hi Hj. destruct d1, d2; simpl; intros H.
  - by destruct (mainSeatId_inj _ _ _ _ Hi Hj H).
  - by destruct (main_upper_disjoint _ _ _ _ H).
  - symmetry in H. by destruct (main_upper_disjoint _ _ _ _ H).
  - by destruct (upperSeatId_inj _ _ _ _ Hi Hj H).
Qed.

Lemma rowSeats_elem (config : BusConfig) deck row sid :
  sid ∈ rowSeats config deck row ↔
  ∃ i, i ∈ rowColumns config deck row ∧ sid = seatIdAt deck row i.
Proof.
  rewrite rowSeats_columns, list_elem_of_fmap.
  split; intros (i & H1 & H2); exists i; done.
Qed.

Lemma rowSeats_NoDup (config : BusConfig) deck row :
  NoDup (rowSeats config deck row).
Proof.
  rewrite rowSeats_columns. apply NoDup_fmap_2_strong.
  - intros i j Hi%rowColumns_lt Hj%rowColumns_lt H.
    by destruct (seatIdAt_inj _ _ _ _ _ _ Hi Hj H) as (_ & _ & ?).
  - apply rowColumns_NoDup.
Qed.

Lemma deck_seats_NoDup (config : BusConfig) deck (rows : list nat) :
  NoDup rows → NoDup (rows ≫= rowSeats config deck).
Proof.
  intros Hnd. apply NoDup_bind; [|intros; apply rowSeats_NoDup|done].
  intros r1 r2 sid _ _ [i [Hi ->]]%rowSeats_elem [j [Hj H]]%rowSeats_elem.
  apply rowColumns_lt in Hi, Hj.
  by destruct (seatIdAt_inj _ _ _ _ _ _ Hi Hj H) as (_ & ? & _).
Qed.

Lemma seatSequence_decks (config : BusConfig) :
  seatSequence config =
  (seq 1 (mainDeckRows config) ≫= rowSeats config Main) ++
  (if hasUpperDeck config
   then seq 1 (upperDeckRows config) ≫= rowSeats config Upper else []).
Proof.
  unfold seatSequence, slotSequence. rewrite omap_app, omap_bind_list.
  destruct (hasUpperDeck config); [|done]. by rewrite omap_bind_list.
Qed.

Lemma seatSequence_elem (config : BusConfig) sid :
  sid ∈ seatSequence config ↔
  ∃ deck (row i : nat),
    (deck = Main ∧ (1 ≤ row ≤ mainDeckRows config)%nat ∨
     deck = Upper ∧ hasUpperDeck config = true ∧
       (1 ≤ row ≤ upperDeckRows config)%nat) ∧
    i ∈ rowColumns config deck row ∧ sid = seatIdAt deck row i.
Proof.
  rewrite seatSequence_decks, elem_of_app. split.
  - intros [H|H].
    + apply list_elem_of_bind in H as (row & [i [? ?]]%rowSeats_elem & Hr).
      apply elem_of_seq in Hr. exists Main, row, i. split; [left|]; auto with lia.
    + destruct (hasUpperDeck config) eqn:Hu; [|by apply elem_of_nil in H].
      apply list_elem_of_bind in H as (row & [i [? ?]]%rowSeats_elem & Hr).
      apply elem_of_seq in Hr. exists Upper, row, i.
      split; [right|]; auto with lia.
  - intros (deck & row & i & [[-> Hr]|(-> & Hu & Hr)] & Hi & ->).
    + left. apply list_elem_of_bind. exists row. split.
      * apply rowSeats_elem. eauto.
      * apply elem_of_seq. lia.
    + right. rewrite Hu. apply list_elem_of_bind. exists row. split.
      * apply rowSeats_elem. eauto.
      * apply elem_of_seq. lia.
Qed.

Lemma seatSequence_NoDup (config : BusConfig) : NoDup (seatSequence config).
Proof.
  rewrite seatSequence_decks. apply NoDup_app. split; [|split].
  - apply deck_seats_NoDup, NoDup_seq.
  - intros sid (r1 & [i [Hi ->]]%rowSeats_elem & _)%list_elem_of_bind H.
    destruct (hasUpperDeck config); [|by apply elem_of_nil in H].
    apply list_elem_of_bind in H as (r2 & [j [Hj H]]%rowSeats_elem & _).
    by destruct (main_upper_disjoint _ _ _ _ H).
  - destruct (hasUpperDeck config); [|constructor].
    apply deck_seats_NoDup, NoDup_seq.
Qed.

(** Every id of the sequence names a seat for the drop handler. *)
Lemma seatSequence_seatKey (config : BusConfig) sid :
  sid ∈ seatSequence config → seatKey sid.
Proof.
  intros (deck & row & i & _ & Hi%rowColumns_lt & ->)%seatSequence_elem.
  destruct deck; [by apply mainSeatId_seatKey | by apply upperSeatId_seatKey].
Qed.

(** The map is the sequence numbered from zero. *)
Lemma seatNumberMap_seats (config : BusConfig) :
  seatNumberState config =
  foldl (numberSlot (emptySpaces config)) (0, ∅)
        (Seat <$> seatSequence config).
Proof.
  rewrite seatNumberState_computeNumbers. unfold computeNumbers.
  apply numberSlot_seats.
Qed.

Lemma seatNumberMap_position (config : BusConfig) i sid :
  seatSequence config !! i = Some sid → sid ∉ emptySpaces config →
  seatNumberMap config !! sid =
  Some (JS.String_
          (realSeats (emptySpaces config) (take i (seatSequence config)) + 1)).
Proof.
  intros Hi HE. unfold seatNumberMap. rewrite seatNumberMap_seats.
  by rewrite (numberSeats_lookup _ _ 0 ∅ i sid (seatSequence_NoDup config)).
Qed.

Lemma seatNumberMap_none (config : BusConfig) sid :
  sid ∈ emptySpaces config ∨ sid ∉ seatSequence config →
  seatNumberMap config !! sid = None.
Proof.
  intros H. unfold seatNumberMap. rewrite seatNumberMap_seats.
  by rewrite numberSeats_lookup_other.
Qed.

Lemma seatNumberMap_is_Some (config : BusConfig) sid :
  is_Some (seatNumberMap config !! sid) ↔
  sid ∈ seatSequence config ∧ sid ∉ emptySpaces config.
Proof.
  split.
  - intros Hs. destruct (decide (sid ∈ emptySpaces config)) as [HE|HE].
    { rewrite seatNumberMap_none in Hs by auto. by destruct Hs. }
    destruct (decide (sid ∈ seatSequence config)) as [?|Hn]; [done|].
    rewrite seatNumberMap_none in Hs by auto. by destruct Hs.
  - intros [[i Hi]%list_elem_of_lookup HE].
    rewrite (seatNumberMap_position _ i) by done. eauto.
Qed.

End seat_sequence.

(** ** Rendering mounts the seats that numbering passes *)

Section rendering.

Import Layout Spec.

Lemma bind_ext_list {A B} (f g : A → list B) (l : list A) :
  (∀ x, f x = g x) → l ≫= f = l ≫= g.
Proof.
  intros H. induction l as [|x l IH]; [done|].
  change ((x :: l) ≫= f) with (f x ++ (l ≫= f)).
  change ((x :: l) ≫= g) with (g x ++ (l ≫= g)).
  by rewrite H, IH.
Qed.

Lemma renderMainRow_seats (config : BusConfig) row :
  omap seatIdOf (renderMainRow config row) = rowSeats config Main row.
Proof.
  unfold renderMainRow, rowSeats, resolveRow.
  destruct (bool_decide (row ∈ tableRows config)); [done|].
  destruct (bool_decide (row ∈ entranceRows config));
    destruct (bool_decide (row = mainDeckRows config));
    destruct (lastRowSeats config); done.
Qed.

Lemma renderUpperRow_seats (config : BusConfig) row :
  omap seatIdOf (renderUpperRow config row) = rowSeats config Upper row.
Proof.
  unfold renderUpperRow, rowSeats, resolveRow.
  destruct (bool_decide (row ∈ upperDeckEntranceRows config)); done.
Qed.

Lemma renderedSeats_seatSequence (config : BusConfig) :
  renderedSeats config = seatSequence config.
Proof.
  rewrite seatSequence_decks.
  unfold renderedSeats, renderedElements, renderMainDeck, renderUpperDeck.
  rewrite omap_app, concat_map_bind, omap_bind_list.
  rewrite (bind_ext_list _ _ _ (renderMainRow_seats config)).
  f_equal. destruct (hasUpperDeck config); simpl; [|done].
  rewrite concat_map_bind, omap_bind_list.
  apply bind_ext_list, renderUpperRow_seats.
Qed.

(** The label handed to a mounted seat is its entry in the map. *)
Lemma renderedElements_label (config : BusConfig) sid label :
  SeatEl sid label ∈ renderedElements config →
  label = default "" (seatNumberMap config !! sid).
Proof.
  unfold renderedElements, renderMainDeck, renderUpperDeck.
  rewrite elem_of_app, !concat_map_bind. intros [H|H].
  - apply list_elem_of_bind in H as (row & H & _).
    unfold renderMainRow in H.
    destruct (bool_decide (row ∈ tableRows config)).
    { apply elem_of_cons in H as [?|H]; [done|].
      apply elem_of_cons in H as [?|H]; [done|]. by apply elem_of_nil in H. }
    apply list_elem_of_fmap in H as (i & H & _).
    repeat case_match; by simplify_eq.
  - destruct (hasUpperDeck config); simpl in H; [|by apply elem_of_nil in H].
    rewrite concat_map_bind in H.
    apply list_elem_of_bind in H as (row & H & _).
    unfold renderUpperRow in H.
    apply list_elem_of_fmap in H as (i & H & _).
    repeat case_match; by simplify_eq.
Qed.

End rendering.

(** ** Claims about the numbering *)

(** C2. The numbering is one pass over the slot sequence (main deck rows
    ascending, then the upper deck when present) with one counter that
    starts at 0: a seat in EmptySpaces is skipped and gets no number, any
    other seat gets the counter after its increment, that is, one more
    than the number of real seats before it; the counter ends at the
    number of real seats.  For 2 main-deck rows, a last row of 4, no
    upper deck and EmptySpaces = {1C} the map is exactly
    1A=1, 1B=2, 1D=3, 2A=4, 2B=5, 2C=6, 2D=7. *)
Theorem C2_seat_numbering :
  (∀ config, Layout.seatNumberState config = Spec.computeNumbers config) ∧
  (∀ config,
     (Layout.seatNumberState config).1 =
     Spec.realSeats (emptySpaces config) (Spec.seatSequence config)) ∧
  (∀ config (i : nat) (sid : string),
     Spec.seatSequence config !! i = Some sid →
     Layout.seatNumberMap config !! sid =
     if bool_decide (sid ∈ emptySpaces config) then None
     else Some (JS.String_
                  (Spec.realSeats (emptySpaces config)
                     (take i (Spec.seatSequence config)) + 1))) ∧
  Layout.seatNumberMap Spec.exampleEmpty1C =
    {[ "1A" := "1"; "1B" := "2"; "1D" := "3";
       "2A" := "4"; "2B" := "5"; "2C" := "6"; "2D" := "7" ]}.
Proof.
  split; [apply seatNumberState_computeNumbers|].
  split; [|split].
  - intros config. rewrite seatNumberMap_seats.
    by rewrite numberSeats_counter.
  - intros config i sid Hi. case_bool_decide as HE.
    + apply seatNumberMap_none. by left.
    + by apply seatNumberMap_position.
  - by vm_compute.
Qed.

Lemma C2_seat_numbering_witness :
  Layout.seatNumberMap Spec.exampleEmpty1C !! "1D" =
  if bool_decide ("1D" ∈ emptySpaces Spec.exampleEmpty1C) then None
  else Some (JS.String_
               (Spec.realSeats (emptySpaces Spec.exampleEmpty1C)
                  (take 3 (Spec.seatSequence Spec.exampleEmpty1C)) + 1)).
Proof.
  apply (proj1 (proj2 (proj2 C2_seat_numbering)) Spec.exampleEmpty1C 3 "1D").
  reflexivity.
Defined.

(** C5. In an entrance row the numbering passes the seats of every column
    but C and D, and the counter grows by the real seats among those
    only; rendering puts the entrance block at C and nothing at D; the
    seats at C and D get no number; the seats that rendering
    mounts are, in order, the seats that numbering passes, so a seat has
    a number exactly when it is mounted and is not an empty space, and a
    mounted seat is handed that number as its label.  With row 1 an
    entrance row of width 4, only 1A and 1B of row 1 get numbers (1 and
    2) and row 2 goes on from 3. *)
Theorem C5_entrance_rows :
  (∀ config st row,
     row ∈ entranceRows config → row ∉ tableRows config →
     let width := if bool_decide (row = mainDeckRows config)
                  then lastRowSeats_nat (lastRowSeats config) else 4 in
     let kept := Layout.mainSeatId row <$> Spec.keptColumns width in
     Layout.numberMainRow config st row =
       foldl (λ st sid, Layout.numberSeat config sid st) st kept ∧
     (Layout.numberMainRow config st row).1 =
       st.1 + Spec.realSeats (emptySpaces config) kept ∧
     Layout.renderMainRow config row !! 2 = Some Layout.EntranceEl ∧
     Layout.renderMainRow config row !! 3 = Some Layout.NullEl) ∧
  (∀ config row,
     row ∈ entranceRows config →
     Layout.seatNumberMap config !! Layout.mainSeatId row 2 = None ∧
     Layout.seatNumberMap config !! Layout.mainSeatId row 3 = None) ∧
  (∀ config,
     Layout.renderedSeats config = Spec.seatSequence config ∧
     (∀ sid, is_Some (Layout.seatNumberMap config !! sid) ↔
             sid ∈ Layout.renderedSeats config ∧ sid ∉ emptySpaces config) ∧
     (∀ sid label,
        Layout.SeatEl sid label ∈ Layout.renderedElements config →
        label = default "" (Layout.seatNumberMap config !! sid))) ∧
  Layout.seatNumberMap Spec.exampleEntrance1 =
    {[ "1A" := "1"; "1B" := "2";
       "2A" := "3"; "2B" := "4"; "2C" := "5"; "2D" := "6" ]}.
Proof.
  split; [|split; [|split]].
  - intros config st row Hr Ht width kept.
    assert (Layout.numberMainRow config st row =
            foldl (λ st sid, Layout.numberSeat config sid st) st kept) as ->.
    { rewrite numberMainRow_resolveRow. unfold Spec.resolveRow.
      rewrite bool_decide_eq_false_2, bool_decide_eq_true_2 by done.
      rewrite foldl_app. simpl. unfold kept, width.
      generalize (Spec.keptColumns
        (if bool_decide (row = mainDeckRows config)
         then lastRowSeats_nat (lastRowSeats config) else 4)).
      intros l. revert st. induction l as [|i l IH]; intros st; [done|].
      simpl. apply IH. }
    split; [done|]. split.
    { destruct st as [c m]. change ((c, m).1) with c.
      rewrite <- (numberSeats_counter (emptySpaces config) kept c m).
      f_equal. generalize kept. clear. intros l. generalize (c, m).
      induction l as [|x l IH]; intros st; [done|]. simpl. apply IH. }
    unfold Layout.renderMainRow.
    rewrite bool_decide_eq_false_2, bool_decide_eq_true_2 by done.
    destruct (bool_decide (row = mainDeckRows config));
      destruct (lastRowSeats config); done.
  - intros config row Hr.
    assert (∀ i, i = 2 ∨ i = 3 →
      Layout.mainSeatId row i ∉ Spec.seatSequence config) as Hno.
    { intros i Hi (deck & row' & j & _ & Hj & Heq)%seatSequence_elem.
      pose proof (rowColumns_lt _ _ _ _ Hj) as Hj5.
      change (Layout.mainSeatId row i) with (Spec.seatIdAt Spec.Main row i)
        in Heq.
      apply seatIdAt_inj in Heq as (<- & <- & <-); [|lia|done].
      destruct (rowColumns_entrance _ _ _ Hr Hj). lia. }
    split; apply seatNumberMap_none; right; apply Hno; auto.
  - intros config. split; [apply renderedSeats_seatSequence|]. split.
    + intros sid. rewrite renderedSeats_seatSequence.
      apply seatNumberMap_is_Some.
    + apply renderedElements_label.
  - by vm_compute.
Qed.

(** The older variant of the layout numbers an entrance row otherwise:
    it sets two numbers aside and skips B and C, so that row 1 gives
    1A=3 and 1D=4. *)
Lemma legacy_entrance_numbering :
  LegacyLayout.seatNumberMap Spec.exampleEntrance1 =
    {[ "1A" := "3"; "1D" := "4";
       "2A" := "5"; "2B" := "6"; "2C" := "7"; "2D" := "8" ]}.
Proof. by vm_compute. Qed.

Lemma C5_entrance_rows_witness :
  Layout.seatNumberMap Spec.exampleEntrance1 !! Layout.mainSeatId 1 2 = None ∧
  Layout.seatNumberMap Spec.exampleEntrance1 !! Layout.mainSeatId 1 3 = None.
Proof.
  apply (proj1 (proj2 C5_entrance_rows) Spec.exampleEntrance1 1).
  vm_compute. left.
Defined.

(** ** The displayed label *)

(** C7, as the code has it.  On a mounted seat a free-text override is
    not displayed: the seat shows its computed number. *)
Lemma C7_free_text_override_not_displayed :
  "1A" ∈ Layout.renderedSeats Spec.exampleOverrideText ∧
  seatNumbers Spec.exampleOverrideText !! "1A" = Some "VIP" ∧
  Layout.seatLabel Spec.exampleOverrideText "1A" = "1" ∧
  Layout.seatLabel Spec.exampleOverrideText "1A" ≠ "VIP".
Proof.
  split; [|split; [|split]].
  - rewrite renderedSeats_seatSequence. apply list_elem_of_In.
    vm_compute. by left.
  - by vm_compute.
  - by vm_compute.
  - by vm_compute.
Qed.

(** C7, amended.  The label of a seat is its override when the override
    is made of one or more digits and nothing else; with no override, or
    with an override that has any other character, it is the computed
    sequential number (the empty text when the seat has none), and a
    mounted seat that is not an empty space has one. *)
Theorem C7_display_label (config : BusConfig) (seatId : string) :
  let computed := default "" (Layout.seatNumberMap config !! seatId) in
  Layout.seatLabel config seatId =
    match seatNumbers config !! seatId with
    | Some override => if JS.test_digits override then override else computed
    | None => computed
    end ∧
  (seatId ∈ Layout.renderedSeats config → seatId ∉ emptySpaces config →
   is_Some (Layout.seatNumberMap config !! seatId)).
Proof.
  intros computed. split.
  - unfold Layout.seatLabel, Layout.displayResolved, Layout.isNumeric.
    destruct (seatNumbers config !! seatId) as [o|]; [|done].
    destruct o as [|c o]; [done|]. simpl.
    by destruct (JS.isDigit c && JS.allDigits o).
  - intros Hr HE. apply seatNumberMap_is_Some.
    by rewrite <- renderedSeats_seatSequence.
Qed.

Lemma C7_display_label_witness :
  is_Some (Layout.seatNumberMap Spec.exampleOverrideText !! "1A").
Proof.
  apply (proj2 (C7_display_label Spec.exampleOverrideText "1A")).
  - rewrite renderedSeats_seatSequence. apply list_elem_of_In.
    vm_compute. by left.
  - vm_compute. intros H. discriminate H.
Defined.

(** ** The drop handler and the assignment callback *)

Section handlers.

Import Layout Configurator Spec.

Lemma truthyS_true (s : string) : s ≠ "" → JS.truthyS s = true.
Proof. intros H. unfold JS.truthyS. by rewrite bool_decide_eq_true_2. Qed.

Lemma truthyS_ne (s : string) : JS.truthyS s = true → s ≠ "".
Proof. unfold JS.truthyS. by intros ?%bool_decide_eq_true. Qed.

(** A drop on a seat that is not blocked rewrites the ledger. *)
Lemma handleDragEnd_seat (config : BusConfig) data target :
  dtype data = "person" → target ≠ "people-drop" →
  target ∉ emptySpaces config → target ∉ tourGuideSeats config →
  seatAssignments (handleDragEnd config (mkDragEndEvent (Some data) (Some target))) =
  match fromSeatId data with
  | Some from =>
      if JS.truthyS from
      then moveOrSwap (seatAssignments config) from target (personId data)
      else assignFromList (seatAssignments config) target (personId data)
  | None => assignFromList (seatAssignments config) target (personId data)
  end.
Proof.
  intros Ht Hp HE HT. unfold handleDragEnd. simpl. rewrite Ht. simpl.
  rewrite (bool_decide_eq_false_2 (target = _)) by done.
  rewrite (bool_decide_eq_false_2 (target ∈ emptySpaces config)) by done.
  rewrite (bool_decide_eq_false_2 (target ∈ tourGuideSeats config)) by done.
  done.
Qed.

Lemma moveOrSwap_swap (L : gmap string string) A B P Q :
  L !! B = Some Q → Q ≠ "" → Q ≠ P →
  moveOrSwap L A B P = <[A := Q]> (<[B := P]> L).
Proof.
  intros HB HQ HQP. unfold moveOrSwap. rewrite HB, truthyS_true by done.
  rewrite bool_decide_eq_true_2 by done. simpl. apply insert_delete_eq.
Qed.

Lemma moveOrSwap_same (L : gmap string string) S P :
  L !! S = Some P → moveOrSwap L S S P = delete S L.
Proof.
  intros HS. unfold moveOrSwap. rewrite HS.
  rewrite (bool_decide_eq_false_2 (P ≠ P)) by auto.
  rewrite andb_false_r. apply delete_insert_eq.
Qed.

(** A drop on an empty space or on a tour-guide seat is turned down. *)
Lemma handleDragEnd_blocked (config : BusConfig) event target :
  over event = Some target → target ≠ "people-drop" →
  target ∈ emptySpaces config ∨ target ∈ tourGuideSeats config →
  handleDragEnd config event = config.
Proof.
  intros Ho Hp Hb. unfold handleDragEnd. rewrite Ho.
  destruct (active_data event) as [data|]; [|done].
  case_bool_decide; [done|].
  rewrite (bool_decide_eq_false_2 (target = _)) by done.
  destruct Hb as [Hb|Hb].
  - by rewrite (bool_decide_eq_true_2 (target ∈ emptySpaces config)).
  - rewrite (bool_decide_eq_true_2 (target ∈ tourGuideSeats config)) by done.
    by rewrite orb_true_r.
Qed.

(** No handler writes the list of driver seats. *)
Lemma handleDragEnd_driverSeats (config : BusConfig) event :
  driverSeats (handleDragEnd config event) = driverSeats config.
Proof.
  unfold handleDragEnd.
  destruct (over event) as [overId|]; [|done].
  destruct (active_data event) as [data|]; [|done].
  case_bool_decide; [done|]. case_bool_decide.
  - destruct (fromSeatId data) as [from|]; [|done].
    by destruct (JS.truthyS from).
  - by destruct (_ || _).
Qed.

Lemma step_driverSeats `{DateParser} (config : BusConfig) (a : App.Action) :
  driverSeats (App.step config a) = driverSeats config.
Proof.
  destruct a; try reflexivity; simpl.
  - by destruct (handleClick config seatId keys).
  - destruct (App.listDragData config index); [|done].
    apply handleDragEnd_driverSeats.
  - destruct (seatDragData config seatId); [|done].
    apply handleDragEnd_driverSeats.
Qed.

Lemma run_driverSeats `{DateParser} (config : BusConfig)
    (actions : list App.Action) :
  driverSeats (App.run config actions) = driverSeats config.
Proof.
  unfold App.run. revert config.
  induction actions as [|a actions IH]; intros config; [done|]. simpl.
  by rewrite IH, step_driverSeats.
Qed.

End handlers.

(** C3. Seat A holds P, a different seat B holds a different person Q,
    and B is neither an empty space nor a reserved seat.  Dropping P,
    dragged from A, on B - through the drop handler or through the
    assignment callback - leaves A holding Q and B holding P, and every
    other seat as it was.  (A and B name seats and P and Q name people:
    the ids are not the empty text and B is not the people panel.) *)
Theorem C3_move_or_swap (config : BusConfig) (A B P Q : string) :
  seatAssignments config !! A = Some P →
  seatAssignments config !! B = Some Q →
  A ≠ B → P ≠ Q →
  B ∉ emptySpaces config → ¬ Spec.reserved config B →
  Spec.seatKey A → Spec.seatKey B → P ≠ "" → Q ≠ "" →
  ∀ after : gmap string string,
    after = seatAssignments
              (Configurator.handleDragEnd config
                 (Configurator.mkDragEndEvent
                    (Some (Layout.mkDragData "person" P (Some A))) (Some B)))
    ∨ after = seatAssignments
                (Configurator.onSeatAssignment config B (Some P) (Some A)) →
    after !! A = Some Q ∧ after !! B = Some P ∧
    ∀ s, s ≠ A → s ≠ B → after !! s = seatAssignments config !! s.
Proof.
  intros HA HB HAB HPQ HE Hres [HA0 _] [_ HBp] HP HQ after Hafter.
  assert (after = <[A := Q]> (<[B := P]> (seatAssignments config))) as ->.
  { destruct Hafter as [-> | ->].
    - rewrite handleDragEnd_seat; simpl; try done.
      + rewrite truthyS_true by done. by apply moveOrSwap_swap.
      + intros ?. apply Hres. by left.
    - unfold Configurator.onSeatAssignment. simpl.
      rewrite !truthyS_true by done. by apply moveOrSwap_swap. }
  split; [apply lookup_insert_eq|]. split.
  - rewrite lookup_insert_ne by done. apply lookup_insert_eq.
  - intros s HsA HsB. by rewrite !lookup_insert_ne.
Qed.

Lemma C3_move_or_swap_witness :
  let after :=
    seatAssignments
      (Configurator.handleDragEnd Spec.exampleTwoSeated
         (Configurator.mkDragEndEvent
            (Some (Layout.mkDragData "person" "p1" (Some "1A")))
            (Some "1B"))) in
  after !! "1A" = Some "p2" ∧ after !! "1B" = Some "p1" ∧
  ∀ s, s ≠ "1A" → s ≠ "1B" →
       after !! s = seatAssignments Spec.exampleTwoSeated !! s.
Proof.
  apply (C3_move_or_swap Spec.exampleTwoSeated "1A" "1B" "p1" "p2");
    try (vm_compute; done).
  - intros [H|H]; list_absurd H.
  - left. reflexivity.
Defined.

(** C10. Seat S holds P and S is neither an empty space nor a reserved
    seat.  Dropping P, dragged from S, on S itself removes the entry of S
    and changes nothing else: the ledger is not what it was, and P, who
    sat nowhere else, is left unassigned. *)
Theorem C10_drop_on_own_seat (config : BusConfig) (S P : string) :
  seatAssignments config !! S = Some P →
  S ∉ emptySpaces config → ¬ Spec.reserved config S →
  Spec.seatKey S → P ≠ "" →
  ∀ after : gmap string string,
    after = seatAssignments
              (Configurator.handleDragEnd config
                 (Configurator.mkDragEndEvent
                    (Some (Layout.mkDragData "person" P (Some S))) (Some S)))
    ∨ after = seatAssignments
                (Configurator.onSeatAssignment config S (Some P) (Some S)) →
    after = delete S (seatAssignments config) ∧
    after !! S = None ∧
    after ≠ seatAssignments config ∧
    (App.unique (seatAssignments config) → ∀ s, after !! s ≠ Some P).
Proof.
  intros HS HE Hres [HS0 HSp] HP after Hafter.
  assert (after = delete S (seatAssignments config)) as ->.
  { destruct Hafter as [-> | ->].
    - rewrite handleDragEnd_seat; simpl; try done.
      + rewrite truthyS_true by done. by apply moveOrSwap_same.
      + intros ?. apply Hres. by left.
    - unfold Configurator.onSeatAssignment. simpl.
      rewrite !truthyS_true by done. by apply moveOrSwap_same. }
  split; [done|]. split; [apply lookup_delete_eq|]. split.
  { intros Heq. apply (f_equal (λ m, m !! S)) in Heq. simpl in Heq.
    by rewrite lookup_delete_eq, HS in Heq. }
  intros Hu s Hs. destruct (decide (s = S)) as [->|Hne].
  - by rewrite lookup_delete_eq in Hs.
  - rewrite lookup_delete_ne in Hs by done. by apply Hne, (Hu s S P).
Qed.

Lemma C10_drop_on_own_seat_witness :
  let after :=
    seatAssignments
      (Configurator.handleDragEnd Spec.exampleTwoSeated
         (Configurator.mkDragEndEvent
            (Some (Layout.mkDragData "person" "p1" (Some "1A")))
            (Some "1A"))) in
  after = delete "1A" (seatAssignments Spec.exampleTwoSeated) ∧
  after !! "1A" = None ∧
  after ≠ seatAssignments Spec.exampleTwoSeated ∧
  (App.unique (seatAssignments Spec.exampleTwoSeated) →
   ∀ s, after !! s ≠ Some "p1").
Proof.
  apply (C10_drop_on_own_seat Spec.exampleTwoSeated "1A" "p1");
    try (vm_compute; done).
  - intros [H|H]; list_absurd H.
  - left. reflexivity.
Defined.

(** C4. In every state a drop whose target seat is in EmptySpaces or is
    a tour-guide seat changes nothing: the configuration after it, ledger
    included, is the one before it.  In every state reached from the
    initial one by user actions the list of driver seats is empty - no
    handler writes it - so the same holds there of every drop on an empty
    space or a reserved (tour-guide or driver) seat.  The handler is a
    total function of the configuration and the event, so nothing is
    thrown. *)
Theorem C4_blocked_target `{DateParser} :
  (∀ config event target,
     Configurator.over event = Some target → target ≠ "people-drop" →
     target ∈ emptySpaces config ∨ target ∈ tourGuideSeats config →
     Configurator.handleDragEnd config event = config ∧
     seatAssignments (Configurator.handleDragEnd config event) =
       seatAssignments config) ∧
  (∀ actions,
     let config := App.run Configurator.initialConfig actions in
     driverSeats config = [] ∧
     ∀ event target,
       Configurator.over event = Some target → target ≠ "people-drop" →
       target ∈ emptySpaces config ∨ Spec.reserved config target →
       Configurator.handleDragEnd config event = config ∧
       seatAssignments (Configurator.handleDragEnd config event) =
         seatAssignments config).
Proof.
  assert (∀ config event target,
            Configurator.over event = Some target → target ≠ "people-drop" →
            target ∈ emptySpaces config ∨ target ∈ tourGuideSeats config →
            Configurator.handleDragEnd config event = config ∧
            seatAssignments (Configurator.handleDragEnd config event) =
              seatAssignments config) as Hgeneral.
  { intros config event target Hover Hp Hblocked.
    by rewrite (handleDragEnd_blocked config event target). }
  split; [exact Hgeneral|].
  intros actions config.
  assert (driverSeats config = []) as Hd by apply run_driverSeats.
  split; [done|]. intros event target Hover Hp Hblocked.
  apply (Hgeneral config event target); [done..|].
  destruct Hblocked as [?|[?|Hdriver]]; [by left|by right|].
  rewrite Hd in Hdriver. by apply elem_of_nil in Hdriver.
Qed.

Lemma C4_blocked_target_witness :
  let config :=
    App.run (H := IsoDate.parser) Configurator.initialConfig
      [App.AddPerson 1758828000000 "Ann"; App.ClickSeat "1A" Layout.Ctrl] in
  let event :=
    Configurator.mkDragEndEvent
      (Some (Layout.mkDragData "person" "1758828000000" None)) (Some "1A") in
  Configurator.handleDragEnd config event = config ∧
  seatAssignments (Configurator.handleDragEnd config event) =
    seatAssignments config.
Proof.
  apply (proj2 (proj2 (C4_blocked_target (H := IsoDate.parser))
                  [App.AddPerson 1758828000000 "Ann";
                   App.ClickSeat "1A" Layout.Ctrl]) _ "1A").
  - reflexivity.
  - discriminate.
  - right. left. apply list_elem_of_In. vm_compute. by left.
Defined.

(** ** The uniqueness invariant *)

Section uniqueness.

Import Layout Configurator App.

Lemma unique_delete (L : gmap string string) s :
  unique L → unique (delete s L).
Proof.
  intros Hu s1 s2 p H1 H2.
  apply lookup_delete_Some in H1 as [_ H1].
  apply lookup_delete_Some in H2 as [_ H2]. by apply (Hu s1 s2 p).
Qed.

Lemma assignFromList_lookup (L : gmap string string) target pid s :
  assignFromList L target pid !! s =
  if decide (target = s) then Some pid
  else match L !! s with
       | Some p => if decide (p = pid) then None else Some p
       | None => None
       end.
Proof.
  unfold assignFromList. rewrite lookup_insert. case_decide as Hs; [done|].
  destruct (L !! s) as [p|] eqn:HL.
  - case_decide as Hp.
    + apply map_lookup_filter_None. right. intros x Hx. simpl.
      rewrite HL in Hx. injection Hx as <-. auto.
    + apply map_lookup_filter_Some. done.
  - apply map_lookup_filter_None. by left.
Qed.

Lemma unique_assignFromList (L : gmap string string) target pid :
  unique L → unique (assignFromList L target pid).
Proof.
  intros Hu s1 s2 p. rewrite !assignFromList_lookup.
  destruct (decide (target = s1)) as [<-|H1], (decide (target = s2)) as [<-|H2];
    try done.
  - intros [= <-]. destruct (L !! s2) as [q|]; [|done].
    case_decide; [done|]. by intros [= ->].
  - destruct (L !! s1) as [q|]; [|done].
    case_decide; [done|]. by intros [= ->] [= ->].
  - destruct (L !! s1) as [q1|] eqn:E1; [|done].
    destruct (L !! s2) as [q2|] eqn:E2; [|by case_decide].
    repeat case_decide; try done. intros [= ->] [= ->]. by apply (Hu s1 s2 p).
Qed.

(** Two seats exchanged, or one vacated for another, keep the invariant. *)
Lemma unique_rearranged (L L' : gmap string string) from target p :
  unique L → L !! from = Some p → target ≠ from →
  L' !! target = Some p →
  (L' !! from = None ∨ L' !! from = L !! target) →
  (∀ s, s ≠ target → s ≠ from → L' !! s = L !! s) →
  unique L'.
Proof.
  intros Hu Hfrom Hne Ht Hf Hother s1 s2 x H1 H2.
  destruct (decide (s1 = target)) as [->|N1], (decide (s2 = target)) as [->|N2];
    try done.
  - rewrite Ht in H1. injection H1 as <-.
    destruct (decide (s2 = from)) as [->|N3].
    + destruct Hf as [Hf|Hf]; rewrite Hf in H2; [done|].
      by destruct (Hne (Hu _ _ _ H2 Hfrom)).
    + rewrite Hother in H2 by done. by destruct (N3 (Hu _ _ _ H2 Hfrom)).
  - rewrite Ht in H2. injection H2 as <-.
    destruct (decide (s1 = from)) as [->|N3].
    + destruct Hf as [Hf|Hf]; rewrite Hf in H1; [done|].
      by destruct (Hne (Hu _ _ _ H1 Hfrom)).
    + rewrite Hother in H1 by done. by destruct (N3 (Hu _ _ _ H1 Hfrom)).
  - destruct (decide (s1 = from)) as [->|F1], (decide (s2 = from)) as [->|F2];
      try done.
    + destruct Hf as [Hf|Hf]; rewrite Hf in H1; [done|].
      rewrite Hother in H2 by done. by destruct (N2 (Hu _ _ _ H2 H1)).
    + destruct Hf as [Hf|Hf]; rewrite Hf in H2; [done|].
      rewrite Hother in H1 by done. by destruct (N1 (Hu _ _ _ H1 H2)).
    + rewrite Hother in H1, H2 by done. by apply (Hu s1 s2 x).
Qed.

Lemma unique_moveOrSwap (L : gmap string string) from target pid :
  unique L → L !! from = Some pid → unique (moveOrSwap L from target pid).
Proof.
  intros Hu Hfrom. destruct (decide (target = from)) as [->|Hne].
  { rewrite moveOrSwap_same by done. by apply unique_delete. }
  apply (unique_rearranged L _ from target pid); try done.
  - unfold moveOrSwap.
    destruct (L !! target) as [occ|];
      [destruct (JS.truthyS occ && bool_decide (occ ≠ pid))|].
    + rewrite lookup_insert_ne by done.
      rewrite lookup_delete_ne by done. apply lookup_insert_eq.
    + rewrite lookup_delete_ne by done. apply lookup_insert_eq.
    + rewrite lookup_delete_ne by done. apply lookup_insert_eq.
  - unfold moveOrSwap.
    destruct (L !! target) as [occ|];
      [destruct (JS.truthyS occ && bool_decide (occ ≠ pid))|].
    + right. apply lookup_insert_eq.
    + left. apply lookup_delete_eq.
    + left. apply lookup_delete_eq.
  - intros s Hs1 Hs2. unfold moveOrSwap.
    destruct (L !! target) as [occ|];
      [destruct (JS.truthyS occ && bool_decide (occ ≠ pid))|].
    + rewrite lookup_insert_ne by done.
      rewrite lookup_delete_ne by done. by rewrite lookup_insert_ne.
    + rewrite lookup_delete_ne by done. by rewrite lookup_insert_ne.
    + rewrite lookup_delete_ne by done. by rewrite lookup_insert_ne.
Qed.

(** What the draggable of a seat carries is the seat and its occupant. *)
Lemma seatDragData_Some (config : BusConfig) seatId data :
  seatDragData config seatId = Some data →
  dtype data = "person" ∧ fromSeatId data = Some seatId ∧
  seatAssignments config !! seatId = Some (personId data) ∧
  personId data ≠ "" ∧
  ∃ p, p ∈ people config ∧ id p = personId data.
Proof.
  unfold seatDragData, assignedPerson.
  destruct (seatAssignments config !! seatId) as [pid|]; [|done].
  destruct (JS.truthyS pid) eqn:Hpid; [|done].
  destruct (List.find _ _) as [p|] eqn:Hfind; [|done].
  intros [= <-]. simpl. apply find_some in Hfind as [Hin Heq].
  apply bool_decide_eq_true in Heq. subst pid.
  repeat split; try done.
  - by apply truthyS_ne.
  - exists p. split; [by apply list_elem_of_In | done].
Qed.

(** The drop handler keeps the invariant when a seat-sourced payload
    names the occupant of its seat. *)
Lemma unique_handleDragEnd (config : BusConfig) event :
  unique (seatAssignments config) →
  (∀ data from, active_data event = Some data →
     fromSeatId data = Some from →
     seatAssignments config !! from = Some (personId data)) →
  unique (seatAssignments (handleDragEnd config event)).
Proof.
  intros Hu Hdata. unfold handleDragEnd.
  destruct (over event) as [overId|]; [|done].
  destruct (active_data event) as [data|]; [|done].
  case_bool_decide; [done|]. case_bool_decide.
  { destruct (fromSeatId data) as [from|]; [|done].
    destruct (JS.truthyS from); [|done]. simpl. by apply unique_delete. }
  destruct (_ || _); [done|]. simpl.
  destruct (fromSeatId data) as [from|] eqn:Hfrom.
  - destruct (JS.truthyS from).
    + apply unique_moveOrSwap; [done|]. by apply Hdata.
    + by apply unique_assignFromList.
  - by apply unique_assignFromList.
Qed.

Lemma unique_onSeatAssignment (config : BusConfig) seatId pid from :
  unique (seatAssignments config) →
  (∀ p f, pid = Some p → from = Some f →
     seatAssignments config !! f = Some p) →
  unique (seatAssignments (onSeatAssignment config seatId pid from)).
Proof.
  intros Hu Hdata. unfold onSeatAssignment. simpl.
  destruct pid as [p|]; [|by apply unique_delete].
  destruct (JS.truthyS p); [|by apply unique_delete].
  destruct from as [f|]; [|by apply unique_assignFromList].
  destruct (JS.truthyS f); [|by apply unique_assignFromList].
  apply unique_moveOrSwap; [done|]. by apply Hdata.
Qed.

Lemma unique_ledgerStep (config : BusConfig) op :
  unique (seatAssignments config) →
  unique (seatAssignments (ledgerStep config op)).
Proof.
  intros Hu. destruct op as [pid t|from t|from|s pid|from s|s];
    cbn [ledgerStep].
  - apply unique_handleDragEnd; [done|]. by intros data f [= <-] ?.
  - destruct (seatDragData config from) as [data|] eqn:Hd; [|done].
    apply seatDragData_Some in Hd as (_ & Hf & HL & _).
    apply unique_handleDragEnd; [done|].
    intros d f [= <-] Hf'. rewrite Hf in Hf'. by injection Hf' as <-.
  - destruct (seatDragData config from) as [data|] eqn:Hd; [|done].
    apply seatDragData_Some in Hd as (_ & Hf & HL & _).
    apply unique_handleDragEnd; [done|].
    intros d f [= <-] Hf'. rewrite Hf in Hf'. by injection Hf' as <-.
  - by apply unique_onSeatAssignment.
  - destruct (seatDragData config from) as [data|] eqn:Hd; [|done].
    apply seatDragData_Some in Hd as (_ & Hf & HL & _).
    apply unique_onSeatAssignment; [done|].
    intros p f [= <-] Hf'. rewrite Hf in Hf'. by injection Hf' as <-.
  - by apply unique_onSeatAssignment.
Qed.

Lemma unique_empty : unique ∅.
Proof. intros s1 s2 p H. by rewrite lookup_empty in H. Qed.

End uniqueness.

(** C1. Start from any ledger in which each person holds at most one
    seat and apply any sequence of ledger operations - a drop from the
    people list, a drop of a seat's occupant on a seat, a drop on the
    people panel, the assignment callback used to assign, move or
    unassign.  After every operation of the sequence no two different
    seats hold the same person. *)
Theorem C1_uniqueness (config : BusConfig) (ops : list App.LedgerOp) :
  App.unique (seatAssignments config) →
  ∀ k : nat,
    App.unique (seatAssignments (foldl App.ledgerStep config (take k ops))).
Proof.
  intros Hu k. generalize (take k ops). clear k ops. intros ops.
  revert config Hu. induction ops as [|op ops IH]; intros config Hu; [done|].
  simpl. by apply IH, unique_ledgerStep.
Qed.

Lemma C1_uniqueness_witness :
  App.unique
    (seatAssignments
       (foldl App.ledgerStep Spec.exampleTwoSeated
          (take 2 [App.DropFromSeat "1A" "1B"; App.DropFromList "p2" "4C";
                   App.DropOnPeoplePanel "1B"]))).
Proof.
  apply (C1_uniqueness Spec.exampleTwoSeated).
  intros s1 s2 p.
  change (seatAssignments Spec.exampleTwoSeated)
    with (<["1A" := "p1"]> (<["1B" := "p2"]> (∅ : gmap string string))).
  rewrite !lookup_insert, !lookup_empty.
  repeat case_decide; congruence.
Defined.

(** A payload that does not name the occupant of its source seat is
    outside what the seats' draggables produce; the drop handler does not
    check it, and with such a payload two seats end up with one person. *)
Lemma handleDragEnd_trusts_payload :
  let config :=
    set_seatAssignments Spec.exampleTwoSeated
      {["1A" := "p1"; "1B" := "p2"; "1C" := "p3"]} in
  let after :=
    seatAssignments
      (Configurator.handleDragEnd config
         (Configurator.mkDragEndEvent
            (Some (Layout.mkDragData "person" "p3" (Some "1A")))
            (Some "1B"))) in
  after !! "1B" = Some "p3" ∧ after !! "1C" = Some "p3".
Proof. by vm_compute. Qed.

(** ** Sorting *)

Section sorting.

Context {A : Type} (comparefn : A → A → Z).

Lemma insertItem_Permutation (item : A) (l : list A) :
  JSArray.insertItem comparefn item l ≡ₚ item :: l.
Proof.
  induction l as [|y l IH]; simpl; [done|].
  destruct (comparefn y item <=? 0)%Z; [done|].
  rewrite IH. apply Permutation_swap.
Qed.

Lemma sort_Permutation (l : list A) : JSArray.sort comparefn l ≡ₚ l.
Proof.
  unfold JSArray.sort.
  assert (∀ acc, foldl (λ r item, JSArray.insertItem comparefn item r) acc l
                 ≡ₚ l ++ acc) as H.
  { induction l as [|x l IH]; intros acc; simpl; [done|].
    rewrite IH, insertItem_Permutation. by rewrite Permutation_middle. }
  rewrite <- Permutation_rev, H. by rewrite app_nil_r.
Qed.

Lemma sort_elem (l : list A) (x : A) : x ∈ JSArray.sort comparefn l ↔ x ∈ l.
Proof. by rewrite sort_Permutation. Qed.

Lemma sort_length (l : list A) : length (JSArray.sort comparefn l) = length l.
Proof. by rewrite sort_Permutation. Qed.

End sorting.

(** With a comparator that is the difference of a key, the sort puts the
    keys in ascending order and keeps the input order among equal keys. *)
Section sorting_by_key.

Context {A : Type} (comparefn : A → A → Z) (key : A → Z).

Lemma insertItem_sorted (item : A) (r : list A) :
  (∀ y, y ∈ r → comparefn y item = (key y - key item)%Z) →
  StronglySorted (λ a b, (key b ≤ key a)%Z) r →
  StronglySorted (λ a b, (key b ≤ key a)%Z)
                 (JSArray.insertItem comparefn item r).
Proof.
  induction r as [|y r IH]; intros Hc Hs; simpl.
  { repeat constructor. }
  apply StronglySorted_cons in Hs as [Hy Hs].
  rewrite (Hc y) by left.
  destruct (Z.leb_spec (key y - key item) 0) as [Hle|Hgt].
  - constructor; [by constructor|]. constructor; [lia|].
    eapply Forall_impl; [exact Hy|]. simpl. intros z Hz. lia.
  - constructor.
    + apply IH; [|done]. intros z Hz. apply Hc. by right.
    + rewrite insertItem_Permutation. constructor; [lia|done].
Qed.

Lemma insertItem_filter (item : A) (r : list A) (k : Z) :
  (∀ y, y ∈ r → comparefn y item = (key y - key item)%Z) →
  filter (λ x, key x = k) (JSArray.insertItem comparefn item r) =
  filter (λ x, key x = k) (item :: r).
Proof.
  induction r as [|y r IH]; intros Hc; simpl; [done|].
  rewrite (Hc y) by left.
  destruct (Z.leb_spec (key y - key item) 0) as [Hle|Hgt]; [done|].
  rewrite (filter_cons _ y), IH by (intros z Hz; apply Hc; by right).
  rewrite !(filter_cons _ item), !(filter_cons _ y).
  repeat case_decide; try done. lia.
Qed.

Lemma StronglySorted_rev (R : A → A → Prop) (r : list A) :
  StronglySorted R r → StronglySorted (λ a b, R b a) (rev r).
Proof.
  induction r as [|x r IH]; intros Hs; simpl; [constructor|].
  apply StronglySorted_cons in Hs as [Hx Hs].
  apply StronglySorted_app_2; [|by apply IH|repeat constructor].
  intros x1 x2 Hx1 ->%list_elem_of_singleton.
  apply (proj1 (Forall_forall (R x) r) Hx).
  by apply list_elem_of_In, in_rev, list_elem_of_In.
Qed.

Lemma filter_rev (P : A → Prop) `{∀ x, Decision (P x)} (l : list A) :
  filter P (rev l) = rev (filter P l).
Proof.
  induction l as [|x l IH]; [done|]. simpl.
  rewrite filter_app, IH, !filter_cons, filter_nil.
  destruct (decide (P x)); simpl; by rewrite ?app_nil_r.
Qed.

Lemma sort_by_key (l : list A) :
  (∀ x y, x ∈ l → y ∈ l → comparefn x y = (key x - key y)%Z) →
  StronglySorted (λ a b, (key a ≤ key b)%Z) (JSArray.sort comparefn l) ∧
  ∀ k, filter (λ x, key x = k) (JSArray.sort comparefn l) =
       filter (λ x, key x = k) l.
Proof.
  intros Hc. unfold JSArray.sort.
  assert (∀ l' acc,
            (∀ x, x ∈ l' ++ acc → x ∈ l) →
            StronglySorted (λ a b, (key b ≤ key a)%Z) acc →
            StronglySorted (λ a b, (key b ≤ key a)%Z)
              (foldl (λ r item, JSArray.insertItem comparefn item r) acc l') ∧
            ∀ k, filter (λ x, key x = k)
                   (foldl (λ r item, JSArray.insertItem comparefn item r)
                          acc l') =
                 rev (filter (λ x, key x = k) l') ++
                 filter (λ x, key x = k) acc) as Hfold.
  { induction l' as [|x l' IH]; intros acc Hin Hs; [done|]. simpl.
    assert (∀ y, y ∈ acc → comparefn y x = (key y - key x)%Z) as Hx.
    { intros y Hy. apply Hc; apply Hin.
      - apply elem_of_app. by right.
      - by left. }
    destruct (IH (JSArray.insertItem comparefn x acc)) as [Hs' Hf'].
    - intros z [Hz|Hz]%elem_of_app; apply Hin.
      + right. apply elem_of_app. by left.
      + rewrite insertItem_Permutation in Hz.
        apply elem_of_cons in Hz as [->|Hz]; [by left|].
        apply elem_of_app. by right.
    - by apply insertItem_sorted.
    - split; [done|]. intros k. rewrite Hf', insertItem_filter by done.
      rewrite !(filter_cons _ x). case_decide; [|done].
      simpl. by rewrite <- app_assoc. }
  destruct (Hfold l []) as [Hs Hf]; [|constructor|].
  { intros x. by rewrite app_nil_r. }
  split.
  - by apply StronglySorted_rev in Hs.
  - intros k. rewrite filter_rev, Hf.
    rewrite app_nil_r. apply rev_involutive.
Qed.

End sorting_by_key.

(** ** Empty spaces hold nobody, as long as nobody leaves the roster *)

Section consistency.

Import Layout Configurator App.

Context `{DateParser}.

Lemma consistent_same (c c' : BusConfig) :
  emptySpaces c' = emptySpaces c →
  seatAssignments c' = seatAssignments c →
  people c' = people c →
  consistent c → consistent c'.
Proof. unfold consistent. by intros -> -> ->. Qed.

Lemma consistent_roster (c : BusConfig) (roster : list Person) :
  (∀ p, p ∈ people c → p ∈ roster) →
  (∀ p, p ∈ roster → id p ≠ "") →
  consistent c → consistent (set_people c roster).
Proof.
  intros Hsub Hids (I1 & I2 & I3). split; [done|]. split; [|done].
  intros s p Hs. destruct (I2 s p Hs) as (Hp & person & Hin & Hid).
  split; [done|]. exists person. split; [by apply Hsub | done].
Qed.

Lemma consistent_ledger (c : BusConfig) (L : gmap string string) :
  (∀ s, s ∈ emptySpaces c → L !! s = None) →
  (∀ s p, L !! s = Some p →
     p ≠ "" ∧ ∃ person, person ∈ people c ∧ id person = p) →
  consistent c → consistent (set_seatAssignments c L).
Proof. intros H1 H2 (_ & _ & I3). by split; [|split]. Qed.

Lemma consistent_initial : consistent initialConfig.
Proof.
  split; [|split].
  - intros s Hs. done.
  - intros s p Hs. simpl in Hs. by rewrite lookup_empty in Hs.
  - intros p Hp. by apply elem_of_nil in Hp.
Qed.

(** A seat that shows no occupant has no ledger entry. *)
Lemma assignedPerson_None (config : BusConfig) s :
  consistent config → assignedPerson config s = None →
  seatAssignments config !! s = None.
Proof.
  intros (_ & I2 & _). unfold assignedPerson.
  destruct (seatAssignments config !! s) as [p|] eqn:Hs; [|done].
  destruct (I2 s p Hs) as (Hp & person & Hin & Hid).
  rewrite truthyS_true by done. intros Hfind.
  apply list_elem_of_In in Hin.
  pose proof (find_none _ _ Hfind person Hin) as Hf. simpl in Hf.
  by rewrite bool_decide_eq_true_2 in Hf.
Qed.

Lemma consistent_toggleEmptySpace (config : BusConfig) s :
  consistent config → seatAssignments config !! s = None →
  consistent (toggleEmptySpace config s).
Proof.
  intros (I1 & I2 & I3) Hs. split; [|done].
  intros s'. unfold toggleEmptySpace. simpl.
  case_bool_decide; intros Hs'.
  - apply elem_of_difference in Hs' as [Hs' _]. by apply I1.
  - apply elem_of_union in Hs' as [?|?%elem_of_singleton]; [by apply I1|].
    by subst.
Qed.

Lemma moveOrSwap_lookup_other (L : gmap string string) from target pid s :
  s ≠ target → s ≠ from → moveOrSwap L from target pid !! s = L !! s.
Proof.
  intros Ht Hf. unfold moveOrSwap.
  destruct (L !! target) as [occ|];
    [destruct (JS.truthyS occ && bool_decide (occ ≠ pid))|].
  - rewrite lookup_insert_ne by done.
    rewrite lookup_delete_ne by done. by rewrite lookup_insert_ne.
  - rewrite lookup_delete_ne by done. by rewrite lookup_insert_ne.
  - rewrite lookup_delete_ne by done. by rewrite lookup_insert_ne.
Qed.

Lemma moveOrSwap_values (L : gmap string string) from target pid s x :
  moveOrSwap L from target pid !! s = Some x →
  x = pid ∨ ∃ s', L !! s' = Some x.
Proof.
  unfold moveOrSwap.
  assert (∀ m : gmap string string,
            (∀ k v, m !! k = Some v → v = pid ∨ ∃ s', L !! s' = Some v) →
            ∀ k v, delete from m !! k = Some v →
                   v = pid ∨ ∃ s', L !! s' = Some v) as Hdel.
  { intros m Hm k v [_ Hk]%lookup_delete_Some. eauto. }
  assert (∀ k v, <[target := pid]> L !! k = Some v →
                 v = pid ∨ ∃ s', L !! s' = Some v) as Hins.
  { intros k v [[_ <-]|[_ Hk]]%lookup_insert_Some; eauto. }
  destruct (L !! target) as [occ|] eqn:Ht;
    [destruct (JS.truthyS occ && bool_decide (occ ≠ pid))|]; eauto.
  intros [[_ <-]|[_ Hk]]%lookup_insert_Some; eauto.
Qed.

Lemma consistent_handleDragEnd (config : BusConfig) data overId :
  consistent config → payloadFromState config data →
  consistent (handleDragEnd config (mkDragEndEvent (Some data) overId)).
Proof.
  intros Hc (Hpid & Hroster & Hfrom). pose proof Hc as (I1 & I2 & I3).
  unfold handleDragEnd. simpl.
  destruct overId as [overId|]; [|done].
  case_bool_decide; [done|]. case_bool_decide.
  { destruct (fromSeatId data) as [from|]; [|done].
    destruct (JS.truthyS from); [|done].
    apply consistent_ledger; [| |done].
    - intros s Hs. apply lookup_delete_None. right. by apply I1.
    - intros s p [_ Hs]%lookup_delete_Some. by apply (I2 s). }
  destruct (bool_decide (overId ∈ emptySpaces config)) eqn:HE; [done|].
  apply bool_decide_eq_false in HE. simpl.
  destruct (bool_decide (overId ∈ tourGuideSeats config)); [done|].
  assert (consistent (set_seatAssignments config
            (assignFromList (seatAssignments config) overId (personId data))))
    as HassignOk.
  { apply consistent_ledger; [| |done].
    - intros s Hs. rewrite assignFromList_lookup.
      case_decide as Heq; [by subst|]. by rewrite (I1 s Hs).
    - intros s p. rewrite assignFromList_lookup.
      case_decide; [by intros [= <-]|].
      destruct (seatAssignments config !! s) as [q|] eqn:Hq; [|done].
      case_decide; [done|]. intros [= <-]. by apply (I2 s). }
  destruct (fromSeatId data) as [from|] eqn:Hf; [|done].
  destruct (JS.truthyS from); [|done].
  specialize (Hfrom from eq_refl).
  apply consistent_ledger; [| |done].
  - intros s Hs. rewrite moveOrSwap_lookup_other; [by apply I1| |].
    + by intros ->.
    + intros ->. by rewrite (I1 from Hs) in Hfrom.
  - intros s p [->|[s' Hs']]%moveOrSwap_values; [done|]. by apply (I2 s').
Qed.

Lemma foldl_append_Forall {A B} (P : B → Prop) (keep : B → bool)
    (f : A → B) (l : list A) (acc : list B) :
  (∀ x, keep x = true → P x) → Forall P acc →
  Forall P (foldl (λ acc i, if keep (f i) then acc ++ [f i] else acc) acc l).
Proof.
  intros Hk. revert acc. induction l as [|i l IH]; intros acc Hacc; [done|].
  simpl. apply IH. destruct (keep (f i)) eqn:E; [|done].
  apply Forall_app. split; [done|]. constructor; [by apply Hk|constructor].
Qed.

Lemma getAvailableSeats_not_empty (config : BusConfig) s :
  s ∈ getAvailableSeats config → s ∉ emptySpaces config.
Proof.
  revert s. apply Forall_forall. unfold getAvailableSeats.
  set (keep := λ seatId : string,
         negb (bool_decide (seatId ∈ emptySpaces config)) &&
         negb (bool_decide (seatId ∈ tourGuideSeats config))).
  assert (∀ x, keep x = true → x ∉ emptySpaces config) as Hk.
  { intros x [Hx _]%andb_true_iff.
    by apply negb_true_iff, bool_decide_eq_false in Hx. }
  assert (∀ (rows : list nat) (g : nat → nat) (f : nat → nat → string) acc,
            Forall (λ x, x ∉ emptySpaces config) acc →
            Forall (λ x, x ∉ emptySpaces config)
              (foldl (λ acc row,
                        foldl (λ acc i, if keep (f row i)
                                        then acc ++ [f row i] else acc)
                              acc (seq 0 (g row)))
                     acc rows)) as Hrows.
  { intros rows g f. induction rows as [|r rows IH]; intros acc Hacc; [done|].
    simpl. apply IH. by apply (foldl_append_Forall _ keep (f r)). }
  destruct (hasUpperDeck config).
  - apply (Hrows _ (λ _, 4) upperSeatId).
    apply (Hrows _ (λ row, if bool_decide (row = mainDeckRows config)
                           then lastRowSeats_nat (lastRowSeats config)
                           else 4) mainSeatId). constructor.
  - apply (Hrows _ (λ row, if bool_decide (row = mainDeckRows config)
                           then lastRowSeats_nat (lastRowSeats config)
                           else 4) mainSeatId). constructor.
Qed.

Lemma assignPairs_ind (P : gmap string string → Prop)
    (freeSeats : list string) (sortedPeople : list Person) n m :
  P m →
  (∀ m seat p, P m → seat ∈ freeSeats → p ∈ sortedPeople →
               P (<[seat := id p]> m)) →
  P (assignPairs freeSeats sortedPeople n m).
Proof.
  intros Hm Hins. unfold assignPairs. generalize (seq 0 n). intros l.
  revert m Hm. induction l as [|i l IH]; intros m Hm; [done|]. simpl.
  apply IH.
  destruct (freeSeats !! i) as [seat|] eqn:Hs; [|done].
  destruct (sortedPeople !! i) as [p|] eqn:Hp; [|done].
  apply Hins; [done| |]; by eapply list_elem_of_lookup_2.
Qed.

Lemma consistent_autoAssignPeople (config : BusConfig) :
  consistent config → consistent (autoAssignPeople config).
Proof.
  intros Hc. pose proof Hc as (I1 & I2 & I3). unfold autoAssignPeople.
  apply consistent_ledger; [| |done].
  - apply (assignPairs_ind
             (λ m, ∀ s, s ∈ emptySpaces config → m !! s = None)); [done|].
    intros m seat p Hm Hseat _ s Hs.
    rewrite lookup_insert_ne; [by apply Hm|]. intros ->.
    apply list_elem_of_filter in Hseat as [_ Hseat].
    by apply getAvailableSeats_not_empty in Hseat.
  - apply (assignPairs_ind
             (λ m, ∀ s p, m !! s = Some p →
                p ≠ "" ∧ ∃ person, person ∈ people config ∧ id person = p));
      [done|].
    intros m seat p Hm _ Hp s q [[_ <-]|[_ Hq]]%lookup_insert_Some;
      [|by apply (Hm s)].
    apply sort_elem, list_elem_of_filter in Hp as [_ Hp].
    split; [by apply I3|by exists p].
Qed.

Lemma importedPeopleOf_id (data : list (People.Row * People.Reading)) p :
  p ∈ People.importedPeopleOf data → id p ≠ "".
Proof.
  intros ([row r] & _ & Hrow)%list_elem_of_omap. simpl in Hrow.
  unfold People.importRow in Hrow.
  destruct (People.hasUsableName row); [|done]. injection Hrow as <-. simpl.
  pose proof (String_N_nonempty (People.now r)) as Hn.
  by destruct (JS.String_N (People.now r)).
Qed.

Lemma consistent_step (config : BusConfig) (a : Action) :
  removesPerson a = false → consistent config → consistent (step config a).
Proof.
  intros Ha Hc. pose proof Hc as (I1 & I2 & I3).
  destruct a; try done; cbn [step].
  - (* click *)
    unfold handleClick.
    destruct (assignedPerson config seatId) eqn:Hp; [done|].
    apply assignedPerson_None in Hp; [|done].
    destruct keys; [|by apply (consistent_same config)|done].
    by apply consistent_toggleEmptySpace.
  - (* drag from the list *)
    unfold listDragData.
    destruct (people config !! index) as [person|] eqn:Hi; [|done].
    apply list_elem_of_lookup_2 in Hi.
    apply consistent_handleDragEnd; [done|].
    split; [by apply I3|]. split; [by exists person|done].
  - (* drag from a seat *)
    destruct (seatDragData config seatId) as [data|] eqn:Hd; [|done].
    apply seatDragData_Some in Hd as (_ & Hf & HL & Hne & Hroster).
    apply consistent_handleDragEnd; [done|].
    split; [done|]. split; [done|].
    intros from Hf'. rewrite Hf in Hf'. by injection Hf' as <-.
  - by apply consistent_autoAssignPeople.
  - (* add a person *)
    apply consistent_roster; [| |done]; unfold People.addPerson;
      destruct (JS.truthyS (JS.trim newPersonName)); try done.
    + intros p Hp. apply elem_of_app. by left.
    + intros p [Hp|Hp%list_elem_of_singleton]%elem_of_app; [by apply I3|].
      subst p. apply String_N_nonempty.
  - (* import *)
    apply consistent_roster; [| |done]; unfold People.handleFileUpload.
    + intros p Hp. apply elem_of_app. by left.
    + intros p [Hp|Hp]%elem_of_app; [by apply I3|].
      apply sort_elem in Hp. by apply importedPeopleOf_id in Hp.
  - (* sort the roster *)
    apply consistent_roster; [| |done]; unfold People.sortPeopleByBirth.
    + intros p Hp. by apply sort_elem.
    + intros p Hp%sort_elem. by apply I3.
  all: by apply (consistent_same config).
Qed.

Lemma consistent_run (config : BusConfig) (actions : list Action) :
  Forall (λ a, removesPerson a = false) actions →
  consistent config → consistent (run config actions).
Proof.
  unfold run. revert config.
  induction actions as [|a actions IH]; intros config Hall Hc; [done|].
  apply Forall_cons in Hall as [Ha Hall]. simpl.
  by apply IH, consistent_step.
Qed.

Lemma ledger_ids_elem (L : gmap string string) q :
  q ∈ map snd (map_to_list L) ↔ ∃ s, L !! s = Some q.
Proof.
  rewrite list_elem_of_In, in_map_iff. split.
  - intros ([s q'] & <- & Hin). exists s.
    by apply elem_of_map_to_list, list_elem_of_In.
  - intros [s Hs]. exists (s, q). split; [done|].
    by apply list_elem_of_In, elem_of_map_to_list.
Qed.

(** Taking somebody off the roster who holds no seat leaves every seated
    person on the roster. *)
Lemma consistent_removePerson (config : BusConfig) id0 :
  id0 ∉ map snd (map_to_list (seatAssignments config)) →
  consistent config →
  consistent (set_people config (People.removePerson (people config) id0)).
Proof.
  intros Hfree (I1 & I2 & I3). split; [exact I1|]. split.
  - intros s p Hs. destruct (I2 s p Hs) as (Hne & person & Hin & Hid).
    split; [done|]. exists person. split; [|done]. simpl.
    apply list_elem_of_filter. split; [|done].
    rewrite Hid. intros ->. apply Hfree, ledger_ids_elem. by exists s.
  - intros person [_ Hin]%list_elem_of_filter. by apply I3.
Qed.

Lemma consistent_step_seated (config : BusConfig) (a : Action) :
  keepsSeatedPeople config a → consistent config →
  consistent (step config a).
Proof.
  intros Ha Hc.
  destruct (removesPerson a) eqn:Hr; [|by apply consistent_step].
  destruct a; try discriminate Hr. by apply consistent_removePerson.
Qed.

Lemma consistent_run_seated (config : BusConfig) (actions : list Action) :
  noSeatedRemoval config actions →
  consistent config → consistent (run config actions).
Proof.
  unfold run. revert config.
  induction actions as [|a actions IH]; intros config Hall Hc; [done|].
  destruct Hall as [Ha Hall]. simpl.
  by apply IH, consistent_step_seated.
Qed.

Lemma noSeatedRemoval_without_removal (config : BusConfig)
    (actions : list Action) :
  Forall (λ a, removesPerson a = false) actions →
  noSeatedRemoval config actions.
Proof.
  revert config.
  induction actions as [|a actions IH]; intros config Hall; [done|].
  apply Forall_cons in Hall as [Ha Hall]. split; [|by apply IH].
  by destruct a.
Qed.

End consistency.

(** C8, as the code has it.  From the initial state: add a person, seat
    her on 1A, remove her from the roster, click 1A.  Seat 1A is then in
    EmptySpaces and still has its entry in the ledger. *)
Lemma C8_empty_space_keeps_ghost_entry :
  let config :=
    App.run (H := IsoDate.parser) Configurator.initialConfig
      App.ghostOccupantActions in
  "1A" ∈ emptySpaces config ∧
  seatAssignments config !! "1A" = Some "1758828000000" ∧
  Layout.seatNumberMap config !! "1A" = None.
Proof.
  split; [|by vm_compute].
  apply (bool_decide_unpack _). vm_compute. exact I.
Qed.

(** C8, amended.  A seat id in EmptySpaces never has an entry in the
    numbering map, whatever the configuration.  In every state reached
    from the initial one by user actions among which nobody is removed
    from the roster while holding a seat - removals of people who hold no
    seat included - a seat id in EmptySpaces has no entry in the ledger
    either. *)
Theorem C8_empty_spaces_excluded `{DateParser} :
  (∀ config sid,
     sid ∈ emptySpaces config → Layout.seatNumberMap config !! sid = None) ∧
  (∀ actions sid,
     App.noSeatedRemoval Configurator.initialConfig actions →
     sid ∈ emptySpaces (App.run Configurator.initialConfig actions) →
     seatAssignments (App.run Configurator.initialConfig actions) !! sid
       = None) ∧
  (∀ actions,
     Forall (λ a, App.removesPerson a = false) actions →
     App.noSeatedRemoval Configurator.initialConfig actions).
Proof.
  split; [|split].
  - intros config sid HE. apply seatNumberMap_none. by left.
  - intros actions sid Hall HE.
    by apply (consistent_run_seated _ _ Hall consistent_initial).
  - intros actions Hall. by apply noSeatedRemoval_without_removal.
Qed.

Lemma C8_empty_spaces_excluded_witness :
  let actions :=
    [App.AddPerson 1758828000000 "Ann";
     App.AddPerson 1758828000001 "Bob";
     App.DragListPerson 0 (Some "1A");
     App.RemovePerson "1758828000001";
     App.ClickSeat "1A" Layout.Plain;
     App.ClickSeat "1B" Layout.Plain;
     App.DragSeatPerson "1A" (Some "1B")] in
  seatAssignments
    (App.run (H := IsoDate.parser) Configurator.initialConfig actions) !! "1B"
  = None.
Proof.
  apply (proj1 (proj2 (C8_empty_spaces_excluded (H := IsoDate.parser)))).
  - repeat split. intros Hin. list_absurd Hin.
  - apply (bool_decide_unpack _). vm_compute. exact I.
Defined.

(** ** Auto-assign *)

Section auto_assign.

Import Configurator Spec.

Lemma twoFreeSeats_free (roster : list Person) :
  freeSeatsOf (twoFreeSeats roster) = ["1A"; "1B"].
Proof. by vm_compute. Qed.

(** The example of the specification: the two dated people are put in
    birth order and the third person finds no seat. *)
Lemma autoAssign_oldest_first `{DateParser} (t1990 t2000 : Z) :
  getTime "1990-01-01" = Some t1990 →
  getTime "2000-01-01" = Some t2000 →
  (t1990 < t2000)%Z →
  sortedPeopleOf (twoFreeSeats [born2000; born1990; noBirth]) =
    [born1990; born2000; noBirth] ∧
  seatAssignments
    (autoAssignPeople (twoFreeSeats [born2000; born1990; noBirth])) =
    {["1A" := "p1990"; "1B" := "p2000"]}.
Proof.
  intros H1 H2 Hlt.
  assert (sortedPeopleOf (twoFreeSeats [born2000; born1990; noBirth]) =
          [born1990; born2000; noBirth]) as Hsorted.
  { unfold sortedPeopleOf.
    change (unassignedPeopleOf _) with [born2000; born1990; noBirth].
    assert (byBirthDate born2000 born1990 = (t2000 - t1990)%Z) as Hc1.
    { unfold byBirthDate. simpl. by rewrite H1, H2. }
    assert (∀ x, byBirthDate x noBirth = 0%Z) as Hc2.
    { intros x. unfold byBirthDate. simpl. by rewrite orb_true_r. }
    unfold JSArray.sort. cbn [foldl JSArray.insertItem]. rewrite Hc1.
    destruct (Z.leb_spec (t2000 - t1990) 0) as [?|_]; [lia|].
    cbn [JSArray.insertItem]. by rewrite Hc2. }
  split; [done|]. unfold autoAssignPeople.
  rewrite Hsorted, twoFreeSeats_free. by vm_compute.
Qed.

Lemma byBirthDate_dated `{DateParser} (a b : Person) (ta tb : Z) :
  birthTime a = Some ta → birthTime b = Some tb →
  byBirthDate a b = (ta - tb)%Z.
Proof.
  unfold birthTime, byBirthDate. intros Ha Hb.
  destruct (birthDate a) as [da|]; [|done].
  destruct (birthDate b) as [db|]; [|done]. simpl.
  destruct (JS.truthyS da); [|done]. destruct (JS.truthyS db); [|done].
  simpl. by rewrite Ha, Hb.
Qed.

(** When every candidate has a birth date that the host reads, the
    candidates are paired oldest first, people of one birth time in their
    input order. *)
Lemma sortedPeople_all_dated `{DateParser} (config : BusConfig) :
  (∀ p, p ∈ unassignedPeopleOf config → is_Some (birthTime p)) →
  StronglySorted
    (λ a b, (default 0 (birthTime a) ≤ default 0 (birthTime b))%Z)
    (sortedPeopleOf config) ∧
  ∀ k, filter (λ p, default 0%Z (birthTime p) = k) (sortedPeopleOf config) =
       filter (λ p, default 0%Z (birthTime p) = k) (unassignedPeopleOf config).
Proof.
  intros Hall. apply sort_by_key. intros a b Ha Hb.
  destruct (Hall a Ha) as [ta Hta]. destruct (Hall b Hb) as [tb Htb].
  rewrite (byBirthDate_dated a b ta tb) by done. by rewrite Hta, Htb.
Qed.

Example IsoDate_parse_1990 : IsoDate.parse "1990-01-01" = Some 631152000000%Z.
Proof. reflexivity. Qed.

Example IsoDate_parse_2000 : IsoDate.parse "2000-01-01" = Some 946684800000%Z.
Proof. reflexivity. Qed.

Example autoAssign_oldest_first_iso :
  seatAssignments
    (autoAssignPeople (H := IsoDate.parser)
       (twoFreeSeats [born2000; born1990; noBirth])) =
  {["1A" := "p1990"; "1B" := "p2000"]}.
Proof. by vm_compute. Qed.

End auto_assign.

(** C6, on inputs where the code departs from it.  Two seats are free.
    The roster holds a person born in 2000 and a person born in 1990, and
    people without a birth date stand between them (and, in the second
    roster, before them).  Whatever the date parser, the comparator
    answers 0 for every pair it is asked about, the order stays as
    entered, and the person born in 2000 is seated while the person born
    in 1990, the oldest, is left without a seat. *)
Theorem C6_auto_assign_not_oldest_first `{DateParser} :
  let config3 :=
    Spec.twoFreeSeats [Spec.born2000; Spec.noBirth; Spec.born1990] in
  let config4 :=
    Spec.twoFreeSeats
      [Spec.noBirth; Spec.born2000; Spec.noBirth2; Spec.born1990] in
  Configurator.freeSeatsOf config3 = ["1A"; "1B"] ∧
  Configurator.sortedPeopleOf config3 =
    [Spec.born2000; Spec.noBirth; Spec.born1990] ∧
  seatAssignments (Configurator.autoAssignPeople config3) =
    {["1A" := "p2000"; "1B" := "pnone"]} ∧
  Configurator.freeSeatsOf config4 = ["1A"; "1B"] ∧
  Configurator.sortedPeopleOf config4 =
    [Spec.noBirth; Spec.born2000; Spec.noBirth2; Spec.born1990] ∧
  seatAssignments (Configurator.autoAssignPeople config4) =
    {["1A" := "pnone"; "1B" := "p2000"]}.
Proof.
  assert (Configurator.sortedPeopleOf
            (Spec.twoFreeSeats [Spec.born2000; Spec.noBirth; Spec.born1990]) =
          [Spec.born2000; Spec.noBirth; Spec.born1990]) as Hsorted3.
  { unfold Configurator.sortedPeopleOf.
    change (Configurator.unassignedPeopleOf _)
      with [Spec.born2000; Spec.noBirth; Spec.born1990].
    reflexivity. }
  assert (Configurator.sortedPeopleOf
            (Spec.twoFreeSeats
               [Spec.noBirth; Spec.born2000; Spec.noBirth2; Spec.born1990]) =
          [Spec.noBirth; Spec.born2000; Spec.noBirth2; Spec.born1990])
    as Hsorted4.
  { unfold Configurator.sortedPeopleOf.
    change (Configurator.unassignedPeopleOf _)
      with [Spec.noBirth; Spec.born2000; Spec.noBirth2; Spec.born1990].
    reflexivity. }
  split; [by vm_compute|]. split; [done|]. split.
  { unfold Configurator.autoAssignPeople.
    rewrite Hsorted3, twoFreeSeats_free. by vm_compute. }
  split; [by vm_compute|]. split; [done|].
  unfold Configurator.autoAssignPeople.
  rewrite Hsorted4, twoFreeSeats_free. by vm_compute.
Qed.

(** ** Bulk import *)

Section bulk_import.

Import People Spec.

Lemma pick_or (a b : option string) :
  pick (JS.or a b) = match pick a with Some x => Some x | None => pick b end.
Proof.
  unfold pick, JS.or.
  destruct (JS.truthy a) eqn:E; [rewrite E; by destruct a|done].
Qed.

Lemma pick_lookup (row : Row) (a : string) (rest : option string) :
  match pick (row !! a) with Some x => Some x | None => rest end =
  match row !! a with
  | Some v => if JS.truthyS v then Some v else rest
  | None => rest
  end.
Proof.
  unfold pick. destruct (row !! a) as [v|]; simpl; [|done].
  by destruct (JS.truthyS v).
Qed.

(** The [||] chain picks the first spelling with a non-empty cell. *)
Lemma rawName_firstNonEmpty (row : Row) :
  pick (rawName row) = firstNonEmpty nameAliases row.
Proof.
  unfold rawName. rewrite !pick_or. simpl.
  rewrite <- !pick_lookup.
  destruct (pick (row !! "name")); [done|].
  destruct (pick (row !! "Name")); [done|].
  destruct (pick (row !! "Name and Lastname")); [done|].
  destruct (pick (row !! "Full Name")); [done|].
  by destruct (pick (row !! "Full name")).
Qed.

Lemma importRow_usableName (row : Row) (r : Reading) :
  name <$> importRow row r = usableName row.
Proof.
  unfold importRow, hasUsableName, usableName.
  rewrite <- rawName_firstNonEmpty. unfold pick.
  destruct (rawName row) as [n|]; simpl; [|done].
  destruct (JS.truthyS n); simpl; [|done].
  by destruct (JS.truthyS (JS.trim n)).
Qed.

Lemma importedPeopleOf_names (data : list (Row * Reading)) :
  name <$> importedPeopleOf data = omap (λ rr, usableName rr.1) data.
Proof.
  unfold importedPeopleOf.
  induction data as [|[row r] data IH]; [done|]. simpl.
  rewrite <- (importRow_usableName row r).
  destruct (importRow row r); simpl; [f_equal|]; exact IH.
Qed.

Lemma firstNonEmpty_Some (aliases : list string) (row : Row) v :
  firstNonEmpty aliases row = Some v →
  ∃ a, a ∈ aliases ∧ row !! a = Some v ∧ v ≠ "".
Proof.
  induction aliases as [|a aliases IH]; [done|]. simpl.
  destruct (row !! a) as [w|] eqn:Ea.
  - destruct (JS.truthyS w) eqn:Ew.
    + intros [= <-]. exists a. split; [left|]. split; [done|].
      by apply truthyS_ne.
    + intros (b & Hb & Hrow)%IH. exists b. split; [by right|done].
  - intros (b & Hb & Hrow)%IH. exists b. split; [by right|done].
Qed.

Lemma firstNonEmpty_is_Some (aliases : list string) (row : Row) a v :
  a ∈ aliases → row !! a = Some v → v ≠ "" →
  is_Some (firstNonEmpty aliases row).
Proof.
  induction aliases as [|b aliases IH]; intros Ha Hrow Hv;
    [by apply elem_of_nil in Ha|]. simpl.
  destruct (row !! b) as [w|] eqn:Eb.
  - destruct (JS.truthyS w) eqn:Ew; [eauto|].
    apply elem_of_cons in Ha as [->|Ha]; [|by apply IH].
    rewrite Eb in Hrow. injection Hrow as ->.
    by rewrite truthyS_true in Ew.
  - apply elem_of_cons in Ha as [->|Ha]; [congruence|by apply IH].
Qed.

Lemma resolvesName_true (row : Row) :
  resolvesName row = true ↔
  ∃ a v, a ∈ nameAliases ∧ row !! a = Some v ∧ JS.trim v ≠ "".
Proof.
  unfold resolvesName. rewrite existsb_exists. split.
  - intros (a & Ha & Hv). destruct (row !! a) as [v|] eqn:Ea; [|done].
    exists a, v. split; [by apply list_elem_of_In|]. split; [done|].
    by apply truthyS_ne.
  - intros (a & v & Ha & Hrow & Hv). exists a.
    split; [by apply list_elem_of_In|]. rewrite Hrow. by apply truthyS_true.
Qed.

(** What the import keeps has a name under a recognised spelling. *)
Lemma usableName_resolves (row : Row) n :
  usableName row = Some n → resolvesName row = true ∧ n ≠ "".
Proof.
  unfold usableName.
  destruct (firstNonEmpty nameAliases row) as [v|] eqn:E; [|done].
  destruct (JS.truthyS (JS.trim v)) eqn:Ev; [|done]. intros [= <-].
  apply truthyS_ne in Ev. split; [|done].
  apply firstNonEmpty_Some in E as (a & Ha & Hrow & _).
  apply resolvesName_true. by exists a, v.
Qed.

(** Without blank cells the import keeps every record that has a name
    under a recognised spelling. *)
Lemma resolves_usableName (row : Row) :
  noBlankCell row → resolvesName row = true → is_Some (usableName row).
Proof.
  intros Hnb (a & v & Ha & Hrow & Hv)%resolvesName_true.
  assert (v ≠ "") as Hne by (by intros ->).
  destruct (firstNonEmpty_is_Some nameAliases row a v Ha Hrow Hne)
    as [w Hw].
  unfold usableName. rewrite Hw.
  apply firstNonEmpty_Some in Hw as (b & Hb & Hrowb & Hwne).
  rewrite truthyS_true by (by apply (Hnb b)). eauto.
Qed.

End bulk_import.

(** C9, as the code has it.  The record has the name Bob under the
    recognised spelling Name, yet the blank cell under the spelling name
    is the one the import looks at: the record is dropped and the roster
    stays as it was. *)
Lemma C9_blank_cell_hides_name :
  let reading := People.mkReading 1758828000000 "0.5" in
  Spec.exampleBlankThenName !! "Name" = Some "Bob" ∧
  Spec.resolvesName Spec.exampleBlankThenName = true ∧
  People.importRow Spec.exampleBlankThenName reading = None ∧
  People.handleFileUpload (H := IsoDate.parser) []
    [(Spec.exampleBlankThenName, reading)] = [].
Proof. by vm_compute. Qed.

Example import_exampleRecords :
  omap Spec.usableName Spec.exampleRecords = ["Ann"; "Bob"].
Proof. by vm_compute. Qed.

(** C9, amended.  Bulk import looks at the first recognised header
    spelling whose cell is not empty.  It pushes one person for each
    record for which something is left of that cell after trimming, with
    the trimmed text as name, in the order of the records, and nothing
    for any other record.  Every record it keeps has a name under a
    recognised spelling; when no recognised cell of a record is blank it
    keeps the record exactly when the record has such a name.  The new
    roster is the old one, unchanged, followed by the imported people
    (put in birth order). *)
Theorem C9_bulk_import `{DateParser} (people : list Person)
    (data : list (People.Row * People.Reading)) :
  name <$> People.importedPeopleOf data =
    omap (λ rr, Spec.usableName rr.1) data ∧
  length (People.importedPeopleOf data) =
    length (filter (λ rr, is_Some (Spec.usableName rr.1)) data) ∧
  (∀ row r, Spec.usableName row = None → People.importRow row r = None) ∧
  (∀ row n, Spec.usableName row = Some n →
            Spec.resolvesName row = true ∧ n ≠ "") ∧
  (∀ row, Spec.noBlankCell row →
          (is_Some (Spec.usableName row) ↔ Spec.resolvesName row = true)) ∧
  ∃ appended,
    People.handleFileUpload people data = people ++ appended ∧
    appended ≡ₚ People.importedPeopleOf data.
Proof.
  split; [apply importedPeopleOf_names|]. split; [|split; [|split; [|split]]].
  - rewrite <- (length_fmap name), importedPeopleOf_names.
    induction data as [|[row r] data IH]; [done|]. simpl.
    destruct (Spec.usableName row) eqn:E.
    + rewrite filter_cons_True by (simpl; rewrite E; eauto). simpl.
      f_equal. exact IH.
    + rewrite filter_cons_False; [exact IH|]. simpl. rewrite E.
      by intros [? ?].
  - intros row r Hn. pose proof (importRow_usableName row r) as Hr.
    rewrite Hn in Hr. by destruct (People.importRow row r).
  - apply usableName_resolves.
  - intros row Hnb. split.
    + intros [n Hn]. by apply (usableName_resolves row n).
    + by apply resolves_usableName.
  - exists (JSArray.sort byBirthDate (People.importedPeopleOf data)).
    split; [done|]. apply sort_Permutation.
Qed.

Lemma C9_bulk_import_witness :
  is_Some (Spec.usableName {["Full Name" := " Bob "]}).
Proof.
  assert (Spec.noBlankCell {["Full Name" := " Bob "]}) as Hnb.
  { intros a v Ha Hrow Hv. apply list_elem_of_In in Ha. vm_compute in Ha.
    destruct Ha as [<-|[<-|[<-|[<-|[<-|[]]]]]]; vm_compute in Hrow;
      try discriminate Hrow.
    injection Hrow as <-. vm_compute. discriminate. }
  apply (proj2 (proj1 (proj2 (proj2 (proj2 (proj2
           (C9_bulk_import (H := IsoDate.parser) [] [])))))
           {["Full Name" := " Bob "]} Hnb)).
  by vm_compute.
Defined.

(** * Further properties *)

(** ** The numbers are 1, 2, ..., N *)

Section dense_numbering.

Import Layout Spec.

(** The [j]-th real seat of the pass gets the counter plus [j + 1]. *)
Lemma numberSeats_filter_lookup (E : gset string) seats c m j x :
  NoDup seats → filter (λ sid, sid ∉ E) seats !! j = Some x →
  (foldl (numberSlot E) (c, m) (Seat <$> seats)).2 !! x =
  Some (JS.String_ (c + j + 1)).
Proof.
  revert c m j. induction seats as [|y seats IH]; intros c m j Hnd Hj;
    [done|].
  apply NoDup_cons in Hnd as [Hy Hnd]. simpl.
  case_bool_decide as HE.
  - rewrite filter_cons_False in Hj by auto. by apply IH.
  - rewrite filter_cons_True in Hj by done. destruct j as [|j]; simpl in Hj.
    + injection Hj as <-. rewrite numberSeats_lookup_other by (by right).
      simpl. rewrite lookup_insert_eq. do 2 f_equal. lia.
    + rewrite (IH _ _ j) by done. simpl. do 2 f_equal. lia.
Qed.

Lemma seatNumberMap_real_seat (config : BusConfig) j x :
  filter (λ sid, sid ∉ emptySpaces config) (seatSequence config) !! j
    = Some x →
  seatNumberMap config !! x = Some (JS.String_ (j + 1)).
Proof.
  intros Hj. unfold seatNumberMap. rewrite seatNumberMap_seats.
  by rewrite (numberSeats_filter_lookup _ _ 0 ∅ j x
                (seatSequence_NoDup config)).
Qed.

Lemma seatNumberMap_counter (config : BusConfig) :
  (seatNumberState config).1 =
  length (filter (λ sid, sid ∉ emptySpaces config) (seatSequence config)).
Proof. rewrite seatNumberMap_seats. by rewrite numberSeats_counter. Qed.

Lemma seatNumberMap_Some_index (config : BusConfig) sid n :
  seatNumberMap config !! sid = Some n →
  ∃ j, filter (λ sid, sid ∉ emptySpaces config) (seatSequence config) !! j
         = Some sid ∧ n = JS.String_ (j + 1).
Proof.
  intros Hn. assert (is_Some (seatNumberMap config !! sid)) as Hs by eauto.
  apply seatNumberMap_is_Some in Hs as [Hin HE].
  assert (sid ∈ filter (λ sid, sid ∉ emptySpaces config)
                       (seatSequence config)) as Hf.
  { by apply list_elem_of_filter. }
  apply list_elem_of_lookup in Hf as [j Hj]. exists j. split; [done|].
  rewrite (seatNumberMap_real_seat _ j) in Hn by done. by injection Hn.
Qed.

End dense_numbering.

(** X1. The seat numbers are dense and without repeats: with N the final
    value of the counter, every k from 1 to N is the number of some seat,
    every number in the map is such a k, and two different seats never
    have the same number. *)
Theorem X1_numbers_dense (config : BusConfig) :
  let N := (Layout.seatNumberState config).1 in
  (∀ k : nat, (1 ≤ k ≤ N)%nat →
     ∃ sid, Layout.seatNumberMap config !! sid = Some (JS.String_ k)) ∧
  (∀ sid n, Layout.seatNumberMap config !! sid = Some n →
     ∃ k : nat, (1 ≤ k ≤ N)%nat ∧ n = JS.String_ k) ∧
  (∀ s1 s2 n, Layout.seatNumberMap config !! s1 = Some n →
     Layout.seatNumberMap config !! s2 = Some n → s1 = s2).
Proof.
  intros N. unfold N. rewrite seatNumberMap_counter. split; [|split].
  - intros k Hk.
    destruct (lookup_lt_is_Some_2
                (filter (λ sid, sid ∉ emptySpaces config)
                        (Spec.seatSequence config)) (k - 1)) as [x Hx];
      [lia|].
    exists x. rewrite (seatNumberMap_real_seat _ (k - 1)) by done.
    do 2 f_equal. lia.
  - intros sid n (j & Hj & ->)%seatNumberMap_Some_index.
    exists (j + 1). split; [|done].
    apply lookup_lt_Some in Hj. lia.
  - intros s1 s2 n (j1 & H1 & ->)%seatNumberMap_Some_index
                   (j2 & H2 & Heq)%seatNumberMap_Some_index.
    apply String_inj in Heq. assert (j1 = j2) as -> by lia.
    rewrite H1 in H2. by injection H2.
Qed.

Lemma X1_numbers_dense_witness :
  ∃ sid, Layout.seatNumberMap Spec.exampleEmpty1C !! sid
         = Some (JS.String_ 7).
Proof.
  apply (proj1 (X1_numbers_dense Spec.exampleEmpty1C) 7).
  vm_compute. split; repeat constructor.
Defined.

(** ** Marking and unmarking an empty space *)

Section toggle_empty.

Import Layout Spec Configurator.

Lemma realSeats_add_notin (E : gset string) x (l : list string) :
  x ∉ l → realSeats (E ∪ {[x]}) l = realSeats E l.
Proof.
  induction l as [|y l IH]; intros Hx; [done|].
  apply not_elem_of_cons in Hx as [Hxy Hx].
  destruct (decide (y ∈ E)) as [Hy|Hy].
  - rewrite (realSeats_cons_in E), (realSeats_cons_in (E ∪ {[x]}))
      by (try apply elem_of_union; auto). by apply IH.
  - rewrite (realSeats_cons_notin E), (realSeats_cons_notin (E ∪ {[x]})).
    + by rewrite IH.
    + intros [?|?%elem_of_singleton]%elem_of_union; congruence.
    + done.
Qed.

Lemma realSeats_add_in (E : gset string) x (l : list string) :
  NoDup l → x ∈ l → x ∉ E →
  realSeats E l = S (realSeats (E ∪ {[x]}) l).
Proof.
  induction l as [|y l IH]; intros Hnd Hx HE; [by apply elem_of_nil in Hx|].
  apply NoDup_cons in Hnd as [Hy Hnd].
  apply elem_of_cons in Hx as [->|Hx].
  - rewrite realSeats_cons_notin by done.
    rewrite realSeats_cons_in
      by (apply elem_of_union; right; by apply elem_of_singleton).
    by rewrite realSeats_add_notin.
  - assert (y ≠ x) as Hyx by (by intros ->).
    destruct (decide (y ∈ E)) as [HyE|HyE].
    + rewrite (realSeats_cons_in E), (realSeats_cons_in (E ∪ {[x]}))
        by (try apply elem_of_union; auto). by apply IH.
    + rewrite (realSeats_cons_notin E), (realSeats_cons_notin (E ∪ {[x]})).
      * by rewrite <- IH.
      * intros [?|?%elem_of_singleton]%elem_of_union; congruence.
      * done.
Qed.

Lemma toggleEmptySpace_add (config : BusConfig) sid :
  sid ∉ emptySpaces config →
  emptySpaces (toggleEmptySpace config sid) = emptySpaces config ∪ {[sid]}.
Proof.
  intros H. unfold toggleEmptySpace. simpl.
  by rewrite bool_decide_eq_false_2.
Qed.

Lemma NoDup_take_elem (l : list string) i j x :
  NoDup l → l !! i = Some x → (x ∈ take j l ↔ i < j).
Proof.
  intros Hnd Hi. split.
  - intros [k Hk]%list_elem_of_lookup.
    pose proof (lookup_lt_Some _ _ _ Hk) as Hlt.
    rewrite length_take in Hlt.
    rewrite lookup_take_lt in Hk by lia.
    assert (k = i) as -> by (by eapply NoDup_lookup). lia.
  - intros Hlt. apply list_elem_of_lookup. exists i.
    by rewrite lookup_take_lt.
Qed.

End toggle_empty.

(** X2. Marking the seat at position i of the seat sequence as an empty
    space takes its number away, leaves the number of every real seat
    before it as it was, and lowers the number of every real seat after
    it by one. *)
Theorem X2_mark_empty_shifts_numbers (config : BusConfig) (i : nat)
    (sid : string) :
  Spec.seatSequence config !! i = Some sid → sid ∉ emptySpaces config →
  let config' := Configurator.toggleEmptySpace config sid in
  Layout.seatNumberMap config' !! sid = None ∧
  ∀ (j : nat) (s : string),
    Spec.seatSequence config !! j = Some s → s ∉ emptySpaces config →
    (j < i → Layout.seatNumberMap config' !! s
             = Layout.seatNumberMap config !! s) ∧
    (i < j → ∃ k : nat,
               Layout.seatNumberMap config !! s = Some (JS.String_ (S k)) ∧
               Layout.seatNumberMap config' !! s = Some (JS.String_ k)).
Proof.
  intros Hi HE config'.
  assert (emptySpaces config' = emptySpaces config ∪ {[sid]}) as HE'
    by (by apply toggleEmptySpace_add).
  assert (Spec.seatSequence config' = Spec.seatSequence config) as Hseq
    by reflexivity.
  pose proof (seatSequence_NoDup config) as Hnd.
  split.
  { apply seatNumberMap_none. left. rewrite HE'.
    apply elem_of_union. right. by apply elem_of_singleton. }
  intros j s Hj HsE.
  assert (j ≠ i → s ∉ emptySpaces config') as HsE'.
  { intros Hji. rewrite HE'. intros [?|Heq%elem_of_singleton]%elem_of_union;
      [done|]. subst s. apply Hji. by eapply NoDup_lookup. }
  split; intros Hlt.
  - rewrite (seatNumberMap_position config' j s), HE', Hseq;
      [|by rewrite Hseq|apply HsE'; lia].
    rewrite (seatNumberMap_position config j s) by done.
    rewrite realSeats_add_notin; [done|].
    rewrite (NoDup_take_elem _ i j) by done. lia.
  - exists (Spec.realSeats (emptySpaces config ∪ {[sid]})
              (take j (Spec.seatSequence config)) + 1).
    rewrite (seatNumberMap_position config' j s), HE', Hseq;
      [|by rewrite Hseq|apply HsE'; lia].
    rewrite (seatNumberMap_position config j s) by done.
    rewrite (realSeats_add_in _ sid (take j (Spec.seatSequence config))).
    + split; do 2 f_equal; lia.
    + eapply sublist_NoDup; [exact Hnd|apply sublist_take].
    + by apply (NoDup_take_elem _ i j).
    + done.
Qed.

Lemma X2_mark_empty_shifts_numbers_witness :
  let config' := Configurator.toggleEmptySpace Spec.exampleEmpty1C "1D" in
  Layout.seatNumberMap config' !! "1D" = None ∧
  ∀ (j : nat) (s : string),
    Spec.seatSequence Spec.exampleEmpty1C !! j = Some s →
    s ∉ emptySpaces Spec.exampleEmpty1C →
    (j < 3 → Layout.seatNumberMap config' !! s
             = Layout.seatNumberMap Spec.exampleEmpty1C !! s) ∧
    (3 < j → ∃ k : nat,
               Layout.seatNumberMap Spec.exampleEmpty1C !! s
                 = Some (JS.String_ (S k)) ∧
               Layout.seatNumberMap config' !! s = Some (JS.String_ k)).
Proof.
  apply (X2_mark_empty_shifts_numbers Spec.exampleEmpty1C 3 "1D").
  - reflexivity.
  - intros H. apply (bool_decide_pack _) in H. by vm_compute in H.
Defined.

(** X3. Toggling the empty-space marking of a seat twice gives back the
    configuration one started from, so the numbering is restored too. *)
Theorem X3_toggle_empty_twice (config : BusConfig) (sid : string) :
  Configurator.toggleEmptySpace
    (Configurator.toggleEmptySpace config sid) sid = config ∧
  Layout.seatNumberMap
    (Configurator.toggleEmptySpace
       (Configurator.toggleEmptySpace config sid) sid)
  = Layout.seatNumberMap config.
Proof.
  assert (Configurator.toggleEmptySpace
            (Configurator.toggleEmptySpace config sid) sid = config) as ->;
    [|done].
  destruct config as [r u h w er tr uer tg dr E sn pp L].
  unfold Configurator.toggleEmptySpace, set_emptySpaces. simpl.
  f_equal. destruct (decide (sid ∈ E)) as [Hin|Hout].
  - rewrite (bool_decide_eq_true_2 (sid ∈ E)) by done.
    rewrite bool_decide_eq_false_2.
    + apply set_eq. intros x. rewrite elem_of_union, elem_of_difference,
        elem_of_singleton. split; [intros [[? _]| ->]; done|].
      intros Hx. destruct (decide (x = sid)); [by right|by left].
    + intros [_ Hn]%elem_of_difference. apply Hn. by apply elem_of_singleton.
  - rewrite (bool_decide_eq_false_2 (sid ∈ E)) by done.
    rewrite bool_decide_eq_true_2.
    + apply set_eq. intros x. rewrite elem_of_difference, elem_of_union,
        !elem_of_singleton. split; [intros [[?| ->] ?]; done|].
      intros Hx. split; [by left|]. by intros ->.
    + apply elem_of_union. right. by apply elem_of_singleton.
Qed.

(** ** Editing a seat number *)

Section seat_number_edit.

Import Layout Configurator.

Lemma seatLabel_cases (config : BusConfig) (seatId : string) :
  seatLabel config seatId =
  match seatNumbers config !! seatId with
  | Some o => if JS.test_digits o then o
              else default "" (seatNumberMap config !! seatId)
  | None => default "" (seatNumberMap config !! seatId)
  end.
Proof.
  unfold seatLabel, displayResolved, isNumeric.
  destruct (seatNumbers config !! seatId) as [o|]; [|done].
  destruct o as [|c o]; [done|]. simpl.
  by destruct (JS.isDigit c && JS.allDigits o).
Qed.

Lemma test_digits_nonempty (s : string) : JS.test_digits s = true → s ≠ "".
Proof. by destruct s. Qed.

End seat_number_edit.

(** X4. Saving a text as the number of a seat stores the trimmed text as
    the seat's override, or deletes the override when nothing is left
    after trimming.  The seat then shows the trimmed text if it is made of
    digits, and its computed number otherwise; the computed numbers and
    the labels of all other seats are as before. *)
Theorem X4_update_seat_number (config : BusConfig) (sid text : string) :
  let config' := Configurator.updateSeatNumber config sid text in
  let computed := default "" (Layout.seatNumberMap config !! sid) in
  seatNumbers config' !! sid =
    (if bool_decide (JS.trim text = "") then None else Some (JS.trim text)) ∧
  Layout.seatLabel config' sid =
    (if JS.test_digits (JS.trim text) then JS.trim text else computed) ∧
  Layout.seatNumberMap config' = Layout.seatNumberMap config ∧
  ∀ s, s ≠ sid → Layout.seatLabel config' s = Layout.seatLabel config s.
Proof.
  intros config' computed.
  assert (Layout.seatNumberMap config' = Layout.seatNumberMap config) as Hmap
    by reflexivity.
  assert (seatNumbers config' =
          if JS.truthyS (JS.trim text)
          then <[sid := JS.trim text]> (seatNumbers config)
          else delete sid (seatNumbers config)) as Hsn by reflexivity.
  split; [|split; [|split; [done|]]].
  - rewrite Hsn. unfold JS.truthyS.
    destruct (decide (JS.trim text = "")) as [Ht|Ht].
    + rewrite bool_decide_eq_false_2 by auto.
      rewrite bool_decide_eq_true_2 by done. apply lookup_delete_eq.
    + rewrite bool_decide_eq_true_2 by done.
      rewrite bool_decide_eq_false_2 by done. apply lookup_insert_eq.
  - rewrite seatLabel_cases, Hmap, Hsn. unfold JS.truthyS.
    destruct (decide (JS.trim text = "")) as [Ht|Ht].
    + rewrite bool_decide_eq_false_2 by auto.
      rewrite lookup_delete_eq, Ht. done.
    + rewrite bool_decide_eq_true_2 by done. by rewrite lookup_insert_eq.
  - intros s Hs. rewrite !seatLabel_cases, Hmap, Hsn.
    destruct (JS.truthyS (JS.trim text)).
    + by rewrite lookup_insert_ne.
    + by rewrite lookup_delete_ne.
Qed.

Lemma X4_update_seat_number_witness :
  Layout.seatLabel
    (Configurator.updateSeatNumber Spec.exampleOverrideText "1B" " 42 ") "1A"
  = Layout.seatLabel Spec.exampleOverrideText "1A".
Proof.
  apply (proj2 (proj2 (proj2
           (X4_update_seat_number Spec.exampleOverrideText "1B" " 42 ")))).
  intros H. discriminate H.
Defined.

(** X5. The row counts stay within their bounds whatever the increment or
    the typed value: the main deck has 1 to 25 rows, the upper deck 1 to
    15; an increment that stays within the bounds is applied as it is, and
    a typed value that does not parse, or is 0, gives 1 row. *)
Theorem X5_row_counts_clamped (config : BusConfig) (increment : Z)
    (parsed : option Z) :
  (1 ≤ mainDeckRows (Configurator.updateMainDeckRows config increment) ≤ 25)%nat ∧
  (1 ≤ upperDeckRows (Configurator.updateUpperDeckRows config increment) ≤ 15)%nat ∧
  (1 ≤ mainDeckRows (Configurator.inputMainDeckRows config parsed) ≤ 25)%nat ∧
  (1 ≤ upperDeckRows (Configurator.inputUpperDeckRows config parsed) ≤ 15)%nat ∧
  ((1 ≤ Z.of_nat (mainDeckRows config) + increment ≤ 25)%Z →
   Z.of_nat (mainDeckRows (Configurator.updateMainDeckRows config increment))
   = (Z.of_nat (mainDeckRows config) + increment)%Z) ∧
  ((1 ≤ Z.of_nat (upperDeckRows config) + increment ≤ 15)%Z →
   Z.of_nat (upperDeckRows (Configurator.updateUpperDeckRows config increment))
   = (Z.of_nat (upperDeckRows config) + increment)%Z) ∧
  (parsed = None ∨ parsed = Some 0%Z →
   mainDeckRows (Configurator.inputMainDeckRows config parsed) = 1 ∧
   upperDeckRows (Configurator.inputUpperDeckRows config parsed) = 1).
Proof.
  unfold Configurator.updateMainDeckRows, Configurator.updateUpperDeckRows,
    Configurator.inputMainDeckRows, Configurator.inputUpperDeckRows,
    Configurator.clampRows. simpl.
  repeat split; try lia.
  - destruct H as [-> | ->]; reflexivity.
  - destruct H as [-> | ->]; reflexivity.
Qed.

Lemma X5_row_counts_clamped_witness :
  Z.of_nat (mainDeckRows
              (Configurator.updateMainDeckRows Configurator.initialConfig 1))
  = (Z.of_nat (mainDeckRows Configurator.initialConfig) + 1)%Z.
Proof.
  apply (proj1 (proj2 (proj2 (proj2 (proj2
           (X5_row_counts_clamped Configurator.initialConfig 1 None)))))).
  vm_compute. split; discriminate.
Defined.

(** ** The seats offered to auto-assign and the total shown *)

Section available_seats.

Import Layout Spec Configurator Notions.

Lemma seatSequence_plain (config : BusConfig) :
  plainGeometry config → seatSequence config = allSeatIds config.
Proof.
  intros (He & Ht & Hu). rewrite seatSequence_decks. unfold allSeatIds.
  f_equal.
  - apply bind_ext_list. intros row. rewrite rowSeats_columns.
    unfold rowColumns, rowWidth. rewrite He, Ht. simpl.
    by destruct (bool_decide (row = mainDeckRows config)).
  - destruct (hasUpperDeck config); [|done].
    apply bind_ext_list. intros row. rewrite rowSeats_columns.
    unfold rowColumns. by rewrite Hu.
Qed.

Lemma allSeatIds_withoutGaps (config : BusConfig) :
  allSeatIds config = seatSequence (withoutGaps config).
Proof. by rewrite seatSequence_plain. Qed.

Lemma allSeatIds_NoDup (config : BusConfig) : NoDup (allSeatIds config).
Proof. rewrite allSeatIds_withoutGaps. apply seatSequence_NoDup. Qed.

Lemma filter_bind_list {A B} (P : B → Prop) `{∀ x, Decision (P x)}
    (f : A → list B) (l : list A) :
  filter P (l ≫= f) = l ≫= (λ x, filter P (f x)).
Proof.
  induction l as [|x l IH]; [done|].
  change ((x :: l) ≫= f) with (f x ++ (l ≫= f)).
  by rewrite filter_app, IH.
Qed.

(** Pushing the kept ids one by one is filtering. *)
Lemma foldl_push_filter {A} (P : string → Prop) `{∀ x, Decision (P x)}
    (keep : string → bool) (f : A → string) (l : list A)
    (acc : list string) :
  (∀ x, keep x = true ↔ P x) →
  foldl (λ acc i, if keep (f i) then acc ++ [f i] else acc) acc l =
  acc ++ filter P (f <$> l).
Proof.
  intros Hk. revert acc. induction l as [|i l IH]; intros acc; simpl.
  { by rewrite app_nil_r. }
  rewrite IH. destruct (keep (f i)) eqn:E.
  - rewrite filter_cons_True by (by apply Hk). by rewrite <- app_assoc.
  - rewrite filter_cons_False; [done|]. rewrite <- Hk. congruence.
Qed.

Lemma foldl_rows_push_filter (P : string → Prop) `{∀ x, Decision (P x)}
    (keep : string → bool) (f : nat → nat → string) (g : nat → nat)
    (rows : list nat) (acc : list string) :
  (∀ x, keep x = true ↔ P x) →
  foldl (λ acc row,
           foldl (λ acc i, if keep (f row i) then acc ++ [f row i] else acc)
                 acc (seq 0 (g row)))
        acc rows =
  acc ++ filter P (rows ≫= (λ row, f row <$> seq 0 (g row))).
Proof.
  intros Hk. revert acc. induction rows as [|r rows IH]; intros acc; simpl.
  { by rewrite app_nil_r. }
  rewrite IH, (foldl_push_filter P keep (f r)) by done.
  change ((r :: rows) ≫= (λ row, f row <$> seq 0 (g row)))
    with ((f r <$> seq 0 (g r)) ++
          (rows ≫= (λ row, f row <$> seq 0 (g row)))).
  by rewrite filter_app, <- app_assoc.
Qed.

Lemma getAvailableSeats_filter (config : BusConfig) :
  getAvailableSeats config =
  filter (λ s, (s ∉ emptySpaces config) ∧ (s ∉ tourGuideSeats config))
         (allSeatIds config).
Proof.
  unfold getAvailableSeats, allSeatIds.
  set (P := λ s : string,
              (s ∉ emptySpaces config) ∧ (s ∉ tourGuideSeats config)).
  set (keep := λ seatId : string,
         negb (bool_decide (seatId ∈ emptySpaces config)) &&
         negb (bool_decide (seatId ∈ tourGuideSeats config))).
  assert (∀ x, keep x = true ↔ P x) as Hk.
  { intros x. unfold keep, P.
    rewrite andb_true_iff, !negb_true_iff, !bool_decide_eq_false. done. }
  rewrite filter_app.
  pose proof (foldl_rows_push_filter P keep mainSeatId (rowWidth config)
                (seq 1 (mainDeckRows config)) [] Hk) as Hmain.
  rewrite app_nil_l in Hmain.
  destruct (hasUpperDeck config).
  - rewrite <- (foldl_rows_push_filter P keep upperSeatId (λ _, 4)) by done.
    rewrite <- Hmain. reflexivity.
  - rewrite filter_nil, app_nil_r. rewrite <- Hmain. reflexivity.
Qed.

Lemma length_bind_const {A B} (f : A → list B) (l : list A) (n : nat) :
  (∀ x, x ∈ l → length (f x) = n) → length (l ≫= f) = n * length l.
Proof.
  induction l as [|x l IH]; intros Hf; [simpl; lia|].
  change ((x :: l) ≫= f) with (f x ++ (l ≫= f)).
  rewrite length_app, (Hf x) by left.
  rewrite IH by (intros y Hy; apply Hf; by right). simpl. lia.
Qed.

Lemma allSeatIds_length (config : BusConfig) :
  (1 ≤ mainDeckRows config)%nat →
  length (allSeatIds config) =
  (mainDeckRows config - 1) * 4 + lastRowSeats_nat (lastRowSeats config) +
  (if hasUpperDeck config then upperDeckRows config * 4 else 0).
Proof.
  intros Hrows. unfold allSeatIds. rewrite length_app. f_equal.
  - replace (mainDeckRows config) with (S (mainDeckRows config - 1)) at 1
      by lia.
    rewrite seq_S, bind_app, length_app.
    rewrite (length_bind_const _ _ 4).
    + rewrite length_seq. simpl. rewrite app_nil_r, length_fmap, length_seq.
      unfold rowWidth. rewrite bool_decide_eq_true_2 by lia. lia.
    + intros row Hrow%elem_of_seq. rewrite length_fmap, length_seq.
      unfold rowWidth. rewrite bool_decide_eq_false_2 by lia. done.
  - destruct (hasUpperDeck config); [|done].
    rewrite (length_bind_const _ _ 4).
    + rewrite length_seq. lia.
    + intros row _. by rewrite length_fmap, length_seq.
Qed.

(** Seats that are empty spaces, counted against the set. *)
Lemma length_filter_not_in (E : gset string) (l : list string) :
  NoDup l → (∀ x, x ∈ E → x ∈ l) →
  length (filter (λ x, x ∉ E) l) + size E = length l.
Proof.
  intros Hnd Hsub.
  assert (filter (λ x, x ∈ E) l ≡ₚ elements E) as Hperm.
  { apply NoDup_Permutation; [by apply NoDup_filter|apply NoDup_elements|].
    intros x. rewrite list_elem_of_filter, elem_of_elements.
    split; [by intros [? _]|]. intros Hx. split; [done|by apply Hsub]. }
  pose proof (filter_app_complement (λ x, x ∈ E) l) as Hc.
  apply Permutation_length in Hc. rewrite length_app in Hc.
  rewrite Hperm in Hc. unfold size, set_size. simpl in *. lia.
Qed.

End available_seats.

(** X6. The seats offered to auto-assign are the seat ids of the decks -
    main deck first, rows ascending, columns left to right, entrance and
    table rows not looked at - that are neither empty spaces nor
    tour-guide seats; no seat is offered twice; on a deck without
    entrance and table rows they come in the order of the numbering. *)
Theorem X6_available_seats (config : BusConfig) :
  Configurator.getAvailableSeats config =
    filter (λ s, (s ∉ emptySpaces config) ∧ (s ∉ tourGuideSeats config))
           (Notions.allSeatIds config) ∧
  NoDup (Configurator.getAvailableSeats config) ∧
  (Notions.plainGeometry config →
   Notions.allSeatIds config = Spec.seatSequence config).
Proof.
  split; [apply getAvailableSeats_filter|]. split.
  - rewrite getAvailableSeats_filter. apply NoDup_filter, allSeatIds_NoDup.
  - intros Hp. symmetry. by apply seatSequence_plain.
Qed.

Lemma X6_available_seats_witness :
  Notions.allSeatIds Notions.examplePlain
  = Spec.seatSequence Notions.examplePlain.
Proof.
  apply (proj2 (proj2 (X6_available_seats Notions.examplePlain))).
  by repeat split.
Defined.

(** X7. On a deck without entrance and table rows, with at least one
    main-deck row and with every empty space being a seat of the decks,
    the total that [getTotalSeats] shows is the number of seats that get
    a number. *)
Theorem X7_total_seats (config : BusConfig) :
  Notions.plainGeometry config →
  (1 ≤ mainDeckRows config)%nat →
  (∀ s, s ∈ emptySpaces config → s ∈ Spec.seatSequence config) →
  ConfiguratorAux.getTotalSeats config =
  Z.of_nat (Layout.seatNumberState config).1.
Proof.
  intros Hp Hrows Hsub. rewrite seatNumberMap_counter.
  pose proof (length_filter_not_in (emptySpaces config)
                (Spec.seatSequence config) (seatSequence_NoDup config) Hsub)
    as Hlen.
  rewrite (seatSequence_plain config Hp) in Hlen at 2.
  rewrite allSeatIds_length in Hlen by done.
  unfold ConfiguratorAux.getTotalSeats.
  destruct (hasUpperDeck config); lia.
Qed.

Lemma X7_total_seats_witness :
  ConfiguratorAux.getTotalSeats Notions.examplePlain =
  Z.of_nat (Layout.seatNumberState Notions.examplePlain).1.
Proof.
  apply X7_total_seats.
  - by repeat split.
  - vm_compute. repeat constructor.
  - intros s Hs. change (s ∈ ({["2B"]} : gset string)) in Hs.
    apply elem_of_singleton in Hs. subst s.
    apply list_elem_of_In. vm_compute. tauto.
Defined.

(** A stale empty space - one that is no seat of the decks - is still
    counted off the total. *)
Lemma getTotalSeats_stale_empty_space :
  let config := set_emptySpaces Notions.exampleNoEmpty {["9Z"]} in
  ConfiguratorAux.getTotalSeats config = 12%Z ∧
  (Layout.seatNumberState config).1 = 13.
Proof. by vm_compute. Qed.

(** ** Auto-assign: what the ledger holds afterwards *)

Section auto_assign_ledger.

Import Layout Configurator Notions.

Lemma assignPairs_S (f : list string) (sp : list Person) n
    (m : gmap string string) :
  assignPairs f sp (S n) m =
  match f !! n, sp !! n with
  | Some seat, Some p => <[seat := id p]> (assignPairs f sp n m)
  | _, _ => assignPairs f sp n m
  end.
Proof. unfold assignPairs. by rewrite seq_S, foldl_app. Qed.

Lemma assignPairs_lookup_other (f : list string) (sp : list Person) n
    (m : gmap string string) s :
  (∀ i, i < n → f !! i ≠ Some s) → assignPairs f sp n m !! s = m !! s.
Proof.
  induction n as [|n IH]; intros Hs; [done|].
  assert (assignPairs f sp n m !! s = m !! s) as IH'
    by (apply IH; intros i Hi; apply Hs; lia).
  rewrite assignPairs_S.
  destruct (f !! n) as [seat|] eqn:Ef; [|done].
  destruct (sp !! n) as [p|]; [|done].
  rewrite lookup_insert_ne; [done|].
  intros ->. by apply (Hs n); [lia|].
Qed.

Lemma assignPairs_lookup (f : list string) (sp : list Person) n
    (m : gmap string string) i seat p :
  NoDup f → i < n → f !! i = Some seat → sp !! i = Some p →
  assignPairs f sp n m !! seat = Some (id p).
Proof.
  intros Hnd. induction n as [|n IH]; intros Hi Hf Hp; [lia|].
  rewrite assignPairs_S.
  destruct (decide (i = n)) as [->|Hne].
  - rewrite Hf, Hp. apply lookup_insert_eq.
  - assert (assignPairs f sp n m !! seat = Some (id p)) as IH'
      by (apply IH; [lia|done..]).
    destruct (f !! n) as [seat'|] eqn:Ef; [|done].
    destruct (sp !! n) as [p'|]; [|done].
    rewrite lookup_insert_ne; [done|].
    intros ->. apply Hne. by eapply NoDup_lookup.
Qed.

Lemma assignPairs_size (f : list string) (sp : list Person) n
    (m : gmap string string) :
  NoDup f → (∀ s, s ∈ f → m !! s = None) →
  (n ≤ length f)%nat → (n ≤ length sp)%nat →
  size (assignPairs f sp n m) = size m + n.
Proof.
  intros Hnd Hfree. induction n as [|n IH]; intros Hf Hsp;
    [by rewrite Nat.add_0_r|].
  rewrite assignPairs_S.
  destruct (lookup_lt_is_Some_2 f n) as [seat Hseat]; [lia|].
  destruct (lookup_lt_is_Some_2 sp n) as [p Hp]; [lia|].
  rewrite Hseat, Hp, map_size_insert_None; [rewrite IH by lia; lia|].
  rewrite assignPairs_lookup_other.
  - apply Hfree. by eapply list_elem_of_lookup_2.
  - intros i Hi Hi'. assert (i = n) by (by eapply NoDup_lookup). lia.
Qed.

Lemma getAvailableSeats_NoDup (config : BusConfig) :
  NoDup (getAvailableSeats config).
Proof. rewrite getAvailableSeats_filter. apply NoDup_filter, allSeatIds_NoDup. Qed.

Lemma freeSeatsOf_NoDup (config : BusConfig) : NoDup (freeSeatsOf config).
Proof. apply NoDup_filter, getAvailableSeats_NoDup. Qed.

Lemma freeSeatsOf_free (config : BusConfig) s :
  s ∈ freeSeatsOf config → seatAssignments config !! s = None.
Proof. by intros [? _]%list_elem_of_filter. Qed.

Lemma assignedIds_elem (L : gmap string string) q :
  q ∈ assignedIds L ↔ ∃ s, L !! s = Some q.
Proof.
  unfold assignedIds. rewrite list_elem_of_In, in_map_iff. split.
  - intros ([s q'] & <- & Hin). exists s.
    by apply elem_of_map_to_list, list_elem_of_In.
  - intros [s Hs]. exists (s, q). split; [done|].
    by apply list_elem_of_In, elem_of_map_to_list.
Qed.

Lemma unassignedPeopleOf_elem (config : BusConfig) p :
  p ∈ unassignedPeopleOf config ↔
  p ∈ people config ∧ ∀ s, seatAssignments config !! s ≠ Some (id p).
Proof.
  unfold unassignedPeopleOf. rewrite list_elem_of_filter.
  change (map snd (map_to_list (seatAssignments config)))
    with (assignedIds (seatAssignments config)).
  rewrite assignedIds_elem. split.
  - intros [Hn Hp]. split; [done|]. intros s Hs. apply Hn. by exists s.
  - intros [Hp Hn]. split; [|done]. intros [s Hs]. by apply (Hn s).
Qed.

Context `{DateParser}.

Lemma sortedPeopleOf_elem (config : BusConfig) p :
  p ∈ sortedPeopleOf config ↔ p ∈ unassignedPeopleOf config.
Proof. apply sort_elem. Qed.

Lemma autoAssign_new (config : BusConfig) i seat p :
  freeSeatsOf config !! i = Some seat → sortedPeopleOf config !! i = Some p →
  seatAssignments (autoAssignPeople config) !! seat = Some (id p).
Proof.
  intros Hf Hp. simpl.
  apply (assignPairs_lookup _ _ _ _ i); [apply freeSeatsOf_NoDup| |done..].
  apply lookup_lt_Some in Hf. apply lookup_lt_Some in Hp. lia.
Qed.

Lemma autoAssign_old (config : BusConfig) s q :
  seatAssignments config !! s = Some q →
  seatAssignments (autoAssignPeople config) !! s = Some q.
Proof.
  intros Hs. simpl. rewrite assignPairs_lookup_other; [done|].
  intros i _ Hi. apply list_elem_of_lookup_2, freeSeatsOf_free in Hi.
  congruence.
Qed.

Lemma assignPairs_inv (f : list string) (sp : list Person) n
    (m : gmap string string) s q :
  assignPairs f sp n m !! s = Some q →
  m !! s = Some q ∨
  ∃ i p, i < n ∧ f !! i = Some s ∧ sp !! i = Some p ∧ q = id p.
Proof.
  induction n as [|n IH]; [by left|].
  rewrite assignPairs_S. intros Hq.
  assert (assignPairs f sp n m !! s = Some q →
          m !! s = Some q ∨
          ∃ i p, i < S n ∧ f !! i = Some s ∧ sp !! i = Some p ∧ q = id p)
    as IH'.
  { intros [?|(i & p & ? & ?)]%IH; [by left|].
    right. exists i, p. split; [lia|done]. }
  destruct (f !! n) as [seat|] eqn:Ef; [|by apply IH'].
  destruct (sp !! n) as [p|] eqn:Ep; [|by apply IH'].
  destruct (decide (seat = s)) as [->|Hne].
  - rewrite lookup_insert_eq in Hq. injection Hq as <-.
    right. exists n, p. by split; [lia|].
  - rewrite lookup_insert_ne in Hq by done. by apply IH'.
Qed.

Lemma autoAssign_inv (config : BusConfig) s q :
  seatAssignments (autoAssignPeople config) !! s = Some q →
  seatAssignments config !! s = Some q ∨
  ∃ i p, freeSeatsOf config !! i = Some s ∧
         sortedPeopleOf config !! i = Some p ∧ q = id p.
Proof.
  simpl. intros [?|(i & p & _ & ?)]%assignPairs_inv; [by left|].
  right. by exists i, p.
Qed.

Lemma NoDup_filter_ids (P : Person → Prop) `{∀ p, Decision (P p)}
    (l : list Person) :
  NoDup (id <$> l) → NoDup (id <$> filter P l).
Proof.
  intros Hnd. eapply sublist_NoDup; [exact Hnd|].
  apply fmap_sublist, sublist_filter.
Qed.

Lemma sortedPeopleOf_ids_NoDup (config : BusConfig) :
  NoDup (id <$> people config) → NoDup (id <$> sortedPeopleOf config).
Proof.
  intros Hnd. unfold sortedPeopleOf.
  rewrite (sort_Permutation byBirthDate (unassignedPeopleOf config)).
  by apply NoDup_filter_ids.
Qed.

Lemma unique_autoAssignPeople (config : BusConfig) :
  App.unique (seatAssignments config) → NoDup (id <$> people config) →
  App.unique (seatAssignments (autoAssignPeople config)).
Proof.
  intros Hu Hnd s1 s2 q H1 H2.
  assert (∀ i p s, sortedPeopleOf config !! i = Some p →
                   seatAssignments config !! s ≠ Some (id p)) as Hfresh.
  { intros i p s Hp. apply list_elem_of_lookup_2, sortedPeopleOf_elem,
      unassignedPeopleOf_elem in Hp as [_ Hp]. apply Hp. }
  apply autoAssign_inv in H1 as [H1|(i1 & p1 & Hf1 & Hp1 & ->)];
    apply autoAssign_inv in H2 as [H2|(i2 & p2 & Hf2 & Hp2 & Heq)].
  - by apply (Hu s1 s2 q).
  - subst q. by destruct (Hfresh i2 p2 s1 Hp2).
  - by destruct (Hfresh i1 p1 s2 Hp1).
  - assert (i1 = i2) as ->.
    { apply (NoDup_lookup (id <$> sortedPeopleOf config) i1 i2 (id p1)).
      - by apply sortedPeopleOf_ids_NoDup.
      - by rewrite list_lookup_fmap, Hp1.
      - by rewrite list_lookup_fmap, Hp2, Heq. }
    congruence.
Qed.

Lemma autoAssign_size (config : BusConfig) :
  size (seatAssignments (autoAssignPeople config)) =
  size (seatAssignments config) +
  Nat.min (length (unassignedPeopleOf config)) (length (freeSeatsOf config)).
Proof.
  simpl. rewrite assignPairs_size.
  - unfold sortedPeopleOf. by rewrite sort_length.
  - apply freeSeatsOf_NoDup.
  - apply freeSeatsOf_free.
  - lia.
  - lia.
Qed.

Lemma set_seatAssignments_same (config : BusConfig) :
  set_seatAssignments config (seatAssignments config) = config.
Proof. by destruct config. Qed.

Lemma filter_nil_Forall {A} (P : A → Prop) `{∀ x, Decision (P x)}
    (l : list A) :
  (∀ x, x ∈ l → ¬ P x) → filter P l = [].
Proof.
  induction l as [|x l IH]; intros Hl; [done|].
  rewrite filter_cons_False by (apply Hl; left).
  apply IH. intros y Hy. apply Hl. by right.
Qed.

Lemma autoAssign_nothing_left (config : BusConfig) :
  unassignedPeopleOf (autoAssignPeople config) = [] ∨
  freeSeatsOf (autoAssignPeople config) = [].
Proof.
  destruct (decide (length (sortedPeopleOf config)
                    ≤ length (freeSeatsOf config))%nat) as [Hle|Hgt].
  - left. apply filter_nil_Forall. intros p Hp Hn. apply Hn.
    apply assignedIds_elem.
    destruct (decide (id p ∈ assignedIds (seatAssignments config)))
      as [[s Hs]%assignedIds_elem|Hno].
    + exists s. by apply autoAssign_old.
    + assert (p ∈ unassignedPeopleOf config) as Hun
        by (by apply list_elem_of_filter).
      apply sortedPeopleOf_elem, list_elem_of_lookup in Hun as [i Hi].
      destruct (lookup_lt_is_Some_2 (freeSeatsOf config) i) as [seat Hseat].
      { apply lookup_lt_Some in Hi. lia. }
      exists seat. by apply (autoAssign_new config i).
  - right. apply filter_nil_Forall. intros s Hs Hnone.
    change (getAvailableSeats (autoAssignPeople config))
      with (getAvailableSeats config) in Hs.
    destruct (seatAssignments config !! s) as [q|] eqn:Eq.
    + by rewrite (autoAssign_old config s q) in Hnone.
    + assert (s ∈ freeSeatsOf config) as [i Hi]%list_elem_of_lookup
        by (by apply list_elem_of_filter).
      destruct (lookup_lt_is_Some_2 (sortedPeopleOf config) i) as [p Hp].
      { apply lookup_lt_Some in Hi. lia. }
      by rewrite (autoAssign_new config i s p) in Hnone.
Qed.

Lemma autoAssign_idempotent (config : BusConfig) :
  autoAssignPeople (autoAssignPeople config) = autoAssignPeople config.
Proof.
  set (c' := autoAssignPeople config).
  rewrite <- (set_seatAssignments_same c') at 2.
  unfold autoAssignPeople at 1. f_equal.
  destruct (autoAssign_nothing_left config) as [Hu|Hf]; fold c' in Hu || fold c' in Hf.
  - unfold sortedPeopleOf. rewrite Hu. done.
  - rewrite Hf, Nat.min_0_r. done.
Qed.

End auto_assign_ledger.

(** X8. After auto-assign, the i-th free seat holds the i-th person of
    the sorted unseated people, for every i at which both exist; every
    entry the ledger had is kept; and the ledger holds nothing else. *)
Theorem X8_auto_assign_ledger `{DateParser} (config : BusConfig) :
  let free := Configurator.freeSeatsOf config in
  let sorted := Configurator.sortedPeopleOf config in
  let after := seatAssignments (Configurator.autoAssignPeople config) in
  (∀ i seat p, free !! i = Some seat → sorted !! i = Some p →
     after !! seat = Some (id p)) ∧
  (∀ s q, seatAssignments config !! s = Some q → after !! s = Some q) ∧
  (∀ s q, after !! s = Some q →
     seatAssignments config !! s = Some q ∨
     ∃ i p, free !! i = Some s ∧ sorted !! i = Some p ∧ q = id p).
Proof.
  intros free sorted after. split; [|split].
  - apply autoAssign_new.
  - apply autoAssign_old.
  - apply autoAssign_inv.
Qed.

Lemma X8_auto_assign_ledger_witness :
  seatAssignments
    (Configurator.autoAssignPeople (H := IsoDate.parser) Notions.examplePlain)
    !! "1C" = Some "p2".
Proof.
  apply (proj1 (X8_auto_assign_ledger (H := IsoDate.parser)
                  Notions.examplePlain) 0 "1C"
           (mkPerson "p2" "Bob" (Some "1999-03-03") None)).
  - by vm_compute.
  - by vm_compute.
Defined.

(** X9. Auto-assign keeps the ledger free of a person seated twice,
    provided the ids of the roster are pairwise different. *)
Theorem X9_auto_assign_unique `{DateParser} (config : BusConfig) :
  App.unique (seatAssignments config) →
  NoDup (id <$> people config) →
  App.unique (seatAssignments (Configurator.autoAssignPeople config)).
Proof. apply unique_autoAssignPeople. Qed.

Lemma X9_auto_assign_unique_witness :
  App.unique
    (seatAssignments
       (Configurator.autoAssignPeople (H := IsoDate.parser)
          Notions.examplePlain)).
Proof.
  apply (X9_auto_assign_unique (H := IsoDate.parser) Notions.examplePlain).
  - intros s1 s2 p H1 H2.
    change (({["1B" := "p1"]} : gmap string string) !! s1 = Some p) in H1.
    change (({["1B" := "p1"]} : gmap string string) !! s2 = Some p) in H2.
    apply lookup_singleton_Some in H1 as [<- _].
    by apply lookup_singleton_Some in H2 as [<- _].
  - apply (bool_decide_unpack _). by vm_compute.
Defined.

(** X10. Auto-assign adds as many entries to the ledger as there are
    unseated people or free seats, whichever is fewer. *)
Theorem X10_auto_assign_count `{DateParser} (config : BusConfig) :
  size (seatAssignments (Configurator.autoAssignPeople config)) =
  size (seatAssignments config) +
  Nat.min (length (Configurator.unassignedPeopleOf config))
          (length (Configurator.freeSeatsOf config)).
Proof. apply autoAssign_size. Qed.

(** X11. After auto-assign nobody of the roster is unseated or no seat is
    free, so a second auto-assign changes nothing. *)
Theorem X11_auto_assign_twice `{DateParser} (config : BusConfig) :
  (Configurator.unassignedPeopleOf (Configurator.autoAssignPeople config) = []
   ∨ Configurator.freeSeatsOf (Configurator.autoAssignPeople config) = []) ∧
  Configurator.autoAssignPeople (Configurator.autoAssignPeople config) =
  Configurator.autoAssignPeople config.
Proof.
  split; [apply autoAssign_nothing_left|apply autoAssign_idempotent].
Qed.

(** ** Drops: from the list, on the people panel, on a free seat *)

Section drops.

Import Layout Configurator.

Lemma handleDragEnd_people_drop (config : BusConfig) data :
  dtype data = "person" →
  handleDragEnd config (mkDragEndEvent (Some data) (Some "people-drop")) =
  match fromSeatId data with
  | Some from =>
      if JS.truthyS from
      then set_seatAssignments config (delete from (seatAssignments config))
      else config
  | None => config
  end.
Proof. intros Ht. unfold handleDragEnd. simpl. by rewrite Ht. Qed.

Lemma onSeatAssignment_person (config : BusConfig) seatId pid from :
  pid ≠ "" →
  seatAssignments (onSeatAssignment config seatId (Some pid) from) =
  match from with
  | Some from =>
      if JS.truthyS from
      then moveOrSwap (seatAssignments config) from seatId pid
      else assignFromList (seatAssignments config) seatId pid
  | None => assignFromList (seatAssignments config) seatId pid
  end.
Proof. intros Hp. simpl. by rewrite truthyS_true. Qed.


Lemma moveOrSwap_free (L : gmap string string) A B P :
  L !! A = Some P → L !! B = None →
  moveOrSwap L A B P = <[B := P]> (delete A L) ∧
  size (moveOrSwap L A B P) = size L.
Proof.
  intros HA HB. assert (A ≠ B) as Hne by congruence.
  unfold moveOrSwap. rewrite HB.
  rewrite delete_insert_ne by done. split; [done|].
  rewrite map_size_insert_None by (by rewrite lookup_delete_ne).
  rewrite map_size_delete_Some by eauto.
  assert (size L ≠ 0); [|lia].
  intros Hz%map_size_empty_inv. by rewrite Hz in HA.
Qed.

Lemma onToggleTourGuideSeat_elem (config : BusConfig) seatId s :
  s ∈ tourGuideSeats (onToggleTourGuideSeat config seatId) ↔
  (s ≠ seatId ∧ s ∈ tourGuideSeats config) ∨
  (s = seatId ∧ seatId ∉ tourGuideSeats config).
Proof.
  simpl. case_bool_decide as Hin.
  - rewrite list_elem_of_filter. split; [by left|].
    intros [?|[-> ?]]; done.
  - rewrite elem_of_app, list_elem_of_singleton. split.
    + intros [Hs| ->]; [left|by right]. split; [|done]. by intros ->.
    + intros [[_ ?]|[-> _]]; auto.
Qed.

Lemma filter_ne_notin (l : list string) x :
  x ∉ l → filter (λ seat, seat ≠ x) l = l.
Proof.
  induction l as [|y l IH]; intros Hx; [done|].
  apply not_elem_of_cons in Hx as [Hxy Hx].
  rewrite filter_cons_True by done. by rewrite IH.
Qed.

Lemma onToggleTourGuideSeat_twice (config : BusConfig) seatId :
  seatId ∉ tourGuideSeats config →
  onToggleTourGuideSeat (onToggleTourGuideSeat config seatId) seatId = config.
Proof.
  intros Hn. destruct config as [r u h w er tr uer tg dr E sn pp L].
  unfold onToggleTourGuideSeat, set_tourGuideSeats. simpl in *.
  f_equal. rewrite (bool_decide_eq_false_2 (seatId ∈ tg)) by done.
  rewrite bool_decide_eq_true_2
    by (apply elem_of_app; right; by apply list_elem_of_singleton).
  rewrite filter_app, filter_ne_notin by done.
  rewrite filter_cons_False by auto. by rewrite filter_nil, app_nil_r.
Qed.

End drops.



(** X13. A drop on the people panel deletes the ledger entry of the seat
    the payload names as its source, whoever the payload says the person
    is, and touches nothing else; a payload without a source seat leaves
    the configuration as it is. *)
Theorem X13_drop_on_people_panel (config : BusConfig)
    (data : Layout.DragData) :
  Layout.dtype data = "person" →
  let after :=
    Configurator.handleDragEnd config
      (Configurator.mkDragEndEvent (Some data) (Some "people-drop")) in
  (∀ from, Layout.fromSeatId data = Some from → from ≠ "" →
     after = set_seatAssignments config (delete from (seatAssignments config))
     ∧ seatAssignments after !! from = None
     ∧ ∀ s, s ≠ from →
            seatAssignments after !! s = seatAssignments config !! s) ∧
  (Layout.fromSeatId data = None ∨ Layout.fromSeatId data = Some "" →
   after = config).
Proof.
  intros Ht after. unfold after. rewrite handleDragEnd_people_drop by done.
  split.
  - intros from -> Hf. rewrite truthyS_true by done. simpl.
    split; [done|]. split; [apply lookup_delete_eq|].
    intros s Hs. by rewrite lookup_delete_ne.
  - by intros [-> | ->].
Qed.

Lemma X13_drop_on_people_panel_witness :
  Configurator.handleDragEnd Spec.exampleTwoSeated
    (Configurator.mkDragEndEvent
       (Some (Layout.mkDragData "person" "p1" None)) (Some "people-drop"))
  = Spec.exampleTwoSeated.
Proof.
  apply (proj2 (X13_drop_on_people_panel Spec.exampleTwoSeated
                  (Layout.mkDragData "person" "p1" None) eq_refl)).
  by left.
Defined.

(** X14. A drag that ends over nothing, carries no data, or carries data
    of another type than "person" changes nothing. *)
Theorem X14_ignored_drag (config : BusConfig)
    (event : Configurator.DragEndEvent) :
  Configurator.over event = None ∨
  Configurator.active_data event = None ∨
  (∃ data, Configurator.active_data event = Some data ∧
           Layout.dtype data ≠ "person") →
  Configurator.handleDragEnd config event = config.
Proof.
  unfold Configurator.handleDragEnd.
  intros [->|[->|(data & -> & Ht)]].
  - done.
  - by destruct (Configurator.over event).
  - destruct (Configurator.over event); [|done].
    by rewrite bool_decide_eq_true_2.
Qed.

Lemma X14_ignored_drag_witness :
  Configurator.handleDragEnd Spec.exampleTwoSeated
    (Configurator.mkDragEndEvent
       (Some (Layout.mkDragData "seat" "p1" (Some "1A"))) (Some "1C"))
  = Spec.exampleTwoSeated.
Proof.
  apply X14_ignored_drag. right. right.
  exists (Layout.mkDragData "seat" "p1" (Some "1A")).
  split; [reflexivity|discriminate].
Defined.

(** X15. A seated person dropped on a free seat that is not blocked moves
    there: the target holds the person, the source seat is free, every
    other seat is as before and the ledger has as many entries as
    before. *)
Theorem X15_move_to_free_seat (config : BusConfig) (A B P : string) :
  seatAssignments config !! A = Some P →
  seatAssignments config !! B = None →
  A ≠ "" → B ≠ "people-drop" →
  B ∉ emptySpaces config → B ∉ tourGuideSeats config →
  ∀ after : gmap string string,
    after = seatAssignments
              (Configurator.handleDragEnd config
                 (Configurator.mkDragEndEvent
                    (Some (Layout.mkDragData "person" P (Some A))) (Some B)))
    ∨ (P ≠ "" ∧
       after = seatAssignments
                 (Configurator.onSeatAssignment config B (Some P) (Some A)))
    →
    after !! B = Some P ∧ after !! A = None ∧
    (∀ s, s ≠ A → s ≠ B → after !! s = seatAssignments config !! s) ∧
    size after = size (seatAssignments config).
Proof.
  intros HA HB HAne HBp HE HT after Hafter.
  assert (A ≠ B) as Hne by congruence.
  assert (after = Configurator.moveOrSwap (seatAssignments config) A B P)
    as ->.
  { destruct Hafter as [->|[Hpid ->]].
    - rewrite handleDragEnd_seat by done. simpl. by rewrite truthyS_true.
    - rewrite onSeatAssignment_person by done. by rewrite truthyS_true. }
  destruct (moveOrSwap_free _ A B P HA HB) as [-> Hsize].
  split; [apply lookup_insert_eq|]. split; [|split].
  - rewrite lookup_insert_ne by done. apply lookup_delete_eq.
  - intros s HsA HsB. rewrite lookup_insert_ne by done.
    by rewrite lookup_delete_ne.
  - exact Hsize.
Qed.

Lemma X15_move_to_free_seat_witness :
  let after :=
    seatAssignments
      (Configurator.handleDragEnd Spec.exampleTwoSeated
         (Configurator.mkDragEndEvent
            (Some (Layout.mkDragData "person" "p1" (Some "1A")))
            (Some "1C"))) in
  after !! "1C" = Some "p1" ∧ after !! "1A" = None ∧
  (∀ s, s ≠ "1A" → s ≠ "1C" →
        after !! s = seatAssignments Spec.exampleTwoSeated !! s) ∧
  size after = size (seatAssignments Spec.exampleTwoSeated).
Proof.
  assert ("1C" ∉ emptySpaces Spec.exampleTwoSeated) as H1.
  { intros H. apply (bool_decide_pack _) in H. by vm_compute in H. }
  assert ("1C" ∉ tourGuideSeats Spec.exampleTwoSeated) as H2.
  { intros H. list_absurd H. }
  apply (X15_move_to_free_seat Spec.exampleTwoSeated "1A" "1C" "p1"
           eq_refl eq_refl); [discriminate|discriminate|done|done|by left].
Defined.

(** X16. The tour-guide toggle flips the marking of the one seat and
    leaves the marking of the others: a marked seat is taken off the
    list, an unmarked one is appended.  Toggling an unmarked seat twice
    gives back the configuration.  A seat just marked keeps its number,
    is not offered to auto-assign and refuses every drop. *)
Theorem X16_toggle_tour_guide (config : BusConfig) (seatId : string) :
  let config' := Configurator.onToggleTourGuideSeat config seatId in
  (∀ s, s ∈ tourGuideSeats config' ↔
        (s ≠ seatId ∧ s ∈ tourGuideSeats config) ∨
        (s = seatId ∧ seatId ∉ tourGuideSeats config)) ∧
  (seatId ∈ tourGuideSeats config →
   tourGuideSeats config' =
     TourGuide.removeTourGuideSeat (tourGuideSeats config) seatId) ∧
  (seatId ∉ tourGuideSeats config →
   Configurator.onToggleTourGuideSeat config' seatId = config ∧
   Layout.seatNumberMap config' = Layout.seatNumberMap config ∧
   (seatId ∉ Configurator.getAvailableSeats config') ∧
   (seatId ≠ "people-drop" →
    ∀ event, Configurator.over event = Some seatId →
             Configurator.handleDragEnd config' event = config')).
Proof.
  intros config'. split; [apply onToggleTourGuideSeat_elem|]. split.
  - intros Hin. unfold config', Configurator.onToggleTourGuideSeat. simpl.
    by rewrite bool_decide_eq_true_2.
  - intros Hn.
    assert (seatId ∈ tourGuideSeats config') as Hin'
      by (apply onToggleTourGuideSeat_elem; by right).
    split; [by apply onToggleTourGuideSeat_twice|].
    split; [done|]. split.
    + rewrite getAvailableSeats_filter.
      by intros [[_ ?] _]%list_elem_of_filter.
    + intros Hp event Ho.
      apply (handleDragEnd_blocked _ _ seatId); auto.
Qed.

Lemma X16_toggle_tour_guide_witness :
  Configurator.onToggleTourGuideSeat
    (Configurator.onToggleTourGuideSeat Spec.exampleTwoSeated "4A") "4A"
  = Spec.exampleTwoSeated.
Proof.
  assert ("4A" ∉ tourGuideSeats Spec.exampleTwoSeated) as Hn.
  { intros H. list_absurd H. }
  exact (proj1 (proj2 (proj2
           (X16_toggle_tour_guide Spec.exampleTwoSeated "4A")) Hn)).
Defined.

(** ** The roster: adding, removing, sorting *)

Section roster.

Import People Notions.

Lemma removePerson_elem (people : list Person) id0 p :
  p ∈ removePerson people id0 ↔ p ∈ people ∧ id p ≠ id0.
Proof. unfold removePerson. rewrite list_elem_of_filter. tauto. Qed.

Lemma removePerson_fresh (people : list Person) id0 :
  (∀ p, p ∈ people → id p ≠ id0) → removePerson people id0 = people.
Proof.
  induction people as [|q people IH]; intros Hf; [done|].
  unfold removePerson. rewrite filter_cons_True by (apply Hf; left).
  f_equal. apply IH. intros p Hp. apply Hf. by right.
Qed.

Lemma addPerson_nonblank (people : list Person) dateNow newPersonName :
  JS.trim newPersonName ≠ "" →
  addPerson people dateNow newPersonName =
  people ++ [mkPerson (JS.String_N dateNow) (JS.trim newPersonName)
               None None].
Proof. intros Hn. unfold addPerson. by rewrite truthyS_true. Qed.

End roster.

Section sorted_input.

Context {A : Type} (comparefn : A → A → Z).

(** Items that come in an order the comparator agrees with are each left
    where they are put. *)
Lemma insert_sorted_run (acc l : list A) :
  (∀ y x, y ∈ acc → x ∈ l → (comparefn y x ≤ 0)%Z) →
  StronglySorted (λ a b, (comparefn a b ≤ 0)%Z) l →
  foldl (λ revPrefix item, JSArray.insertItem comparefn item revPrefix)
        acc l = rev l ++ acc.
Proof.
  revert acc. induction l as [|x l IH]; intros acc Hacc Hs; [done|].
  apply StronglySorted_inv in Hs as [Hs Hx]. simpl.
  assert (JSArray.insertItem comparefn x acc = x :: acc) as ->.
  { destruct acc as [|y rest]; [done|]. simpl.
    rewrite (proj2 (Z.leb_le _ _)); [done|]. apply Hacc; left. }
  rewrite IH; [by rewrite <- app_assoc| |done].
  intros y z [->|Hy]%elem_of_cons Hz.
  - by apply (proj1 (Forall_forall _ _) Hx).
  - apply Hacc; [done|by right].
Qed.

Lemma sort_sorted (l : list A) :
  StronglySorted (λ a b, (comparefn a b ≤ 0)%Z) l →
  JSArray.sort comparefn l = l.
Proof.
  intros Hs. unfold JSArray.sort. rewrite insert_sorted_run.
  - by rewrite app_nil_r, rev_involutive.
  - intros y x Hy. by apply elem_of_nil in Hy.
  - done.
Qed.

Lemma StronglySorted_impl_in (R1 R2 : A → A → Prop) (l : list A) :
  (∀ x y, x ∈ l → y ∈ l → R1 x y → R2 x y) →
  StronglySorted R1 l → StronglySorted R2 l.
Proof.
  induction l as [|x l IH]; intros Himp Hs; [constructor|].
  apply StronglySorted_inv in Hs as [Hs Hx]. constructor.
  - apply IH; [|done]. intros a b Ha Hb. apply Himp; by right.
  - apply Forall_forall. intros y Hy. apply Himp; [left|by right|].
    by apply (proj1 (Forall_forall _ _) Hx).
Qed.

Lemma StronglySorted_all (R : A → A → Prop) (l : list A) :
  (∀ x y, x ∈ l → y ∈ l → R x y) → StronglySorted R l.
Proof.
  induction l as [|x l IH]; intros HR; [constructor|]. constructor.
  - apply IH. intros a b Ha Hb. apply HR; by right.
  - apply Forall_forall. intros y Hy. apply HR; [left|by right].
Qed.

End sorted_input.

Section sort_people.

Import People Notions.
Context `{DateParser}.

Lemma byBirthDate_undated (a b : Person) :
  JS.truthy (birthDate a) = false ∨ JS.truthy (birthDate b) = false →
  byBirthDate a b = 0%Z.
Proof.
  unfold byBirthDate. intros [-> | ->]; [done|].
  by rewrite orb_true_r.
Qed.

Lemma byBirthDate_key (people : list Person) a b :
  allDated people → a ∈ people → b ∈ people →
  byBirthDate a b = (birthKey a - birthKey b)%Z.
Proof.
  intros Hall Ha Hb. unfold birthKey.
  destruct (Hall a Ha) as [ta Hta]. destruct (Hall b Hb) as [tb Htb].
  rewrite (byBirthDate_dated a b ta tb) by done. by rewrite Hta, Htb.
Qed.

Lemma sortPeopleByBirth_dated (people : list Person) :
  allDated people →
  StronglySorted (λ a b, (birthKey a ≤ birthKey b)%Z)
                 (sortPeopleByBirth people) ∧
  (∀ k, filter (λ p, birthKey p = k) (sortPeopleByBirth people) =
        filter (λ p, birthKey p = k) people) ∧
  sortPeopleByBirth (sortPeopleByBirth people) = sortPeopleByBirth people.
Proof.
  intros Hall.
  destruct (sort_by_key byBirthDate birthKey people) as [Hs Hf].
  { intros a b. by apply byBirthDate_key. }
  split; [done|]. split; [done|].
  apply sort_sorted.
  apply (StronglySorted_impl_in (λ a b, (birthKey a ≤ birthKey b)%Z));
    [|done].
  intros a b Ha%sort_elem Hb%sort_elem Hle.
  rewrite (byBirthDate_key people) by done. lia.
Qed.

Lemma sortPeopleByBirth_undated (people : list Person) :
  (∀ p, p ∈ people → JS.truthy (birthDate p) = false) →
  sortPeopleByBirth people = people.
Proof.
  intros Hno. apply sort_sorted, StronglySorted_all.
  intros a b Ha Hb. rewrite byBirthDate_undated; [done|]. left. by apply Hno.
Qed.

End sort_people.

(** X17. Adding a person whose name is blank after trimming changes
    nothing; otherwise the roster grows at its end by a person with the
    trimmed name and the clock reading as id.  Removing by id takes every
    person with that id off the roster and nobody else, so removing twice
    is removing once, and removing a person just added under a fresh id
    gives back the roster. *)
Theorem X17_add_remove_person (people : list Person) (dateNow : N)
    (newPersonName : string) :
  let added := People.addPerson people dateNow newPersonName in
  (JS.trim newPersonName = "" → added = people) ∧
  (JS.trim newPersonName ≠ "" →
   added = people ++ [mkPerson (JS.String_N dateNow)
                        (JS.trim newPersonName) None None] ∧
   ((∀ p, p ∈ people → id p ≠ JS.String_N dateNow) →
    People.removePerson added (JS.String_N dateNow) = people)) ∧
  (∀ id0 p, p ∈ People.removePerson people id0 ↔ p ∈ people ∧ id p ≠ id0) ∧
  (∀ id0, People.removePerson (People.removePerson people id0) id0 =
          People.removePerson people id0).
Proof.
  intros added. split; [|split; [|split]].
  - intros Hb. unfold added, People.addPerson. by rewrite Hb.
  - intros Hn. unfold added. rewrite addPerson_nonblank by done.
    split; [done|]. intros Hfresh.
    unfold People.removePerson. rewrite filter_app.
    rewrite filter_cons_False by (simpl; auto).
    rewrite filter_nil, app_nil_r. by apply removePerson_fresh.
  - apply removePerson_elem.
  - intros id0. apply removePerson_fresh.
    by intros p [_ ?]%removePerson_elem.
Qed.

Lemma X17_add_remove_person_witness :
  People.removePerson
    (People.addPerson (people Spec.exampleTwoSeated) 1758828000000 " Cy ")
    (JS.String_N 1758828000000)
  = people Spec.exampleTwoSeated.
Proof.
  assert (JS.trim " Cy " ≠ "") as Hn by (vm_compute; discriminate).
  apply (proj2 (proj1 (proj2
           (X17_add_remove_person (people Spec.exampleTwoSeated)
              1758828000000 " Cy ")) Hn)).
  intros p Hp. apply list_elem_of_In in Hp. vm_compute in Hp.
  destruct Hp as [<-|[<-|[]]]; vm_compute; discriminate.
Defined.

(** X19. Sorting the roster by birth date permutes it.  If nobody has a
    birth date the roster is left as it is.  If everybody has one that
    the host reads, the result is in ascending order of birth time with
    people of one birth time in their old order, and sorting again
    changes nothing. *)
Theorem X19_sort_people_by_birth `{DateParser} (people : list Person) :
  People.sortPeopleByBirth people ≡ₚ people ∧
  ((∀ p, p ∈ people → JS.truthy (birthDate p) = false) →
   People.sortPeopleByBirth people = people) ∧
  (Notions.allDated people →
   StronglySorted (λ a b, (Notions.birthKey a ≤ Notions.birthKey b)%Z)
                  (People.sortPeopleByBirth people) ∧
   (∀ k, filter (λ p, Notions.birthKey p = k)
                (People.sortPeopleByBirth people) =
         filter (λ p, Notions.birthKey p = k) people) ∧
   People.sortPeopleByBirth (People.sortPeopleByBirth people) =
     People.sortPeopleByBirth people).
Proof.
  split; [apply sort_Permutation|]. split.
  - apply sortPeopleByBirth_undated.
  - apply sortPeopleByBirth_dated.
Qed.

Lemma X19_sort_people_by_birth_witness :
  People.sortPeopleByBirth (H := IsoDate.parser)
    (People.sortPeopleByBirth (H := IsoDate.parser)
       (people Notions.examplePlain))
  = People.sortPeopleByBirth (H := IsoDate.parser)
      (people Notions.examplePlain).
Proof.
  apply (proj2 (proj2 (X19_sort_people_by_birth (H := IsoDate.parser)
                         (people Notions.examplePlain)))).
  intros p Hp. apply list_elem_of_In in Hp. vm_compute in Hp.
  destruct Hp as [<-|[<-|[<-|[]]]]; vm_compute; eauto.
Defined.

(** X18. The id of an added person is the clock reading alone: two
    people added under the same reading get the same id, and auto-assign
    then puts that id on two seats. *)
Theorem X18_same_clock_same_id `{DateParser} (dateNow : N)
    (name1 name2 : string) :
  JS.trim name1 ≠ "" → JS.trim name2 ≠ "" →
  let config :=
    App.run Configurator.initialConfig
      [App.AddPerson dateNow name1; App.AddPerson dateNow name2;
       App.AutoAssign] in
  id <$> people config = [JS.String_N dateNow; JS.String_N dateNow] ∧
  seatAssignments config !! "1A" = Some (JS.String_N dateNow) ∧
  seatAssignments config !! "1B" = Some (JS.String_N dateNow) ∧
  ¬ App.unique (seatAssignments config).
Proof.
  intros H1 H2 config.
  assert (seatAssignments config !! "1A" = Some (JS.String_N dateNow) ∧
          seatAssignments config !! "1B" = Some (JS.String_N dateNow))
    as [HA HB].
  { unfold config, App.run. cbn [foldl App.step].
    rewrite !addPerson_nonblank by done.
    generalize (JS.String_N dateNow) (JS.trim name1) (JS.trim name2).
    intros i n1 n2. split.
    - apply (autoAssign_new _ 0 "1A" (mkPerson i n1 None None));
        by vm_compute.
    - apply (autoAssign_new _ 1 "1B" (mkPerson i n2 None None));
        by vm_compute. }
  split; [|split; [done|split; [done|]]].
  - unfold config, App.run. cbn [foldl App.step].
    by rewrite !addPerson_nonblank.
  - intros Hu. by specialize (Hu "1A" "1B" _ HA HB).
Qed.

Lemma X18_same_clock_same_id_witness :
  ¬ App.unique
      (seatAssignments
         (App.run (H := IsoDate.parser) Configurator.initialConfig
            [App.AddPerson 1758828000000 "Ann";
             App.AddPerson 1758828000000 "Bob"; App.AutoAssign])).
Proof.
  apply (X18_same_clock_same_id (H := IsoDate.parser) 1758828000000
           "Ann" "Bob"); vm_compute; discriminate.
Defined.

(** ** The label of the tour-guide panel *)

Section tour_guide_label.

Import Layout TourGuide Notions.

Lemma append_cons (a : ascii) (s1 s2 : string) :
  String a s1 +:+ s2 = String a (s1 +:+ s2).
Proof. reflexivity. Qed.

Lemma append_nil_l (s : string) : "" +:+ s = s.
Proof. reflexivity. Qed.

Lemma append_String_assoc (s1 s2 : string) (c : ascii) :
  (s1 +:+ String c "") +:+ s2 = s1 +:+ String c s2.
Proof.
  induction s1 as [|a s1 IH]; [done|]. rewrite !append_cons. by rewrite IH.
Qed.

Lemma append_empty_r (s : string) : s +:+ "" = s.
Proof.
  induction s as [|a s IH]; [done|]. rewrite append_cons. by rewrite IH.
Qed.

Lemma unsnoc_append (s : string) (c : ascii) :
  unsnoc (s +:+ String c "") = Some (s, c).
Proof.
  induction s as [|a s IH]; [done|]. rewrite append_cons. simpl.
  by rewrite IH.
Qed.

Lemma allDigits_append (s : string) (c : ascii) :
  JS.allDigits (s +:+ String c "") = JS.allDigits s && JS.isDigit c.
Proof.
  induction s as [|a s IH].
  - rewrite append_nil_l. simpl. by rewrite andb_true_r.
  - rewrite append_cons. simpl. by rewrite IH, andb_assoc.
Qed.

Lemma parseDigits_append (acc : Z) (s : string) (c : ascii) :
  parseDigits acc (s +:+ String c "") =
  (10 * parseDigits acc s + (Z.of_nat (nat_of_ascii c) - 48))%Z.
Proof.
  revert acc. induction s as [|a s IH]; intros acc; [done|].
  rewrite append_cons. simpl. apply IH.
Qed.

Lemma pretty_N_char_val (x : N) :
  (x < 10)%N →
  (Z.of_nat (nat_of_ascii (pretty_N_char x)) - 48)%Z = Z.of_N x.
Proof.
  intros Hx.
  assert (x = 0 ∨ x = 1 ∨ x = 2 ∨ x = 3 ∨ x = 4 ∨ x = 5 ∨ x = 6 ∨ x = 7
          ∨ x = 8 ∨ x = 9)%N as Hc by lia.
  by repeat (destruct Hc as [->|Hc]; [reflexivity|]); subst x.
Qed.

(** The digits that [pretty] puts in front read back as the number. *)
Lemma pretty_N_go_digits (x : N) (s : string) :
  ∃ d, pretty_N_go x s = d +:+ s ∧ JS.allDigits d = true ∧
       parseDigits 0 d = Z.of_N x ∧ ((0 < x)%N → d ≠ "").
Proof.
  revert s. induction (N.lt_wf_0 x) as [x _ IH]; intros s.
  assert (x = 0 ∨ 0 < x)%N as [->|Hx] by lia.
  - exists "". rewrite pretty_N_go_0. repeat split. lia.
  - rewrite pretty_N_go_step by done.
    destruct (IH (x `div` 10)%N (N.div_lt x 10 Hx eq_refl)
                (String (pretty_N_char (x `mod` 10)) s))
      as (d & Hd & Hall & Hval & _).
    exists (d +:+ String (pretty_N_char (x `mod` 10)) "").
    rewrite append_String_assoc, allDigits_append, parseDigits_append.
    rewrite Hall, Hval, pretty_N_char_digit.
    rewrite pretty_N_char_val by (by apply N.mod_lt).
    repeat split; [done| |by destruct d].
    rewrite (N.div_mod x 10) at 3 by done. lia.
Qed.

Lemma pretty_nat_digits (n : nat) :
  JS.test_digits (pretty n) = true ∧ parseDigits 0 (pretty n) = Z.of_nat n.
Proof.
  unfold pretty, pretty_nat, pretty, pretty_N.
  case_decide as Hz.
  - assert (n = 0) as -> by lia. by split.
  - destruct (pretty_N_go_digits (N.of_nat n) "")
      as (d & -> & Hall & Hval & Hne).
    rewrite append_empty_r. split; [|lia].
    destruct d; [by destruct Hne; [lia|]|done].
Qed.

Lemma pretty_Z_of_nat (n : nat) : pretty (Z.of_nat n) = pretty n.
Proof. by destruct n. Qed.

Lemma seatLetter_code (i : nat) :
  i < 26 → nat_of_ascii (seatLetter i) = 65 + i.
Proof.
  intros Hi. unfold seatLetter, JS.fromCharCode.
  apply nat_ascii_embedding. lia.
Qed.

Lemma getSeatDisplayLabel_main (row seatIndex : nat) :
  seatIndex < 26 →
  getSeatDisplayLabel (mainSeatId row seatIndex) =
  pretty ((Z.of_nat row - 1) * 4 + Z.of_nat seatIndex + 1)%Z.
Proof.
  intros Hi. unfold getSeatDisplayLabel, matchSeatId, mainSeatId, JS.String_.
  rewrite unsnoc_append.
  destruct (pretty_nat_digits row) as [Ht Hv]. rewrite Ht.
  unfold ConfiguratorAux.isUpper. rewrite seatLetter_code by done.
  rewrite (proj2 (Nat.leb_le 65 (65 + seatIndex))) by lia.
  rewrite (proj2 (Nat.leb_le (65 + seatIndex) 90)) by lia.
  simpl andb. cbv iota beta. rewrite Hv, seatLetter_code by done.
  f_equal. lia.
Qed.

Lemma getSeatDisplayLabel_upper (row seatIndex : nat) :
  getSeatDisplayLabel (upperSeatId row seatIndex) =
  upperSeatId row seatIndex.
Proof.
  unfold getSeatDisplayLabel, matchSeatId, upperSeatId.
  change ("U" +:+ JS.String_ row +:+ String (seatLetter seatIndex) "")
    with (String "U" (JS.String_ row +:+ String (seatLetter seatIndex) "")).
  change (String "U" (JS.String_ row +:+ String (seatLetter seatIndex) ""))
    with (String "U" (JS.String_ row) +:+ String (seatLetter seatIndex) "")
    at 1.
  by rewrite unsnoc_append.
Qed.

(** A text that starts with U does not match the pattern. *)
Lemma getSeatDisplayLabel_U (rest : string) :
  getSeatDisplayLabel (String "U" rest) = String "U" rest.
Proof.
  unfold getSeatDisplayLabel, matchSeatId. simpl.
  by destruct (unsnoc rest) as [[init last]|].
Qed.

Lemma filter_all {A} (P : A → Prop) `{∀ x, Decision (P x)} (l : list A) :
  (∀ x, x ∈ l → P x) → filter P l = l.
Proof.
  induction l as [|x l IH]; intros Hl; [done|].
  rewrite filter_cons_True by (apply Hl; left).
  f_equal. apply IH. intros y Hy. apply Hl. by right.
Qed.

(** Rows of four before [row], then the column. *)
Lemma lookup_rows (f : nat → nat → string) (w : nat → nat) (a n row i : nat) :
  (a ≤ row < a + n)%nat → i < w row →
  (∀ r, (a ≤ r < row)%nat → w r = 4) →
  (seq a n ≫= (λ r, f r <$> seq 0 (w r))) !! ((row - a) * 4 + i)
  = Some (f row i).
Proof.
  revert a. induction n as [|n IH]; intros a Hrow Hi Hw; [lia|].
  change (seq a (S n) ≫= (λ r, f r <$> seq 0 (w r)))
    with ((f a <$> seq 0 (w a)) ++
          (seq (S a) n ≫= (λ r, f r <$> seq 0 (w r)))).
  destruct (decide (row = a)) as [->|Hne].
  - rewrite lookup_app_l by (rewrite length_fmap, length_seq; lia).
    rewrite list_lookup_fmap. replace ((a - a) * 4 + i) with i by lia.
    by rewrite lookup_seq_lt.
  - rewrite lookup_app_r by (rewrite length_fmap, length_seq, Hw; lia).
    rewrite length_fmap, length_seq, Hw by lia.
    replace ((row - a) * 4 + i - 4) with ((row - S a) * 4 + i) by lia.
    apply IH; [lia|done|]. intros r Hr. apply Hw. lia.
Qed.

Lemma allSeatIds_lookup_main (config : BusConfig) (row i : nat) :
  (1 ≤ row ≤ mainDeckRows config)%nat → i < rowWidth config row →
  allSeatIds config !! ((row - 1) * 4 + i) = Some (mainSeatId row i).
Proof.
  intros Hrow Hi. unfold allSeatIds.
  assert ((seq 1 (mainDeckRows config) ≫=
             (λ r, mainSeatId r <$> seq 0 (rowWidth config r)))
          !! ((row - 1) * 4 + i) = Some (mainSeatId row i)) as Hl.
  { apply lookup_rows; [lia|done|].
    intros r Hr. unfold rowWidth. rewrite bool_decide_eq_false_2; [done|lia]. }
  rewrite lookup_app_l; [done|]. by eapply lookup_lt_Some.
Qed.

End tour_guide_label.

(** X20. For a main-deck seat id with a letter from A to Z and a row up
    to 2^50 - the range in which the host computes with exact integers -
    the tour-guide panel shows the number (row - 1) * 4 + column + 1.
    A text that starts with U, an upper-deck seat id among them, is shown
    as it is. *)
Theorem X20_tour_guide_label (row seatIndex : nat) :
  (seatIndex < 26 → (Z.of_nat row ≤ 2 ^ 50)%Z →
   TourGuide.getSeatDisplayLabel (Layout.mainSeatId row seatIndex) =
   pretty ((Z.of_nat row - 1) * 4 + Z.of_nat seatIndex + 1)%Z) ∧
  (∀ rest, TourGuide.getSeatDisplayLabel (String "U" rest) =
           String "U" rest) ∧
  TourGuide.getSeatDisplayLabel (Layout.upperSeatId row seatIndex) =
    Layout.upperSeatId row seatIndex.
Proof.
  split; [|split].
  - intros Hi _. by apply getSeatDisplayLabel_main.
  - apply getSeatDisplayLabel_U.
  - apply getSeatDisplayLabel_upper.
Qed.

Lemma X20_tour_guide_label_witness :
  TourGuide.getSeatDisplayLabel (Layout.mainSeatId 3 1) =
  pretty ((Z.of_nat 3 - 1) * 4 + Z.of_nat 1 + 1)%Z.
Proof.
  apply (proj1 (X20_tour_guide_label 3 1)); [lia|].
  vm_compute. discriminate.
Defined.

(** X21. On a deck without entrance rows, table rows and empty spaces the
    label of the tour-guide panel is the number the layout gives to the
    same main-deck seat. *)
Theorem X21_label_agrees_with_numbering (config : BusConfig)
    (row seatIndex : nat) :
  Notions.plainGeometry config → emptySpaces config = ∅ →
  (1 ≤ row ≤ mainDeckRows config)%nat →
  seatIndex < Notions.rowWidth config row →
  Layout.seatNumberMap config !! Layout.mainSeatId row seatIndex =
  Some (TourGuide.getSeatDisplayLabel (Layout.mainSeatId row seatIndex)).
Proof.
  intros Hp HE Hrow Hi.
  assert (seatIndex < 26) as Hi26.
  { unfold Notions.rowWidth in Hi.
    destruct (bool_decide _), (lastRowSeats config); simpl in Hi; lia. }
  rewrite (seatNumberMap_real_seat config ((row - 1) * 4 + seatIndex)).
  - rewrite getSeatDisplayLabel_main by done. unfold JS.String_.
    rewrite <- pretty_Z_of_nat. do 2 f_equal. lia.
  - rewrite filter_all by (intros x _; rewrite HE; apply not_elem_of_empty).
    rewrite seatSequence_plain by done.
    by apply allSeatIds_lookup_main.
Qed.

Lemma X21_label_agrees_with_numbering_witness :
  Layout.seatNumberMap Notions.exampleNoEmpty !! Layout.mainSeatId 3 4 =
  Some (TourGuide.getSeatDisplayLabel (Layout.mainSeatId 3 4)).
Proof.
  apply X21_label_agrees_with_numbering.
  - by repeat split.
  - reflexivity.
  - vm_compute. split; repeat constructor.
  - vm_compute. repeat constructor.
Defined.

(** With an empty space in front the two part ways. *)
Lemma label_differs_after_empty_space :
  Layout.seatNumberMap Spec.exampleEmpty1C !! "1D" = Some "3" ∧
  TourGuide.getSeatDisplayLabel "1D" = "4".
Proof. by vm_compute. Qed.

(** ** Export file names *)

Section file_names.

Import ConfiguratorAux Notions.

Lemma sanitizeChar_fileNameChar (c : ascii) :
  fileNameChar (sanitizeChar c) = true.
Proof. destruct c as [[] [] [] [] [] [] [] []]; reflexivity. Qed.

Lemma sanitizeChar_fixed (c : ascii) :
  fileNameChar c = true → sanitizeChar c = c.
Proof.
  destruct c as [[] [] [] [] [] [] [] []]; intros Hc;
    first [reflexivity | discriminate Hc].
Qed.

Lemma sanitize_allChars (s : string) :
  allChars fileNameChar (sanitize s) = true.
Proof.
  induction s as [|c s IH]; [done|]. simpl.
  by rewrite sanitizeChar_fileNameChar, IH.
Qed.

Lemma sanitize_length (s : string) :
  String.length (sanitize s) = String.length s.
Proof. induction s as [|c s IH]; [done|]. simpl. by rewrite IH. Qed.

Lemma sanitize_fixed (s : string) :
  allChars fileNameChar s = true → sanitize s = s.
Proof.
  induction s as [|c s IH]; [done|]. simpl.
  intros [Hc Hs]%andb_true_iff.
  by rewrite sanitizeChar_fixed, IH.
Qed.

End file_names.

(** X22. The names offered for the exported configuration and for the
    PDF: without a bus name the fixed default; with one, the bus name
    with every character other than a letter or a digit replaced by an
    underscore and the letters in lower case, followed by the fixed
    ending.  The rewritten name has the length of the bus name and only
    lower-case letters, digits and underscores; a bus name made of these
    alone is kept as it is. *)
Theorem X22_export_file_names (busName : string) :
  (busName = "" →
   ConfiguratorAux.exportFileDefaultName busName = "bus_config.json" ∧
   ConfiguratorAux.pdfFileName busName = "bus_layout.pdf") ∧
  (busName ≠ "" →
   ConfiguratorAux.exportFileDefaultName busName =
     ConfiguratorAux.sanitize busName +:+ "_bus_config.json" ∧
   ConfiguratorAux.pdfFileName busName =
     ConfiguratorAux.sanitize busName +:+ "_layout.pdf") ∧
  Notions.allChars Notions.fileNameChar (ConfiguratorAux.sanitize busName)
    = true ∧
  String.length (ConfiguratorAux.sanitize busName) = String.length busName ∧
  (Notions.allChars Notions.fileNameChar busName = true →
   ConfiguratorAux.sanitize busName = busName) ∧
  ConfiguratorAux.sanitize (ConfiguratorAux.sanitize busName) =
    ConfiguratorAux.sanitize busName.
Proof.
  split; [by intros ->|]. split.
  - intros Hn. unfold ConfiguratorAux.exportFileDefaultName,
      ConfiguratorAux.pdfFileName. by rewrite truthyS_true.
  - split; [apply sanitize_allChars|]. split; [apply sanitize_length|].
    split; [apply sanitize_fixed|]. apply sanitize_fixed, sanitize_allChars.
Qed.

Lemma X22_export_file_names_witness :
  ConfiguratorAux.exportFileDefaultName "Bus 7/A" =
    ConfiguratorAux.sanitize "Bus 7/A" +:+ "_bus_config.json" ∧
  ConfiguratorAux.pdfFileName "Bus 7/A" =
    ConfiguratorAux.sanitize "Bus 7/A" +:+ "_layout.pdf".
Proof.
  apply (proj1 (proj2 (X22_export_file_names "Bus 7/A"))). discriminate.
Defined.

(** ** The older numbering on a deck without entrance rows *)

Section legacy_numbering.

Import Layout Notions.

Lemma legacy_numberMainRow (config : BusConfig) st row :
  entranceRows config = [] → tableRows config = [] →
  LegacyLayout.numberMainRow config st row = numberMainRow config st row.
Proof.
  intros He Ht. unfold LegacyLayout.numberMainRow, numberMainRow.
  rewrite He, Ht. reflexivity.
Qed.

Lemma legacy_numberUpperRow (config : BusConfig) st row :
  upperDeckEntranceRows config = [] →
  LegacyLayout.numberUpperRow config st row = numberUpperRow config st row.
Proof.
  intros Hu. unfold LegacyLayout.numberUpperRow, numberUpperRow.
  rewrite Hu. reflexivity.
Qed.

End legacy_numbering.

(** X23. On a deck without entrance rows and table rows the older variant
    of the layout numbers the seats as the current one does. *)
Theorem X23_legacy_numbering_agrees (config : BusConfig) :
  Notions.plainGeometry config →
  LegacyLayout.seatNumberMap config = Layout.seatNumberMap config.
Proof.
  intros (He & Ht & Hu).
  unfold LegacyLayout.seatNumberMap, Layout.seatNumberMap,
    Layout.seatNumberState.
  rewrite (foldl_ext_in (LegacyLayout.numberMainRow config)
             (Layout.numberMainRow config))
    by (intros; by apply legacy_numberMainRow).
  destruct (hasUpperDeck config); [|done].
  by rewrite (foldl_ext_in (LegacyLayout.numberUpperRow config)
                (Layout.numberUpperRow config))
    by (intros; by apply legacy_numberUpperRow).
Qed.

Lemma X23_legacy_numbering_agrees_witness :
  LegacyLayout.seatNumberMap Notions.examplePlain =
  Layout.seatNumberMap Notions.examplePlain.
Proof. apply X23_legacy_numbering_agrees. by repeat split. Defined.

(** ** Every action of the editor and the uniqueness invariant *)

Section editor_uniqueness.

Import Layout Configurator App Notions.
Context `{DateParser}.

Lemma handleDragEnd_people (config : BusConfig) event :
  people (handleDragEnd config event) = people config.
Proof.
  unfold handleDragEnd.
  destruct (over event) as [overId|]; [|done].
  destruct (active_data event) as [data|]; [|done].
  case_bool_decide; [done|]. case_bool_decide.
  - destruct (fromSeatId data) as [from|]; [|done].
    by destruct (JS.truthyS from).
  - by destruct (_ || _).
Qed.

Lemma listDragData_from (config : BusConfig) index data :
  listDragData config index = Some data → fromSeatId data = None.
Proof.
  unfold listDragData. destruct (people config !! index); [|done].
  by intros [= <-].
Qed.

Lemma unique_step (config : BusConfig) (a : Action) :
  unique (seatAssignments config) → NoDup (id <$> people config) →
  unique (seatAssignments (step config a)).
Proof.
  intros Hu Hnd. destruct a; try exact Hu.
  - simpl. by destruct (handleClick config seatId keys).
  - simpl. destruct (listDragData config index) as [data|] eqn:E; [|done].
    apply unique_handleDragEnd; [done|].
    intros data' from [= <-] Hfrom.
    by rewrite (listDragData_from _ _ _ E) in Hfrom.
  - simpl. destruct (seatDragData config seatId) as [data|] eqn:E; [|done].
    apply unique_handleDragEnd; [done|].
    intros data' from [= <-] Hfrom.
    apply seatDragData_Some in E as (_ & Hf & Hl & _).
    rewrite Hf in Hfrom. by injection Hfrom as <-.
  - by apply unique_autoAssignPeople.
Qed.

Lemma ids_step (config : BusConfig) (a : Action) :
  addsPeople a = false → NoDup (id <$> people config) →
  NoDup (id <$> people (step config a)).
Proof.
  intros Ha Hnd. destruct a; try discriminate Ha; try exact Hnd.
  - simpl. by destruct (handleClick config seatId keys).
  - simpl. destruct (listDragData config index); [|done].
    by rewrite handleDragEnd_people.
  - simpl. destruct (seatDragData config seatId); [|done].
    by rewrite handleDragEnd_people.
  - simpl. by apply NoDup_filter_ids.
  - simpl. unfold People.sortPeopleByBirth.
    by rewrite (sort_Permutation byBirthDate (people config)).
Qed.

Lemma unique_run (config : BusConfig) (actions : list Action) :
  Forall (λ a, addsPeople a = false) actions →
  unique (seatAssignments config) → NoDup (id <$> people config) →
  unique (seatAssignments (run config actions)) ∧
  NoDup (id <$> people (run config actions)).
Proof.
  intros Hall. revert config.
  induction Hall as [|a actions Ha Hall IH]; intros config Hu Hnd; [done|].
  apply IH; [by apply unique_step|by apply ids_step].
Qed.

End editor_uniqueness.

(** X24. Starting from a ledger without a person seated twice and a
    roster with pairwise different ids, every single action of the editor
    keeps the ledger without a person seated twice; and so does every
    sequence of actions that adds nobody to the roster, which also keeps
    the ids pairwise different. *)
Theorem X24_editor_keeps_uniqueness `{DateParser} (config : BusConfig) :
  App.unique (seatAssignments config) →
  NoDup (id <$> people config) →
  (∀ a, App.unique (seatAssignments (App.step config a))) ∧
  (∀ actions,
     Forall (λ a, Notions.addsPeople a = false) actions →
     App.unique (seatAssignments (App.run config actions)) ∧
     NoDup (id <$> people (App.run config actions))).
Proof.
  intros Hu Hnd. split.
  - intros a. by apply unique_step.
  - intros actions Hall. by apply unique_run.
Qed.

Lemma X24_editor_keeps_uniqueness_witness :
  App.unique
    (seatAssignments
       (App.step (H := IsoDate.parser) Notions.examplePlain App.AutoAssign)).
Proof.
  apply (X24_editor_keeps_uniqueness (H := IsoDate.parser)
           Notions.examplePlain).
  - intros s1 s2 p H1 H2.
    change (({["1B" := "p1"]} : gmap string string) !! s1 = Some p) in H1.
    change (({["1B" := "p1"]} : gmap string string) !! s2 = Some p) in H2.
    apply lookup_singleton_Some in H1 as [<- _].
    by apply lookup_singleton_Some in H2 as [<- _].
  - apply (bool_decide_unpack _). by vm_compute.
Defined.

(** ** The numbers of the main deck do not depend on the upper deck *)

Section main_deck_numbers.

Import Layout Spec Configurator Notions.

Lemma mainPart_same (c c' : BusConfig) :
  sameMainDeck c c' →
  seq 1 (mainDeckRows c) ≫= rowSeats c Main =
  seq 1 (mainDeckRows c') ≫= rowSeats c' Main.
Proof.
  intros (Hr & Hw & He & Ht & _). rewrite Hr. apply bind_ext_list.
  intros row. rewrite !rowSeats_columns. unfold rowColumns.
  by rewrite Hr, Hw, He, Ht.
Qed.

Lemma upperPart_elem (c : BusConfig) x :
  x ∈ (if hasUpperDeck c
       then seq 1 (upperDeckRows c) ≫= rowSeats c Upper else []) →
  ∃ r i, x = upperSeatId r i.
Proof.
  destruct (hasUpperDeck c); [|by intros ?%elem_of_nil].
  intros (row & Hx & _)%list_elem_of_bind.
  rewrite rowSeats_columns in Hx.
  apply list_elem_of_fmap in Hx as (i & -> & _). by exists row, i.
Qed.

Lemma seatNumberMap_main_pass (c : BusConfig) sid :
  (∀ r i, sid ≠ upperSeatId r i) →
  seatNumberMap c !! sid =
  (foldl (numberSlot (emptySpaces c)) (0, ∅)
         (Seat <$> (seq 1 (mainDeckRows c) ≫= rowSeats c Main))).2 !! sid.
Proof.
  intros Hup. unfold seatNumberMap.
  rewrite seatNumberMap_seats, seatSequence_decks, fmap_app, foldl_app.
  destruct (foldl (numberSlot (emptySpaces c)) (0, ∅)
              (Seat <$> (seq 1 (mainDeckRows c) ≫= rowSeats c Main)))
    as [c0 m0].
  rewrite numberSeats_lookup_other; [done|]. right.
  intros (r & i & ->)%upperPart_elem. by apply (Hup r i).
Qed.

Lemma seatNumberMap_sameMainDeck (c c' : BusConfig) row i :
  sameMainDeck c c' →
  seatNumberMap c !! mainSeatId row i = seatNumberMap c' !! mainSeatId row i.
Proof.
  intros Hs.
  rewrite !seatNumberMap_main_pass by (intros r j; apply main_upper_disjoint).
  rewrite (mainPart_same c c') by done.
  destruct Hs as (_ & _ & _ & _ & ->). done.
Qed.

End main_deck_numbers.

(** X25. The number of a main-deck seat depends on the main deck and the
    empty spaces only: two configurations that agree on the main-deck
    rows, the width of the last row, the entrance rows, the table rows
    and the empty spaces give every main-deck seat id the same number.
    In particular showing or hiding the upper deck, or changing its
    number of rows, renumbers no main-deck seat. *)
Theorem X25_main_deck_numbers (c c' : BusConfig) :
  Notions.sameMainDeck c c' →
  (∀ row i, Layout.seatNumberMap c !! Layout.mainSeatId row i =
            Layout.seatNumberMap c' !! Layout.mainSeatId row i) ∧
  (∀ increment row i,
     Layout.seatNumberMap (Configurator.toggleUpperDeck c)
       !! Layout.mainSeatId row i =
     Layout.seatNumberMap c' !! Layout.mainSeatId row i ∧
     Layout.seatNumberMap (Configurator.updateUpperDeckRows c increment)
       !! Layout.mainSeatId row i =
     Layout.seatNumberMap c' !! Layout.mainSeatId row i).
Proof.
  intros Hs. split.
  - intros row i. by apply seatNumberMap_sameMainDeck.
  - intros increment row i. split; by apply seatNumberMap_sameMainDeck.
Qed.

Lemma X25_main_deck_numbers_witness :
  Layout.seatNumberMap (Configurator.toggleUpperDeck Notions.examplePlain)
    !! Layout.mainSeatId 3 4 =
  Layout.seatNumberMap Notions.examplePlain !! Layout.mainSeatId 3 4.
Proof.
  assert (Notions.sameMainDeck Notions.examplePlain Notions.examplePlain)
    as Hs by (by repeat split).
  exact (proj1 (proj2 (X25_main_deck_numbers Notions.examplePlain
                         Notions.examplePlain Hs) 0%Z 3 4)).
Defined.

(** ** Clicks, toggles and the payload of a seat *)

Section clicks.

Import Layout Configurator App.
Context `{DateParser}.

Lemma toggleEmptySpace_twice (config : BusConfig) sid :
  toggleEmptySpace (toggleEmptySpace config sid) sid = config.
Proof.
  destruct config as [r u h w er tr uer tg dr E sn pp L].
  unfold toggleEmptySpace, set_emptySpaces. simpl.
  f_equal. destruct (decide (sid ∈ E)) as [Hin|Hout].
  - rewrite (bool_decide_eq_true_2 (sid ∈ E)) by done.
    rewrite bool_decide_eq_false_2.
    + apply set_eq. intros x. rewrite elem_of_union, elem_of_difference,
        elem_of_singleton. split; [intros [[? _]| ->]; done|].
      intros Hx. destruct (decide (x = sid)); [by right|by left].
    + intros [_ Hn]%elem_of_difference. apply Hn. by apply elem_of_singleton.
  - rewrite (bool_decide_eq_false_2 (sid ∈ E)) by done.
    rewrite bool_decide_eq_true_2.
    + apply set_eq. intros x. rewrite elem_of_difference, elem_of_union,
        !elem_of_singleton. split; [intros [[?| ->] ?]; done|].
      intros Hx. split; [by left|]. by intros ->.
    + apply elem_of_union. right. by apply elem_of_singleton.
Qed.

Lemma step_click_occupied (config : BusConfig) sid keys :
  is_Some (assignedPerson config sid) →
  step config (ClickSeat sid keys) = config.
Proof. intros [p Hp]. simpl. unfold handleClick. by rewrite Hp. Qed.

Lemma step_click_plain (config : BusConfig) sid :
  assignedPerson config sid = None →
  step config (ClickSeat sid Plain) = toggleEmptySpace config sid.
Proof. intros Hp. simpl. unfold handleClick. by rewrite Hp. Qed.

Lemma step_click_ledger (config : BusConfig) sid keys :
  seatAssignments (step config (ClickSeat sid keys)) = seatAssignments config
  ∧ people (step config (ClickSeat sid keys)) = people config.
Proof. simpl. by destruct (handleClick config sid keys). Qed.

Lemma seatDragData_intro (config : BusConfig) seatId pid :
  seatAssignments config !! seatId = Some pid → pid ≠ "" →
  (∃ p, p ∈ people config ∧ id p = pid) →
  seatDragData config seatId = Some (mkDragData "person" pid (Some seatId)).
Proof.
  intros HL Hne (p & Hp & Hid). unfold seatDragData, assignedPerson.
  rewrite HL, truthyS_true by done.
  destruct (List.find _ (people config)) as [q|] eqn:E.
  - apply find_some in E as [_ Hq]. apply bool_decide_eq_true in Hq.
    by rewrite Hq.
  - pose proof (find_none _ _ E p) as Hn.
    rewrite bool_decide_eq_false in Hn. destruct Hn; [|done].
    by apply list_elem_of_In.
Qed.

End clicks.

(** X26. A click on a seat whose occupant is on the roster changes
    nothing.  A plain click on any other seat toggles its empty-space
    marking, so two such clicks give back the configuration.  No click
    changes the ledger or the roster. *)
Theorem X26_clicks `{DateParser} (config : BusConfig) (sid : string)
    (keys : Layout.ClickKeys) :
  (is_Some (Layout.assignedPerson config sid) →
   App.step config (App.ClickSeat sid keys) = config) ∧
  (Layout.assignedPerson config sid = None →
   App.step config (App.ClickSeat sid Layout.Plain) =
     Configurator.toggleEmptySpace config sid ∧
   App.run config [App.ClickSeat sid Layout.Plain;
                   App.ClickSeat sid Layout.Plain] = config) ∧
  seatAssignments (App.step config (App.ClickSeat sid keys)) =
    seatAssignments config ∧
  people (App.step config (App.ClickSeat sid keys)) = people config.
Proof.
  split; [apply step_click_occupied|]. split; [|apply step_click_ledger].
  intros Hp. split; [by apply step_click_plain|].
  unfold App.run. cbn [foldl]. rewrite (step_click_plain config) by done.
  rewrite (step_click_plain (Configurator.toggleEmptySpace config sid))
    by exact Hp.
  apply toggleEmptySpace_twice.
Qed.

Lemma X26_clicks_witness :
  App.step (H := IsoDate.parser) Spec.exampleTwoSeated
    (App.ClickSeat "1A" Layout.Plain)
  = Spec.exampleTwoSeated.
Proof.
  apply (proj1 (X26_clicks (H := IsoDate.parser) Spec.exampleTwoSeated
                  "1A" Layout.Plain)).
  vm_compute. eauto.
Defined.

(** X27. Switching the last row between 4 and 5 seats twice, or showing
    and hiding the upper deck twice, gives back the configuration.  The
    total shown goes up or down by one with the width of the last row,
    and by four with every main-deck row added within the bounds. *)
Theorem X27_toggles_and_total (config : BusConfig) :
  Configurator.toggleLastRowSeats (Configurator.toggleLastRowSeats config)
    = config ∧
  Configurator.toggleUpperDeck (Configurator.toggleUpperDeck config)
    = config ∧
  ConfiguratorAux.getTotalSeats (Configurator.toggleLastRowSeats config) =
    (ConfiguratorAux.getTotalSeats config +
     match lastRowSeats config with Seats4 => 1 | Seats5 => -1 end)%Z ∧
  ((1 ≤ mainDeckRows config < 25)%nat →
   ConfiguratorAux.getTotalSeats (Configurator.updateMainDeckRows config 1)
   = (ConfiguratorAux.getTotalSeats config + 4)%Z).
Proof.
  destruct config as [r u h w er tr uer tg dr E sn pp L].
  unfold Configurator.toggleLastRowSeats, Configurator.toggleUpperDeck,
    Configurator.updateMainDeckRows, Configurator.clampRows,
    ConfiguratorAux.getTotalSeats. simpl.
  split; [by destruct w|]. split; [by destruct h|]. split.
  - destruct w; simpl; lia.
  - intros Hr. lia.
Qed.

Lemma X27_toggles_and_total_witness :
  ConfiguratorAux.getTotalSeats
    (Configurator.updateMainDeckRows Configurator.initialConfig 1)
  = (ConfiguratorAux.getTotalSeats Configurator.initialConfig + 4)%Z.
Proof.
  apply (proj2 (proj2 (proj2
           (X27_toggles_and_total Configurator.initialConfig)))).
  vm_compute. split; repeat constructor.
Defined.

(** X28. A seat can be dragged exactly when its ledger entry is a
    non-empty id that somebody on the roster has; the payload then names
    that id and the seat as the source. *)
Theorem X28_seat_payload (config : BusConfig) (seatId : string)
    (data : Layout.DragData) :
  Layout.seatDragData config seatId = Some data ↔
  data = Layout.mkDragData "person" (Layout.personId data) (Some seatId) ∧
  seatAssignments config !! seatId = Some (Layout.personId data) ∧
  Layout.personId data ≠ "" ∧
  ∃ p, p ∈ people config ∧ id p = Layout.personId data.
Proof.
  split.
  - intros Hd. destruct (seatDragData_Some _ _ _ Hd)
      as (Ht & Hf & HL & Hne & Hp).
    split; [|done]. destruct data as [t pid f]. simpl in *. by subst.
  - intros (-> & HL & Hne & Hp). simpl in *.
    by apply seatDragData_intro.
Qed.

Lemma X28_seat_payload_witness :
  Layout.seatDragData Spec.exampleTwoSeated "1A" =
  Some (Layout.mkDragData "person" "p1" (Some "1A")).
Proof.
  apply (proj2 (X28_seat_payload Spec.exampleTwoSeated "1A"
                  (Layout.mkDragData "person" "p1" (Some "1A")))).
  split; [reflexivity|]. split; [reflexivity|]. split; [discriminate|].
  exists (mkPerson "p1" "Ann" None None). split; [left|reflexivity].
Defined.
